(** * Chunk exclusion for hypertables: restriction accumulators

    A shallow embedding of [src/hypertable_restrict_info.c].  The planner
    feeds the filter clauses of a query into one accumulator per
    partitioning dimension and then asks each accumulator for the
    dimension slices that may hold matching rows.

    Bounds ([int64]) and partition numbers ([int32]) are only stored and
    compared by this code, never computed with, so they are plain [Z].
    The one narrowing conversion, of the [int] strategy to the 16-bit
    [StrategyNumber], and the one computation, the [++] on the [int] count
    of restrictions, are written out where they happen. *)

From Stdlib Require Import ZArith List Bool Lia Permutation.
Import ListNotations.
Open Scope Z_scope.

(** ** PostgreSQL vocabulary *)

(** [StrategyNumber] is PostgreSQL's [uint16]; the B-tree strategy numbers
    are those of [access/stratnum.h]. *)
Definition StrategyNumber := Z.
Definition InvalidStrategy : StrategyNumber := 0.
Definition BTLessStrategyNumber : StrategyNumber := 1.
Definition BTLessEqualStrategyNumber : StrategyNumber := 2.
Definition BTEqualStrategyNumber : StrategyNumber := 3.
Definition BTGreaterEqualStrategyNumber : StrategyNumber := 4.
Definition BTGreaterStrategyNumber : StrategyNumber := 5.

(** The C type [int]: 32 bits in two's complement.  PostgreSQL is built
    with [-fwrapv], so arithmetic on it wraps around. *)
Definition INT_MIN : Z := - 2 ^ 31.
Definition INT_MAX : Z := 2 ^ 31 - 1.
Definition int_wrap (z : Z) : Z := (z + 2 ^ 31) mod 2 ^ 32 - 2 ^ 31.

Definition Oid := Z.
Definition InvalidOid : Oid := 0.
Definition OidIsValid (o : Oid) : bool := negb (o =? InvalidOid).
Definition AttrNumber := Z.
Definition LOCKMODE := Z.

(** PostgreSQL's lists ([nodes/list.c]); [NIL] is the empty list. *)
Module PgList.

Definition lappend {A} (l : list A) (x : A) : list A := l ++ [x].

Definition list_member_int (l : list Z) (x : Z) : bool :=
  existsb (Z.eqb x) l.

Definition list_append_unique_int (l : list Z) (x : Z) : list Z :=
  if list_member_int l x then l else lappend l x.

(** The members of [l1] that also occur in [l2], in the order of [l1]. *)
Definition list_intersection_int (l1 l2 : list Z) : list Z :=
  match l1, l2 with
  | [], _ | _, [] => []
  | _, _ => filter (list_member_int l2) l1
  end.

Definition list_length {A} (l : list A) : Z := Z.of_nat (length l).

(** The test [l == NIL]. *)
Definition is_NIL {A} (l : list A) : bool :=
  match l with [] => true | _ => false end.

End PgList.
Import PgList.

(** ** Catalog data *)

Inductive DimensionType :=
| DIMENSION_TYPE_OPEN
| DIMENSION_TYPE_CLOSED
| DIMENSION_TYPE_ANY.

(** A stored slice: the half-open interval [range_start, range_end) of one
    dimension. *)
Record DimensionSlice := {
  slice_id : Z;                (* fd.id *)
  slice_dimension_id : Z;      (* fd.dimension_id *)
  range_start : Z;             (* fd.range_start *)
  range_end : Z                (* fd.range_end *)
}.

(** A [DimensionVec] is a growable array of slices; [num_slices] is its
    length. *)
Definition DimensionVec := list DimensionSlice.
Definition num_slices (dv : DimensionVec) : Z := Z.of_nat (length dv).

(** Modelled from the spec: [dimension_vec_create] lives in
    [dimension_vector.c], which is not part of the sources at hand.  It
    allocates a vector with room for [initial_num_slices] slices and no
    slice in it. *)
Definition dimension_vec_create (initial_num_slices : Z) : DimensionVec := [].

(** Modelled from the spec: [dimension_vec_add_unique_slice] lives in
    [dimension_vector.c], which is not part of the sources at hand.  The
    spec has the per-partition lookups of a closed dimension united
    "deduplicated": a slice joins the vector unless a slice with the same
    identifier is already there. *)
Definition dimension_vec_add_unique_slice
    (vec : DimensionVec) (slice : DimensionSlice) : DimensionVec :=
  if existsb (fun s => slice_id s =? slice_id slice) vec
  then vec else vec ++ [slice].

(** ** The collaborators of the pruning code

    What [hypertable_restrict_info.c] calls and does not define: value
    conversion, the partitioning function and the catalog scan. *)
Class Collaborators := {
  (** A [Datum] is a value handed over by the planner; the handle of a
      dimension's partitioning function is opaque as well. *)
  Datum : Type;
  PartitioningInfo : Type;
  (** [utils.h]: "Convert a column value into the internal time
      representation."  The call sites pass [failure_ok = false]; an error
      raised inside aborts the planner call and is outside this model. *)
  time_value_to_internal : Datum -> Oid -> bool -> Z;
  (** [partitioning.h]: the partition number ([int32]) of a value. *)
  partitioning_func_apply : PartitioningInfo -> Datum -> Z;
  (** [dimension_vector.h]: the capacity a new vector starts with. *)
  DIMENSION_VEC_DEFAULT_SIZE : Z;
  (** [dimension_slice.h]: the catalog scan for the slices of a dimension,
      [dimension_slice_scan_range_limit dimension_id start_strategy
      start_value end_strategy end_value limit]. *)
  dimension_slice_scan_range_limit :
    Z -> StrategyNumber -> Z -> StrategyNumber -> Z -> Z -> DimensionVec
}.

Section Accumulators.

Context {ext : Collaborators}.

Record Dimension := {
  fd_id : Z;                          (* fd.id *)
  type : DimensionType;
  column_attno : AttrNumber;
  partitioning : PartitioningInfo
}.

(** The C structs embed a [DimensionRestrictInfo base] whose only field is
    the dimension. *)
Record DimensionRestrictInfoOpen := {
  open_dimension : Dimension;         (* base.dimension *)
  lower_bound : Z;
  lower_strategy : StrategyNumber;
  upper_bound : Z;
  upper_strategy : StrategyNumber
}.

Record DimensionRestrictInfoClosed := {
  closed_dimension : Dimension;       (* base.dimension *)
  partitions : list Z;                (* hash values *)
  closed_strategy : StrategyNumber    (* strategy: either Invalid or equal *)
}.

Record DimensionValues := {
  values : list Datum;
  use_or : bool;                      (* ORed or ANDed values *)
  values_type : Oid                   (* type *)
}.

(** *** Construction *)

(** [palloc] does not clear memory: the two bounds of a fresh open
    accumulator hold whatever the allocator left there, given here as
    [uninit_lower] and [uninit_upper]. *)
Definition dimension_restrict_info_open_create
    (d : Dimension) (uninit_lower uninit_upper : Z)
    : DimensionRestrictInfoOpen :=
  {| open_dimension := d;
     lower_bound := uninit_lower;
     lower_strategy := InvalidStrategy;
     upper_bound := uninit_upper;
     upper_strategy := InvalidStrategy |}.

Definition dimension_restrict_info_closed_create (d : Dimension)
    : DimensionRestrictInfoClosed :=
  {| closed_dimension := d;
     partitions := [];
     closed_strategy := InvalidStrategy |}.

(** *** The open (range) accumulator *)

Definition set_upper (dri : DimensionRestrictInfoOpen)
    (s : StrategyNumber) (v : Z) : DimensionRestrictInfoOpen :=
  {| open_dimension := open_dimension dri;
     lower_bound := lower_bound dri;
     lower_strategy := lower_strategy dri;
     upper_bound := v;
     upper_strategy := s |}.

Definition set_lower (dri : DimensionRestrictInfoOpen)
    (s : StrategyNumber) (v : Z) : DimensionRestrictInfoOpen :=
  {| open_dimension := open_dimension dri;
     lower_bound := v;
     lower_strategy := s;
     upper_bound := upper_bound dri;
     upper_strategy := upper_strategy dri |}.

(** One turn of the [foreach] loop of [dimension_restrict_info_open_add];
    the loop state is the accumulator and [restriction_added]. *)
Definition open_add_value (strategy : StrategyNumber) (ty : Oid)
    (st : DimensionRestrictInfoOpen * bool) (datum : Datum)
    : DimensionRestrictInfoOpen * bool :=
  let (dri, restriction_added) := st in
  let value := time_value_to_internal datum ty false in
  if (strategy =? BTLessEqualStrategyNumber)
     || (strategy =? BTLessStrategyNumber) then
    if (upper_strategy dri =? InvalidStrategy) || (value <? upper_bound dri)
    then (set_upper dri strategy value, true)
    else (dri, restriction_added)
  else if (strategy =? BTGreaterEqualStrategyNumber)
          || (strategy =? BTGreaterStrategyNumber) then
    if (lower_strategy dri =? InvalidStrategy) || (value >? lower_bound dri)
    then (set_lower dri strategy value, true)
    else (dri, restriction_added)
  else if strategy =? BTEqualStrategyNumber then
    ({| open_dimension := open_dimension dri;
        lower_bound := value;
        lower_strategy := BTGreaterEqualStrategyNumber;
        upper_bound := value;
        upper_strategy := BTLessEqualStrategyNumber |}, true)
  else (dri, restriction_added).

(** The result pairs the accumulator as the call leaves it with the value
    the C function returns. *)
Definition dimension_restrict_info_open_add
    (dri : DimensionRestrictInfoOpen) (strategy : StrategyNumber)
    (dimValues : DimensionValues) : DimensionRestrictInfoOpen * bool :=
  if use_or dimValues && (list_length (values dimValues) >? 1)
  then (dri, false)
  else fold_left (open_add_value strategy (values_type dimValues))
                 (values dimValues) (dri, false).

(** *** The closed (hash) accumulator *)

Definition dimension_restrict_info_get_partitions
    (dri : DimensionRestrictInfoClosed) (vals : list Datum) : list Z :=
  fold_left
    (fun partitions datum =>
       list_append_unique_int partitions
         (partitioning_func_apply (partitioning (closed_dimension dri)) datum))
    vals [].

Definition dimension_restrict_info_closed_add
    (dri : DimensionRestrictInfoClosed) (strategy : StrategyNumber)
    (dimValues : DimensionValues) : DimensionRestrictInfoClosed * bool :=
  if negb (strategy =? BTEqualStrategyNumber) then (dri, false)
  else
    let partitions' :=
      dimension_restrict_info_get_partitions dri (values dimValues) in
    if (list_length partitions' >? 1) && negb (use_or dimValues) then
      ({| closed_dimension := closed_dimension dri;
          partitions := [];
          closed_strategy := strategy |}, true)
    else if closed_strategy dri =? InvalidStrategy then
      ({| closed_dimension := closed_dimension dri;
          partitions := partitions';
          closed_strategy := strategy |}, true)
    else if is_NIL (partitions dri) then (dri, true)
    else
      ({| closed_dimension := closed_dimension dri;
          partitions := list_intersection_int (partitions dri) partitions';
          closed_strategy := closed_strategy dri |}, true).

(** *** Dispatch on the dimension type *)

(** A [DimensionRestrictInfo *] points at the [base] of one of the two
    structs above; which one is fixed by the type of the dimension when
    the accumulator is created, so the constructor stands for
    [dri->dimension->type]. *)
Inductive DimensionRestrictInfo :=
| DRI_Open (dri : DimensionRestrictInfoOpen)
| DRI_Closed (dri : DimensionRestrictInfoClosed).

Definition dimension (dri : DimensionRestrictInfo) : Dimension :=
  match dri with
  | DRI_Open o => open_dimension o
  | DRI_Closed c => closed_dimension c
  end.

(** [None] is [elog(ERROR, "unknown dimension type")]. *)
Definition dimension_restrict_info_create
    (d : Dimension) (uninit_lower uninit_upper : Z)
    : option DimensionRestrictInfo :=
  match type d with
  | DIMENSION_TYPE_OPEN =>
      Some (DRI_Open
              (dimension_restrict_info_open_create d uninit_lower uninit_upper))
  | DIMENSION_TYPE_CLOSED =>
      Some (DRI_Closed (dimension_restrict_info_closed_create d))
  | DIMENSION_TYPE_ANY => None
  end.

(** The [int] strategy becomes a [StrategyNumber] ([uint16]) on its way
    into the two [add] functions. *)
Definition dimension_restrict_info_add
    (dri : DimensionRestrictInfo) (strategy : Z) (vals : DimensionValues)
    : DimensionRestrictInfo * bool :=
  match dri with
  | DRI_Open o =>
      let (o', added) :=
        dimension_restrict_info_open_add o (strategy mod 65536) vals in
      (DRI_Open o', added)
  | DRI_Closed c =>
      let (c', added) :=
        dimension_restrict_info_closed_add c (strategy mod 65536) vals in
      (DRI_Closed c', added)
  end.

(** *** Slice resolution *)

Definition dimension_restrict_info_open_slices
    (dri : DimensionRestrictInfoOpen) : DimensionVec :=
  dimension_slice_scan_range_limit
    (fd_id (open_dimension dri))
    (upper_strategy dri) (upper_bound dri)
    (lower_strategy dri) (lower_bound dri) 0.

Definition dimension_restrict_info_closed_slices
    (dri : DimensionRestrictInfoClosed) : DimensionVec :=
  if closed_strategy dri =? BTEqualStrategyNumber then
    fold_left
      (fun dim_vec partition =>
         let tmp :=
           dimension_slice_scan_range_limit
             (fd_id (closed_dimension dri))
             BTLessEqualStrategyNumber partition
             BTGreaterEqualStrategyNumber partition 0 in
         fold_left dimension_vec_add_unique_slice tmp dim_vec)
      (partitions dri)
      (dimension_vec_create DIMENSION_VEC_DEFAULT_SIZE)
  else
    dimension_slice_scan_range_limit
      (fd_id (closed_dimension dri))
      InvalidStrategy (-1) InvalidStrategy (-1) 0.

Definition dimension_restrict_info_slices
    (dri : DimensionRestrictInfo) : DimensionVec :=
  match dri with
  | DRI_Open o => dimension_restrict_info_open_slices o
  | DRI_Closed c => dimension_restrict_info_closed_slices c
  end.

(** *** The restrictions of a hypertable *)

(** [num_base_restrictions] is an [int]; [num_dimensions] is the length
    of the flexible array [dimension_restriction]. *)
Record HypertableRestrictInfo := {
  num_base_restrictions : Z;
  dimension_restriction : list DimensionRestrictInfo
}.

Definition num_dimensions (hri : HypertableRestrictInfo) : Z :=
  list_length (dimension_restriction hri).

Record Hyperspace := { dimensions : list Dimension }.
Record Hypertable := { space : Hyperspace }.

(** The loop of [hypertable_restrict_info_create] from dimension [i] on;
    [uninit i] is what [palloc] left in the bounds of the [i]-th
    accumulator. *)
Fixpoint create_dimension_restrictions
    (uninit : nat -> Z * Z) (i : nat) (ds : list Dimension)
    : option (list DimensionRestrictInfo) :=
  match ds with
  | [] => Some []
  | d :: ds' =>
      match dimension_restrict_info_create
              d (fst (uninit i)) (snd (uninit i)) with
      | None => None
      | Some dri =>
          match create_dimension_restrictions uninit (S i) ds' with
          | None => None
          | Some rest => Some (dri :: rest)
          end
      end
  end.

(** The argument [rel] of the C function is not used by it and is left
    out. *)
Definition hypertable_restrict_info_create
    (uninit : nat -> Z * Z) (ht : Hypertable)
    : option HypertableRestrictInfo :=
  match create_dimension_restrictions uninit 0 (dimensions (space ht)) with
  | None => None
  | Some dris =>
      Some {| num_base_restrictions := 0; dimension_restriction := dris |}
  end.

(** The first accumulator on column [attno] and its index, which stands
    for the pointer the C function returns; [None] is [NULL]. *)
Fixpoint find_dimension_restriction
    (dris : list DimensionRestrictInfo) (attno : AttrNumber) (i : nat)
    : option (nat * DimensionRestrictInfo) :=
  match dris with
  | [] => None
  | dri :: rest =>
      if column_attno (dimension dri) =? attno then Some (i, dri)
      else find_dimension_restriction rest attno (S i)
  end.

Definition hypertable_restrict_info_get
    (hri : HypertableRestrictInfo) (attno : AttrNumber)
    : option (nat * DimensionRestrictInfo) :=
  find_dimension_restriction (dimension_restriction hri) attno 0.

(** A store through the pointer [hypertable_restrict_info_get] returned. *)
Fixpoint store_dimension_restriction
    (dris : list DimensionRestrictInfo) (i : nat)
    (dri' : DimensionRestrictInfo) : list DimensionRestrictInfo :=
  match dris, i with
  | [], _ => []
  | _ :: rest, O => dri' :: rest
  | dri :: rest, S j => dri :: store_dimension_restriction rest j dri'
  end.

(** The end of [hypertable_restrict_info_add_expr], once the clause has
    been taken apart: the accumulator [dri], found at index [i], takes the
    restriction through [dimension_restrict_info_add] and the others stay
    as they are. *)
Definition restrict_dimension
    (hri : HypertableRestrictInfo) (i : nat) (dri : DimensionRestrictInfo)
    (strategy : Z) (dimValues : DimensionValues)
    : HypertableRestrictInfo * bool :=
  let (dri', added) := dimension_restrict_info_add dri strategy dimValues in
  ({| num_base_restrictions := num_base_restrictions hri;
      dimension_restriction :=
        store_dimension_restriction (dimension_restriction hri) i dri' |},
   added).

Definition hypertable_restrict_info_has_restrictions
    (hri : HypertableRestrictInfo) : bool :=
  num_base_restrictions hri >? 0.

End Accumulators.

(** ** Clauses *)

Section Clauses.

Context {ext : Collaborators}.

(** A constant of the planner: [constvalue] is a [Datum], which for an
    array constant stands for the whole array. *)
Record Const := {
  consttype : Oid;
  constvalue : Datum
}.

(** The expression nodes this code tells apart by [IsA] and [nodeTag];
    every other node is [T_Other]. *)
#[warnings="-register-all"]
Inductive Expr :=
| T_Var (varno : Z) (varattno : AttrNumber)
| T_Const (c : Const)
| T_RelabelType (arg : Expr)
| T_OpExpr (opno : Oid) (args : list Expr)
| T_ScalarArrayOpExpr (opno : Oid) (useOr : bool) (args : list Expr)
| T_Other.

Record RestrictInfo := { clause : Expr }.

Definition dimension_values_create
    (vals : list Datum) (ty : Oid) (use_or : bool) : DimensionValues :=
  {| values := vals; use_or := use_or; values_type := ty |}.

End Clauses.

(** The services of the PostgreSQL planner and catalog caches the clause
    classifier calls, for the query being planned. *)
Class Planner {ext : Collaborators} := {
  contain_mutable_functions : Expr -> bool;
  (** [eval_const_expressions(root, node)] *)
  eval_const_expressions : Expr -> Expr;
  get_commutator : Oid -> Oid;
  op_strict : Oid -> bool;
  (** [rt_fetch(varno, root->parse->rtable)->relid] *)
  rt_relid : Z -> Oid;
  get_atttype : Oid -> AttrNumber -> Oid;
  (** [lookup_type_cache(type, TYPECACHE_BTREE_OPFAMILY)->btree_opf] *)
  btree_opf : Oid -> Oid;
  op_in_opfamily : Oid -> Oid -> bool;
  (** The strategy [get_op_opfamily_properties(opno, opfamily, false, ...)]
      stores; the operand types it stores as well are not used. *)
  get_op_opfamily_strategy : Oid -> Oid -> Z;
  get_element_type : Oid -> Oid;
  (** The elements [array_iterate] walks through; [None] is [isnull]. *)
  array_elements : Datum -> list (option Datum)
}.

Section Classifier.

Context {ext : Collaborators} {pl : Planner}.

(** The function type [get_dimension_values]; [None] is an [elog(ERROR)]. *)
Definition get_dimension_values := Const -> bool -> option DimensionValues.

Definition dimension_values_create_from_array : get_dimension_values :=
  fun c user_or =>
    let vals :=
      fold_left
        (fun vals elem =>
           match elem with
           | Some e => lappend vals e
           | None => vals
           end)
        (array_elements (constvalue c)) [] in
    let base_el_type := get_element_type (consttype c) in
    if base_el_type =? InvalidOid then None
    else Some (dimension_values_create vals base_el_type user_or).

Definition dimension_values_create_from_single_element : get_dimension_values :=
  fun c user_or =>
    Some (dimension_values_create [constvalue c] (consttype c) user_or).

Definition strip_relabel (e : Expr) : Expr :=
  match e with
  | T_RelabelType arg => arg
  | _ => e
  end.

(** [hypertable_restrict_info_add_expr] once the column [v] and the other
    operand [expr] have been told apart. *)
Definition add_expr_on_column
    (hri : HypertableRestrictInfo) (varno : Z) (varattno : AttrNumber)
    (expr : Expr) (op_oid : Oid)
    (func_get_dim_values : get_dimension_values) (use_or : bool)
    : option (HypertableRestrictInfo * bool) :=
  match hypertable_restrict_info_get hri varattno with
  | None => Some (hri, false)
  | Some (i, dri) =>
      match eval_const_expressions expr with
      | T_Const c =>
          if negb (OidIsValid op_oid) || negb (op_strict op_oid)
          then Some (hri, false)
          else
            let columntype :=
              get_atttype (rt_relid varno) (column_attno (dimension dri)) in
            let opf := btree_opf columntype in
            if negb (op_in_opfamily op_oid opf) then Some (hri, false)
            else
              let strategy := get_op_opfamily_strategy op_oid opf in
              match func_get_dim_values c use_or with
              | None => None
              | Some dimValues =>
                  Some (restrict_dimension hri i dri strategy dimValues)
              end
      | _ => Some (hri, false)
      end
  end.

(** The updated restrictions and the C function's result; [None] when an
    error was raised. *)
Definition hypertable_restrict_info_add_expr
    (hri : HypertableRestrictInfo) (expr_args : list Expr) (op_oid : Oid)
    (func_get_dim_values : get_dimension_values) (use_or : bool)
    : option (HypertableRestrictInfo * bool) :=
  match expr_args with
  | [leftop; rightop] =>
      let leftop := strip_relabel leftop in
      let rightop := strip_relabel rightop in
      match leftop, rightop with
      | T_Var varno varattno, _ =>
          add_expr_on_column hri varno varattno rightop op_oid
            func_get_dim_values use_or
      | _, T_Var varno varattno =>
          add_expr_on_column hri varno varattno leftop (get_commutator op_oid)
            func_get_dim_values use_or
      | _, _ => Some (hri, false)
      end
  | _ => Some (hri, false)
  end.

Definition hypertable_restrict_info_add_restrict_info
    (hri : HypertableRestrictInfo) (ri : RestrictInfo)
    : option HypertableRestrictInfo :=
  let e := clause ri in
  if contain_mutable_functions e then Some hri
  else
    match
      match e with
      | T_OpExpr opno args =>
          hypertable_restrict_info_add_expr hri args opno
            dimension_values_create_from_single_element false
      | T_ScalarArrayOpExpr opno useOr args =>
          hypertable_restrict_info_add_expr hri args opno
            dimension_values_create_from_array useOr
      | _ => Some (hri, false)
      end
    with
    | None => None
    | Some (hri', added) =>
        Some (if added : bool
              then {| num_base_restrictions :=
                        int_wrap (num_base_restrictions hri' + 1);
                      dimension_restriction := dimension_restriction hri' |}
              else hri')
    end.

Fixpoint hypertable_restrict_info_add
    (hri : HypertableRestrictInfo) (base_restrict_infos : list RestrictInfo)
    : option HypertableRestrictInfo :=
  match base_restrict_infos with
  | [] => Some hri
  | ri :: rest =>
      match hypertable_restrict_info_add_restrict_info hri ri with
      | None => None
      | Some hri' => hypertable_restrict_info_add hri' rest
      end
  end.

End Classifier.

(** ** Resolving the candidate chunks *)

(** [chunk.h]: the chunks made of one slice out of each vector. *)
Class ChunkLookup {ext : Collaborators} := {
  chunk_find_all_oids : Hyperspace -> list DimensionVec -> LOCKMODE -> list Oid
}.

Section Resolve.

Context {ext : Collaborators} {lookup : ChunkLookup}.

(** How the [for] loop of [hypertable_restrict_info_get_chunk_oids] is
    left: through [return NIL] at dimension [i], or at its end with one
    vector per dimension. *)
Inductive slices_loop_exit :=
| Exit_no_slices (i : nat)
| Exit_all_dimensions (dimension_vecs : list DimensionVec).

Fixpoint get_chunk_oids_loop
    (dris : list DimensionRestrictInfo) (i : nat)
    (dimension_vecs : list DimensionVec) : slices_loop_exit :=
  match dris with
  | [] => Exit_all_dimensions dimension_vecs
  | dri :: rest =>
      let dv := dimension_restrict_info_slices dri in
      if num_slices dv =? 0 then Exit_no_slices i
      else get_chunk_oids_loop rest (S i) (lappend dimension_vecs dv)
  end.

Definition hypertable_restrict_info_get_chunk_oids
    (hri : HypertableRestrictInfo) (ht : Hypertable) (lockmode : LOCKMODE)
    : list Oid :=
  match get_chunk_oids_loop (dimension_restriction hri) 0 [] with
  | Exit_no_slices _ => []
  | Exit_all_dimensions dimension_vecs =>
      chunk_find_all_oids (space ht) dimension_vecs lockmode
  end.

End Resolve.

(** ** A stored catalog

    The catalog functions the pruning code calls are defined in files that
    are not part of the sources at hand.  Here they are over an explicit
    list of stored slices and chunks, to run the code above on concrete
    tables and to state what a resolved chunk set has to contain. *)

(** Modelled from the spec: the comparison of a scan key, for the B-tree
    strategies the spec lists ("{<, <=, =, >=, >}"); the spec has the
    lookup "treat unset bounds as unbounded", so any other strategy number
    tests nothing. *)
Definition strategy_test (s : StrategyNumber) (x v : Z) : bool :=
  if s =? BTLessStrategyNumber then x <? v
  else if s =? BTLessEqualStrategyNumber then x <=? v
  else if s =? BTEqualStrategyNumber then x =? v
  else if s =? BTGreaterEqualStrategyNumber then x >=? v
  else if s =? BTGreaterStrategyNumber then x >? v
  else true.

(** Modelled from the spec: [dimension_slice_scan_range_limit] lives in
    [dimension_slice.c], which is not part of the sources at hand.  The
    spec gives the slice lookup as "(dimension id, optional upper
    bound+strategy, optional lower bound+strategy, limit) -> set of
    Slices"; the comments at its call sites read "slice_end > lower_bound
    && slice_start < upper_bound" and "slice_end >= value && slice_start
    <= value": the first strategy and value test [range_start], the second
    pair tests [range_end].  Every call in this file passes the limit 0,
    no limit. *)
Definition scan_slices (stored : list DimensionSlice)
    (dimension_id : Z)
    (start_strategy : StrategyNumber) (start_value : Z)
    (end_strategy : StrategyNumber) (end_value : Z)
    (limit : Z) : DimensionVec :=
  filter
    (fun s =>
       (slice_dimension_id s =? dimension_id)
       && strategy_test start_strategy (range_start s) start_value
       && strategy_test end_strategy (range_end s) end_value)
    stored.

(** A chunk: its table and its slices, one per dimension in the order of
    the dimensions. *)
Record Chunk := {
  table_id : Oid;
  chunk_slices : list DimensionSlice
}.

Definition slice_in_vec (dv : DimensionVec) (s : DimensionSlice) : bool :=
  existsb (fun s' => slice_id s' =? slice_id s) dv.

Fixpoint slices_in_vecs
    (slices : list DimensionSlice) (dvs : list DimensionVec) : bool :=
  match slices, dvs with
  | [], [] => true
  | s :: slices', dv :: dvs' => slice_in_vec dv s && slices_in_vecs slices' dvs'
  | _, _ => false
  end.

Section Catalog.

Context {ext : Collaborators}.

(** Modelled from the spec: [chunk_find_all_oids] lives in [chunk.c],
    which is not part of the sources at hand.  The spec has it enumerate
    the "chunks whose per-dimension slice assignment is a member of the
    corresponding candidate set in every dimension". *)
Definition find_chunks (chunks : list Chunk)
    (hs : Hyperspace) (dimension_vecs : list DimensionVec)
    (lockmode : LOCKMODE) : list Oid :=
  map table_id
      (filter (fun c => slices_in_vecs (chunk_slices c) dimension_vecs) chunks).

End Catalog.

(** The collaborators over a stored list of slices. *)
Definition stored_slices (D P : Type)
    (to_internal : D -> Oid -> bool -> Z) (partition_of : P -> D -> Z)
    (stored : list DimensionSlice) : Collaborators :=
  {| Datum := D;
     PartitioningInfo := P;
     time_value_to_internal := to_internal;
     partitioning_func_apply := partition_of;
     DIMENSION_VEC_DEFAULT_SIZE := 10;
     dimension_slice_scan_range_limit := scan_slices stored |}.

Definition stored_chunks {ext : Collaborators} (chunks : list Chunk)
    : ChunkLookup :=
  {| chunk_find_all_oids := find_chunks chunks |}.

(** ** Rows, and what pruning has to keep

    Pruning is sound when every chunk that holds a row satisfying all the
    clauses stays in the resolved set.  What pruning has to know of a row
    is where each dimension files it and how its columns compare to the
    literals of the clauses. *)
Class Rows {ext : Collaborators} := {
  Row : Type;
  (** Where dimension [d] files the row: its internal time value on an
      open dimension, its partition number on a closed one. *)
  coordinate : Dimension -> Row -> Z;
  (** [compares row attno strategy v ty]: for the operator of the given
      B-tree strategy, [column <op> v] is true of the row, [v] being a
      literal of type [ty]. *)
  compares : Row -> AttrNumber -> StrategyNumber -> Datum -> Oid -> Prop
}.

Section Semantics.

Context {ext : Collaborators} {rows : Rows}.

(** The restriction a clause hands to an accumulator -- strategy, values,
    combine_as_or -- holds of a row: the comparison is true for one of the
    values (ANY) or for each of them (ALL; a single comparison has one
    value). *)
Definition restriction_holds (row : Row) (attno : AttrNumber)
    (strategy : StrategyNumber) (dimValues : DimensionValues) : Prop :=
  if use_or dimValues
  then Exists (fun v => compares row attno strategy v (values_type dimValues))
              (values dimValues)
  else Forall (fun v => compares row attno strategy v (values_type dimValues))
              (values dimValues).

(** An open dimension files rows in the order of its column: a true
    comparison of the column is a true comparison of internal time values. *)
Definition ordered_by (d : Dimension) : Prop :=
  forall row strategy v ty,
    compares row (column_attno d) strategy v ty ->
    strategy_test strategy (coordinate d row)
      (time_value_to_internal v ty false) = true.

(** A closed dimension files equal values under the same partition. *)
Definition hashed_by (d : Dimension) : Prop :=
  forall row v ty,
    compares row (column_attno d) BTEqualStrategyNumber v ty ->
    coordinate d row = partitioning_func_apply (partitioning d) v.

Definition partitioned_by (d : Dimension) : Prop :=
  match type d with
  | DIMENSION_TYPE_OPEN => ordered_by d
  | DIMENSION_TYPE_CLOSED => hashed_by d
  | DIMENSION_TYPE_ANY => True
  end.

(** The slice [s] of dimension [d] takes the row. *)
Definition slice_holds (d : Dimension) (row : Row) (s : DimensionSlice)
    : Prop :=
  slice_dimension_id s = fd_id d
  /\ range_start s <= coordinate d row < range_end s.

(** The chunk holds the row: each of its slices takes it. *)
Definition chunk_holds (hs : Hyperspace) (c : Chunk) (row : Row) : Prop :=
  Forall2 (fun d s => slice_holds d row s) (dimensions hs) (chunk_slices c).

(** *** What an accumulator lets through *)

(** The bounds of an open accumulator let the coordinate [x] through. *)
Definition open_passes (o : DimensionRestrictInfoOpen) (x : Z) : Prop :=
  (upper_strategy o = InvalidStrategy
   \/ (upper_strategy o = BTLessStrategyNumber /\ x < upper_bound o)
   \/ (upper_strategy o = BTLessEqualStrategyNumber /\ x <= upper_bound o))
  /\ (lower_strategy o = InvalidStrategy
      \/ (lower_strategy o = BTGreaterStrategyNumber /\ lower_bound o < x)
      \/ (lower_strategy o = BTGreaterEqualStrategyNumber
          /\ lower_bound o <= x)).

(** The partition set of a closed accumulator lets the partition [p]
    through; without the equality strategy there is no restriction. *)
Definition closed_passes (c : DimensionRestrictInfoClosed) (p : Z) : Prop :=
  closed_strategy c = BTEqualStrategyNumber -> In p (partitions c).

Definition passes (dri : DimensionRestrictInfo) (row : Row) : Prop :=
  match dri with
  | DRI_Open o => open_passes o (coordinate (open_dimension o) row)
  | DRI_Closed c => closed_passes c (coordinate (closed_dimension c) row)
  end.

(** The accumulator is of the kind of its dimension. *)
Definition kind_matches (dri : DimensionRestrictInfo) : Prop :=
  match dri with
  | DRI_Open o => type (open_dimension o) = DIMENSION_TYPE_OPEN
  | DRI_Closed c => type (closed_dimension c) = DIMENSION_TYPE_CLOSED
  end.

(** *** Classified clauses *)

(** What the classifier extracts from a clause it accepts (spec 4.1): the
    column, the strategy and the values with their combine_as_or flag. *)
Record Restriction := {
  on_column : AttrNumber;
  by_strategy : Z;
  with_values : DimensionValues
}.

(** The effect of an accepted clause on the restrictions: the end of
    [hypertable_restrict_info_add_expr] followed by the count in
    [hypertable_restrict_info_add_restrict_info]. *)
Definition add_restriction (hri : HypertableRestrictInfo) (r : Restriction)
    : HypertableRestrictInfo :=
  match hypertable_restrict_info_get hri (on_column r) with
  | None => hri
  | Some (i, dri) =>
      let (hri', added) :=
        restrict_dimension hri i dri (by_strategy r) (with_values r) in
      if added : bool
      then {| num_base_restrictions :=
                int_wrap (num_base_restrictions hri' + 1);
              dimension_restriction := dimension_restriction hri' |}
      else hri'
  end.

(** The clause holds of the row; the strategy is read as the accumulators
    read it, as a [StrategyNumber]. *)
Definition holds (row : Row) (r : Restriction) : Prop :=
  restriction_holds row (on_column r) (by_strategy r mod 65536)
    (with_values r).

(** A conjunction over no value at all -- an ALL over an empty array --
    as an equality clause on the column of a closed dimension. *)
Definition empty_conjunction_on_closed (hs : Hyperspace) (r : Restriction)
    : Prop :=
  (exists d, In d (dimensions hs)
             /\ type d = DIMENSION_TYPE_CLOSED
             /\ column_attno d = on_column r)
  /\ by_strategy r mod 65536 = BTEqualStrategyNumber
  /\ use_or (with_values r) = false
  /\ values (with_values r) = [].

(** The restrictions of hypertable [ht] let the row through: there is one
    accumulator per dimension, of the kind of the dimension, and each lets
    the row through. *)
Definition keeps_row (ht : Hypertable) (hri : HypertableRestrictInfo)
    (row : Row) : Prop :=
  map dimension (dimension_restriction hri) = dimensions (space ht)
  /\ Forall (fun dri => kind_matches dri /\ passes dri row)
            (dimension_restriction hri).

End Semantics.

(** ** A small hypertable

    Readings keyed by an integer time (column 1, an open dimension) and a
    device number (column 2, a closed dimension hashed modulo 4), stored in
    four chunks. *)
Module Readings.

Inductive value :=
| Int (z : Z)
| Array (elems : list (option Z)).

Definition to_internal (v : value) (ty : Oid) (failure_ok : bool) : Z :=
  match v with
  | Int z => z
  | Array _ => 0
  end.

(** The partitioning handle is the modulus. *)
Definition partition_of (modulus : Z) (v : value) : Z :=
  match v with
  | Int z => z mod modulus
  | Array _ => 0
  end.

Definition slice (id dim lo hi : Z) : DimensionSlice :=
  {| slice_id := id; slice_dimension_id := dim;
     range_start := lo; range_end := hi |}.

Definition time_slices : list DimensionSlice :=
  [slice 1 1 0 100; slice 2 1 100 200].

Definition device_slices : list DimensionSlice :=
  [slice 3 2 0 2; slice 4 2 2 4].

#[export] Instance ext : Collaborators :=
  stored_slices value Z to_internal partition_of (time_slices ++ device_slices).

Definition chunks : list Chunk :=
  [ {| table_id := 101; chunk_slices := [slice 1 1 0 100; slice 3 2 0 2] |};
    {| table_id := 102; chunk_slices := [slice 1 1 0 100; slice 4 2 2 4] |};
    {| table_id := 103; chunk_slices := [slice 2 1 100 200; slice 3 2 0 2] |};
    {| table_id := 104; chunk_slices := [slice 2 1 100 200; slice 4 2 2 4] |} ].

#[export] Instance lookup : ChunkLookup := stored_chunks chunks.

Definition time : Dimension :=
  {| fd_id := 1; type := DIMENSION_TYPE_OPEN;
     column_attno := 1; partitioning := 0 |}.

Definition device : Dimension :=
  {| fd_id := 2; type := DIMENSION_TYPE_CLOSED;
     column_attno := 2; partitioning := 4 |}.

Definition ht : Hypertable :=
  {| space := {| dimensions := [time; device] |} |}.

(** Type and operator identifiers: [int8] and its array type, and the five
    ordering operators, numbered by their strategy. *)
Definition INT8OID : Oid := 20.
Definition INT8ARRAYOID : Oid := 1016.

#[export] Instance planner : Planner :=
  {| contain_mutable_functions := fun _ => false;
     eval_const_expressions := fun e => e;
     get_commutator := fun op => 6 - op;
     op_strict := fun _ => true;
     rt_relid := fun _ => 1000;
     get_atttype := fun _ _ => INT8OID;
     btree_opf := fun _ => 1976;
     op_in_opfamily := fun op _ => (1 <=? op) && (op <=? 5);
     get_op_opfamily_strategy := fun op _ => op;
     get_element_type := fun ty => if ty =? INT8ARRAYOID then INT8OID else InvalidOid;
     array_elements := fun v =>
       match v with
       | Int _ => []
       | Array elems => map (option_map Int) elems
       end |}.

Definition ints (use_or : bool) (zs : list Z) : DimensionValues :=
  {| values := map Int zs; use_or := use_or; values_type := INT8OID |}.

Definition open_at (lo los hi his : Z) : DimensionRestrictInfoOpen :=
  {| open_dimension := time;
     lower_bound := lo; lower_strategy := los;
     upper_bound := hi; upper_strategy := his |}.

Definition closed_at (ps : list Z) (s : StrategyNumber)
    : DimensionRestrictInfoClosed :=
  {| closed_dimension := device; partitions := ps; closed_strategy := s |}.

(** A reading is a time and a device number. *)
Definition column (row : Z * Z) (attno : AttrNumber) : Z :=
  if attno =? 1 then fst row else snd row.

#[export] Instance rows : Rows :=
  {| Row := Z * Z;
     coordinate := fun d row =>
       match type d with
       | DIMENSION_TYPE_CLOSED => column row (column_attno d) mod partitioning d
       | _ => column row (column_attno d)
       end;
     compares := fun row attno strategy v ty =>
       exists z, v = Int z /\ strategy_test strategy (column row attno) z = true
  |}.

(** The clause [column <op> z] and the clause [column <op> ANY/ALL
    (elems)] as the planner hands them over. *)
Definition int_const (z : Z) : Const :=
  {| consttype := INT8OID; constvalue := Int z |}.

Definition array_const (elems : list (option Z)) : Const :=
  {| consttype := INT8ARRAYOID; constvalue := Array elems |}.

Definition compare (attno : AttrNumber) (op : Oid) (z : Z) : RestrictInfo :=
  {| clause := T_OpExpr op [T_Var 1 attno; T_Const (int_const z)] |}.

Definition compare_array (attno : AttrNumber) (op : Oid) (useOr : bool)
    (elems : list (option Z)) : RestrictInfo :=
  {| clause :=
       T_ScalarArrayOpExpr op useOr
         [T_Var 1 attno; T_Const (array_const elems)] |}.

Definition restrictions (n : Z) (o : DimensionRestrictInfoOpen)
    (c : DimensionRestrictInfoClosed) : HypertableRestrictInfo :=
  {| num_base_restrictions := n;
     dimension_restriction := [DRI_Open o; DRI_Closed c] |}.

(** [time >= 0 AND time < 50 AND device IN (1, 5)], classified. *)
Definition query : list Restriction :=
  [ {| on_column := 1; by_strategy := BTGreaterEqualStrategyNumber;
       with_values := ints false [0] |};
    {| on_column := 1; by_strategy := BTLessStrategyNumber;
       with_values := ints false [50] |};
    {| on_column := 2; by_strategy := BTEqualStrategyNumber;
       with_values := ints true [1; 5] |} ].

Definition chunk_101 : Chunk :=
  {| table_id := 101; chunk_slices := [slice 1 1 0 100; slice 3 2 0 2] |}.

End Readings.

(** ** The vocabulary of the properties *)

Section Vocabulary.

Context {ext : Collaborators}.

(** A sequence of [add] calls on one accumulator, results dropped. *)
Definition open_add_all (dri : DimensionRestrictInfoOpen)
    (adds : list (StrategyNumber * DimensionValues))
    : DimensionRestrictInfoOpen :=
  fold_left
    (fun dri a => fst (dimension_restrict_info_open_add dri (fst a) (snd a)))
    adds dri.

Definition closed_add_all (dri : DimensionRestrictInfoClosed)
    (adds : list (StrategyNumber * DimensionValues))
    : DimensionRestrictInfoClosed :=
  fold_left
    (fun dri a => fst (dimension_restrict_info_closed_add dri (fst a) (snd a)))
    adds dri.

(** The test of the contradiction branch: the values of a conjunctive
    clause fall into more than one partition. *)
Definition contradicts (dri : DimensionRestrictInfoClosed)
    (dimValues : DimensionValues) : bool :=
  (list_length
     (dimension_restrict_info_get_partitions dri (values dimValues)) >? 1)
  && negb (use_or dimValues).

(** The three states of a closed accumulator (spec 4.3): unset, some set,
    and explicitly empty -- the equality strategy with no partition. *)
Definition explicitly_empty (dri : DimensionRestrictInfoClosed) : Prop :=
  closed_strategy dri = BTEqualStrategyNumber /\ partitions dri = [].

(** Two closed accumulators hold the same restriction: the same strategy
    and the same partition numbers, whatever their order in the list. *)
Definition same_partition_set (a b : DimensionRestrictInfoClosed) : Prop :=
  closed_dimension a = closed_dimension b
  /\ closed_strategy a = closed_strategy b
  /\ forall p, In p (partitions a) <-> In p (partitions b).

(** The upper bound did not move up from [old] to [new], strictness
    included: an unset bound ([InvalidStrategy]) is the loosest one, a set
    bound stays set at a number that is not greater, and at the same
    number a bound that was strict ([<]) stays strict. *)
Definition upper_not_raised (old new : DimensionRestrictInfoOpen) : Prop :=
  upper_strategy old = InvalidStrategy
  \/ (upper_strategy new <> InvalidStrategy
      /\ (upper_bound new < upper_bound old
          \/ (upper_bound new = upper_bound old
              /\ (upper_strategy old = BTLessStrategyNumber ->
                  upper_strategy new = BTLessStrategyNumber)))).

(** The lower bound did not move down from [old] to [new], strictness
    included. *)
Definition lower_not_lowered (old new : DimensionRestrictInfoOpen) : Prop :=
  lower_strategy old = InvalidStrategy
  \/ (lower_strategy new <> InvalidStrategy
      /\ (lower_bound old < lower_bound new
          \/ (lower_bound new = lower_bound old
              /\ (lower_strategy old = BTGreaterStrategyNumber ->
                  lower_strategy new = BTGreaterStrategyNumber)))).

Definition not_wider (old new : DimensionRestrictInfoOpen) : Prop :=
  upper_not_raised old new /\ lower_not_lowered old new.

(** [v] lies within the bounds that are set, strictness included: below
    a strict upper bound, at or below one that is not strict, and the
    same way round for the lower bound. *)
Definition within_bounds (dri : DimensionRestrictInfoOpen) (v : Z) : Prop :=
  (upper_strategy dri = InvalidStrategy
   \/ v < upper_bound dri
   \/ (v = upper_bound dri /\ upper_strategy dri <> BTLessStrategyNumber))
  /\ (lower_strategy dri = InvalidStrategy
      \/ lower_bound dri < v
      \/ (v = lower_bound dri
          /\ lower_strategy dri <> BTGreaterStrategyNumber)).

(** What keeps a call from widening the interval.  An equality clause
    overwrites both bounds with each of its values in turn, so the bounds
    it leaves are those of its last value: that value lies within the
    bounds set so far.  Nothing is asked of a clause of another strategy,
    of an equality clause the call turns down (an [IN] list of several
    values) or of one without a value. *)
Definition add_in_bounds (dri : DimensionRestrictInfoOpen)
    (a : StrategyNumber * DimensionValues) : Prop :=
  fst a = BTEqualStrategyNumber ->
  use_or (snd a) && (list_length (values (snd a)) >? 1) = false ->
  forall (vals : list Datum) (datum : Datum),
    values (snd a) = vals ++ [datum] ->
    within_bounds dri
      (time_value_to_internal datum (values_type (snd a)) false).

(** [add_in_bounds] for each call of a sequence, at the accumulator the
    call finds. *)
Fixpoint adds_in_bounds (dri : DimensionRestrictInfoOpen)
    (adds : list (StrategyNumber * DimensionValues)) : Prop :=
  match adds with
  | [] => True
  | a :: rest =>
      add_in_bounds dri a
      /\ adds_in_bounds
           (fst (dimension_restrict_info_open_add dri (fst a) (snd a))) rest
  end.

(** Some closed dimension of the hypertable is explicitly empty. *)
Definition has_empty_dimension (hri : HypertableRestrictInfo) : Prop :=
  exists c, In (DRI_Closed c) (dimension_restriction hri)
            /\ explicitly_empty c.

(** The two ways a clause can leave the restrictions: untouched, or with
    one accumulator -- the first on the column of the clause -- restricted
    by a strategy and the values of the clause. *)
Definition restricted_from (hri : HypertableRestrictInfo)
    (r : HypertableRestrictInfo * bool) : Prop :=
  r = (hri, false)
  \/ exists attno i dri strategy dimValues,
       hypertable_restrict_info_get hri attno = Some (i, dri)
       /\ r = restrict_dimension hri i dri strategy dimValues.

End Vocabulary.

(** ** More vocabulary: the states the accumulators stay in *)

Section States.

Context {ext : Collaborators}.

(** The strategies an open accumulator holds: an upper bound comes with
    [<] or [<=], a lower bound with [>] or [>=], and either may be unset. *)
Definition open_strategies_valid (o : DimensionRestrictInfoOpen) : Prop :=
  (upper_strategy o = InvalidStrategy
   \/ upper_strategy o = BTLessStrategyNumber
   \/ upper_strategy o = BTLessEqualStrategyNumber)
  /\ (lower_strategy o = InvalidStrategy
      \/ lower_strategy o = BTGreaterStrategyNumber
      \/ lower_strategy o = BTGreaterEqualStrategyNumber).

(** An accumulator no clause has restricted yet. *)
Definition unset (dri : DimensionRestrictInfo) : Prop :=
  match dri with
  | DRI_Open o =>
      lower_strategy o = InvalidStrategy /\ upper_strategy o = InvalidStrategy
  | DRI_Closed c =>
      closed_strategy c = InvalidStrategy /\ partitions c = []
  end.

(** The values of a clause in the internal time representation. *)
Definition internal_values (dimValues : DimensionValues) : list Z :=
  map (fun datum => time_value_to_internal datum (values_type dimValues) false)
      (values dimValues).

(** [x] is the least, or the greatest, member of [l]. *)
Definition least (l : list Z) (x : Z) : Prop :=
  In x l /\ Forall (fun y => x <= y) l.

Definition greatest (l : list Z) (x : Z) : Prop :=
  In x l /\ Forall (fun y => y <= x) l.

(** The call is not turned down as a disjunction of several values. *)
Definition conjunctive (dimValues : DimensionValues) : Prop :=
  use_or dimValues = false \/ (length (values dimValues) <= 1)%nat.

(** The non-null elements of an array, in the order of the array. *)
Definition non_null_elements {A} (elems : list (option A)) : list A :=
  flat_map (fun elem => match elem with Some e => [e] | None => [] end) elems.

End States.

(** * Properties of the accumulators *)

Section ListFacts.

Lemma list_member_int_In (l : list Z) (x : Z) :
  list_member_int l x = true <-> In x l.
Proof.
  unfold list_member_int. rewrite existsb_exists. split.
  - intros (y & Hy & Heq). apply Z.eqb_eq in Heq. now subst.
  - intros H. exists x. split; [assumption | apply Z.eqb_refl].
Qed.

Lemma list_intersection_int_In (l1 l2 : list Z) (x : Z) :
  In x (list_intersection_int l1 l2) <-> In x l1 /\ In x l2.
Proof.
  unfold list_intersection_int.
  destruct l1 as [|a l1]; [simpl; tauto|].
  destruct l2 as [|b l2]; [simpl; tauto|].
  rewrite filter_In, list_member_int_In. tauto.
Qed.

Lemma is_NIL_true {A} (l : list A) : is_NIL l = true <-> l = [].
Proof. destruct l; simpl; split; congruence. Qed.

Lemma list_append_unique_int_In (l : list Z) (x y : Z) :
  In y (list_append_unique_int l x) <-> In y l \/ y = x.
Proof.
  unfold list_append_unique_int, lappend.
  destruct (list_member_int l x) eqn:E.
  - apply list_member_int_In in E. split; [tauto|].
    intros [H | ->]; assumption.
  - rewrite in_app_iff. simpl. intuition congruence.
Qed.

Lemma list_append_unique_int_NoDup (l : list Z) (x : Z) :
  NoDup l -> NoDup (list_append_unique_int l x).
Proof.
  intros H. unfold list_append_unique_int, lappend.
  destruct (list_member_int l x) eqn:E; [assumption|].
  assert (~ In x l) as Hx.
  { intros Hin. apply list_member_int_In in Hin. congruence. }
  apply NoDup_rev in H. rewrite <- (rev_involutive (l ++ [x])).
  apply NoDup_rev. rewrite rev_app_distr. simpl. constructor.
  - now rewrite <- in_rev.
  - assumption.
Qed.

End ListFacts.

Section ClosedAccumulator.

Context {ext : Collaborators}.

Implicit Types (dri : DimensionRestrictInfoClosed) (dimValues : DimensionValues).

Lemma get_partitions_from (p : PartitioningInfo) (vals : list Datum)
    (acc : list Z) (x : Z) :
  In x (fold_left
          (fun partitions datum =>
             list_append_unique_int partitions (partitioning_func_apply p datum))
          vals acc)
  <-> In x acc \/ exists v, In v vals /\ x = partitioning_func_apply p v.
Proof.
  revert acc. induction vals as [|v vals IH]; intros acc; simpl.
  - split; [tauto | intros [H | (v & [] & _)]; exact H].
  - rewrite IH, list_append_unique_int_In. split.
    + intros [[H | ->] | (w & Hw & ->)]; eauto.
    + intros [H | (w & [-> | Hw] & ->)]; eauto.
Qed.

(** The partition numbers [dimension_restrict_info_get_partitions] collects
    are those of the values. *)
Lemma get_partitions_In dri (vals : list Datum) (x : Z) :
  In x (dimension_restrict_info_get_partitions dri vals)
  <-> exists v, In v vals
                /\ x = partitioning_func_apply
                         (partitioning (closed_dimension dri)) v.
Proof.
  unfold dimension_restrict_info_get_partitions.
  rewrite get_partitions_from. simpl. tauto.
Qed.

Lemma get_partitions_NoDup dri (vals : list Datum) :
  NoDup (dimension_restrict_info_get_partitions dri vals).
Proof.
  unfold dimension_restrict_info_get_partitions.
  assert (forall acc, NoDup acc ->
            NoDup (fold_left
                     (fun partitions datum =>
                        list_append_unique_int partitions
                          (partitioning_func_apply
                             (partitioning (closed_dimension dri)) datum))
                     vals acc)) as H.
  { induction vals as [|v vals IH]; intros acc Hacc; simpl; [assumption|].
    apply IH, list_append_unique_int_NoDup, Hacc. }
  apply H. constructor.
Qed.

(** Two values with different partition numbers make the collected list
    longer than one. *)
Lemma get_partitions_two dri (vals : list Datum) (v1 v2 : Datum) :
  In v1 vals -> In v2 vals ->
  partitioning_func_apply (partitioning (closed_dimension dri)) v1
  <> partitioning_func_apply (partitioning (closed_dimension dri)) v2 ->
  (1 < length (dimension_restrict_info_get_partitions dri vals))%nat.
Proof.
  intros H1 H2 Hne.
  assert (In (partitioning_func_apply (partitioning (closed_dimension dri)) v1)
             (dimension_restrict_info_get_partitions dri vals)) as I1
    by (apply get_partitions_In; eauto).
  assert (In (partitioning_func_apply (partitioning (closed_dimension dri)) v2)
             (dimension_restrict_info_get_partitions dri vals)) as I2
    by (apply get_partitions_In; eauto).
  destruct (dimension_restrict_info_get_partitions dri vals) as [|a [|b l]];
    simpl in *; [tauto | | lia].
  destruct I1 as [E1 | []], I2 as [E2 | []]. congruence.
Qed.

(** The partitions collected depend on the accumulator through its
    dimension only. *)
Lemma get_partitions_dimension dri dri' (vals : list Datum) :
  closed_dimension dri = closed_dimension dri' ->
  dimension_restrict_info_get_partitions dri vals
  = dimension_restrict_info_get_partitions dri' vals.
Proof.
  unfold dimension_restrict_info_get_partitions. now intros ->.
Qed.

Lemma closed_add_dimension dri strategy dimValues :
  closed_dimension (fst (dimension_restrict_info_closed_add dri strategy dimValues))
  = closed_dimension dri.
Proof.
  unfold dimension_restrict_info_closed_add.
  repeat match goal with |- context [if ?b then _ else _] => destruct b end;
    reflexivity.
Qed.

(** The contradiction branch of [dimension_restrict_info_closed_add]. *)
Lemma closed_add_contradiction dri dimValues :
  use_or dimValues = false ->
  (1 < length (dimension_restrict_info_get_partitions dri (values dimValues)))%nat ->
  dimension_restrict_info_closed_add dri BTEqualStrategyNumber dimValues
  = ({| closed_dimension := closed_dimension dri;
        partitions := [];
        closed_strategy := BTEqualStrategyNumber |}, true).
Proof.
  intros Hor Hlen. unfold dimension_restrict_info_closed_add.
  rewrite Hor. simpl negb.
  replace (list_length _ >? 1) with true; [reflexivity|].
  symmetry. unfold list_length. apply Z.gtb_lt. lia.
Qed.

(** An explicitly empty accumulator is left as it is by every [add]. *)
Lemma closed_add_explicitly_empty dri strategy dimValues :
  explicitly_empty dri ->
  fst (dimension_restrict_info_closed_add dri strategy dimValues) = dri.
Proof.
  intros [Hs Hp]. destruct dri as [d ps s]. simpl in Hs, Hp. subst.
  unfold dimension_restrict_info_closed_add. simpl.
  destruct (strategy =? BTEqualStrategyNumber) eqn:E; simpl; [|reflexivity].
  apply Z.eqb_eq in E. subst.
  destruct (_ && _); reflexivity.
Qed.

Lemma closed_add_all_explicitly_empty dri adds :
  explicitly_empty dri -> closed_add_all dri adds = dri.
Proof.
  intros H. unfold closed_add_all.
  induction adds as [|a adds IH]; simpl; [reflexivity|].
  now rewrite closed_add_explicitly_empty.
Qed.

(** The resolver of an explicitly empty accumulator scans nothing. *)
Lemma closed_slices_explicitly_empty dri :
  explicitly_empty dri -> dimension_restrict_info_closed_slices dri = [].
Proof.
  intros [Hs Hp]. unfold dimension_restrict_info_closed_slices.
  rewrite Hs, Hp. reflexivity.
Qed.

(** Every strategy but equality is turned down. *)
Lemma closed_add_other_strategy dri strategy dimValues :
  strategy <> BTEqualStrategyNumber ->
  dimension_restrict_info_closed_add dri strategy dimValues = (dri, false).
Proof.
  intros H. unfold dimension_restrict_info_closed_add.
  apply Z.eqb_neq in H. now rewrite H.
Qed.

(** The strategy an equality clause leaves behind. *)
Lemma closed_add_equal_strategy dri dimValues :
  closed_strategy
    (fst (dimension_restrict_info_closed_add dri BTEqualStrategyNumber dimValues))
  = if contradicts dri dimValues then BTEqualStrategyNumber
    else if closed_strategy dri =? InvalidStrategy then BTEqualStrategyNumber
    else closed_strategy dri.
Proof.
  unfold dimension_restrict_info_closed_add, contradicts. simpl negb at 1.
  cbv iota.
  destruct (_ && _); [reflexivity|].
  destruct (closed_strategy dri =? InvalidStrategy); [reflexivity|].
  destruct (is_NIL (partitions dri)); reflexivity.
Qed.

(** The partition numbers an equality clause leaves behind. *)
Lemma closed_add_equal_In dri dimValues (p : Z) :
  In p (partitions
          (fst (dimension_restrict_info_closed_add
                  dri BTEqualStrategyNumber dimValues)))
  <-> if contradicts dri dimValues then False
      else if closed_strategy dri =? InvalidStrategy
           then In p (dimension_restrict_info_get_partitions
                        dri (values dimValues))
           else In p (partitions dri)
                /\ In p (dimension_restrict_info_get_partitions
                           dri (values dimValues)).
Proof.
  unfold dimension_restrict_info_closed_add, contradicts. simpl negb at 1.
  cbv iota.
  destruct (_ && _); [simpl; tauto|].
  destruct (closed_strategy dri =? InvalidStrategy); [simpl; tauto|].
  destruct (is_NIL (partitions dri)) eqn:E; simpl.
  - apply is_NIL_true in E. rewrite E. simpl. tauto.
  - apply list_intersection_int_In.
Qed.

Lemma contradicts_dimension dri dri' dimValues :
  closed_dimension dri = closed_dimension dri' ->
  contradicts dri dimValues = contradicts dri' dimValues.
Proof.
  intros H. unfold contradicts.
  now rewrite (get_partitions_dimension dri dri' _ H).
Qed.

Lemma same_partition_set_refl dri : same_partition_set dri dri.
Proof. unfold same_partition_set. tauto. Qed.

Lemma same_partition_set_trans dri1 dri2 dri3 :
  same_partition_set dri1 dri2 -> same_partition_set dri2 dri3 ->
  same_partition_set dri1 dri3.
Proof.
  intros (Hd & Hs & Hp) (Hd' & Hs' & Hp'). repeat split; try congruence.
  - intros H. now apply Hp', Hp.
  - intros H. now apply Hp, Hp'.
Qed.

(** [add] cannot tell two accumulators with the same partition set apart. *)
Lemma closed_add_same_partition_set dri dri' strategy dimValues :
  same_partition_set dri dri' ->
  same_partition_set
    (fst (dimension_restrict_info_closed_add dri strategy dimValues))
    (fst (dimension_restrict_info_closed_add dri' strategy dimValues)).
Proof.
  intros (Hd & Hs & Hp).
  destruct (Z.eq_dec strategy BTEqualStrategyNumber) as [-> | Hne].
  2: { rewrite !closed_add_other_strategy by assumption.
       simpl. repeat split; (assumption || apply Hp). }
  split; [now rewrite !closed_add_dimension|].
  split.
  - rewrite !closed_add_equal_strategy.
    now rewrite (contradicts_dimension dri dri' _ Hd), Hs.
  - intros p. rewrite !closed_add_equal_In.
    rewrite (contradicts_dimension dri dri' _ Hd), Hs.
    rewrite (get_partitions_dimension dri dri' _ Hd).
    destruct (contradicts dri' dimValues); [tauto|].
    destruct (closed_strategy dri' =? InvalidStrategy); [tauto|].
    rewrite Hp. tauto.
Qed.

(** Two [add] calls commute, up to the order of the partition list. *)
Lemma closed_add_commute dri s1 v1 s2 v2 :
  same_partition_set
    (fst (dimension_restrict_info_closed_add
            (fst (dimension_restrict_info_closed_add dri s1 v1)) s2 v2))
    (fst (dimension_restrict_info_closed_add
            (fst (dimension_restrict_info_closed_add dri s2 v2)) s1 v1)).
Proof.
  destruct (Z.eq_dec s1 BTEqualStrategyNumber) as [-> | Hne1].
  2: { rewrite !(closed_add_other_strategy _ s1) by assumption.
       apply same_partition_set_refl. }
  destruct (Z.eq_dec s2 BTEqualStrategyNumber) as [-> | Hne2].
  2: { rewrite !(closed_add_other_strategy _ s2) by assumption.
       apply same_partition_set_refl. }
  pose proof (closed_add_dimension dri BTEqualStrategyNumber v1) as D1.
  pose proof (closed_add_dimension dri BTEqualStrategyNumber v2) as D2.
  split; [now rewrite !closed_add_dimension|].
  split.
  - rewrite !closed_add_equal_strategy.
    rewrite (contradicts_dimension _ dri v2 D1).
    rewrite (contradicts_dimension _ dri v1 D2).
    destruct (contradicts dri v1), (contradicts dri v2); try reflexivity;
      destruct (closed_strategy dri =? InvalidStrategy) eqn:E;
      cbv iota; rewrite ?E; reflexivity.
  - intros p.
    pose proof (closed_add_equal_In dri v1 p) as I1.
    pose proof (closed_add_equal_In dri v2 p) as I2.
    pose proof (closed_add_equal_In
                  (fst (dimension_restrict_info_closed_add
                          dri BTEqualStrategyNumber v1)) v2 p) as I12.
    pose proof (closed_add_equal_In
                  (fst (dimension_restrict_info_closed_add
                          dri BTEqualStrategyNumber v2)) v1 p) as I21.
    rewrite closed_add_equal_strategy in I12, I21.
    rewrite (contradicts_dimension _ dri v2 D1) in I12.
    rewrite (contradicts_dimension _ dri v1 D2) in I21.
    rewrite (get_partitions_dimension _ dri (values v2) D1) in I12.
    rewrite (get_partitions_dimension _ dri (values v1) D2) in I21.
    destruct (contradicts dri v1), (contradicts dri v2);
      destruct (closed_strategy dri =? InvalidStrategy) eqn:E;
      cbv iota in I12, I21; rewrite ?E in I12, I21;
      change (BTEqualStrategyNumber =? InvalidStrategy) with false in *;
      tauto.
Qed.

Lemma closed_add_all_cons dri a adds :
  closed_add_all dri (a :: adds)
  = closed_add_all
      (fst (dimension_restrict_info_closed_add dri (fst a) (snd a))) adds.
Proof. reflexivity. Qed.

Lemma closed_add_all_same_partition_set adds :
  forall dri dri',
    same_partition_set dri dri' ->
    same_partition_set (closed_add_all dri adds) (closed_add_all dri' adds).
Proof.
  unfold closed_add_all.
  induction adds as [|a adds IH]; intros dri dri' H; simpl; [assumption|].
  apply IH, closed_add_same_partition_set, H.
Qed.

End ClosedAccumulator.

(** Turns the tests on strategy numbers and bounds of the goal into facts. *)
Ltac strategy_cases :=
  repeat match goal with
    | |- context [if ?a || ?b then _ else _] =>
        let E := fresh "E" in destruct (a || b) eqn:E;
        [apply orb_true_iff in E | apply orb_false_iff in E; destruct E]
    | |- context [if ?a =? ?b then _ else _] =>
        let E := fresh "E" in destruct (a =? b) eqn:E
    end;
  repeat match goal with
    | H : (_ =? _) = true |- _ => apply Z.eqb_eq in H
    | H : (_ =? _) = false |- _ => apply Z.eqb_neq in H
    | H : (_ <? _) = true |- _ => apply Z.ltb_lt in H
    | H : (_ <? _) = false |- _ => apply Z.ltb_ge in H
    | H : (_ >? _) = true |- _ => apply Z.gtb_lt in H
    | H : (_ >? _) = false |- _ => rewrite Z.gtb_ltb in H; apply Z.ltb_ge in H
    end.

Section OpenAccumulator.

Context {ext : Collaborators}.

Implicit Types (dri : DimensionRestrictInfoOpen) (dimValues : DimensionValues).

Lemma not_wider_refl dri : not_wider dri dri.
Proof.
  unfold not_wider, upper_not_raised, lower_not_lowered.
  destruct (Z.eq_dec (upper_strategy dri) InvalidStrategy),
           (Z.eq_dec (lower_strategy dri) InvalidStrategy);
    split; (now left) || (right; split; [assumption | right; now split]).
Qed.

Lemma not_wider_trans dri1 dri2 dri3 :
  not_wider dri1 dri2 -> not_wider dri2 dri3 -> not_wider dri1 dri3.
Proof.
  unfold not_wider, upper_not_raised, lower_not_lowered.
  intros [[U | [U1 U2]] [L | [L1 L2]]] [[U' | [U1' U2']] [L' | [L1' L2']]];
    split; try (now left); try contradiction; right;
    (split; [assumption|]); lia.
Qed.

(** One value of a clause that is not an equality does not widen the
    interval. *)
Lemma open_add_value_not_wider strategy ty dri added datum :
  strategy <> BTEqualStrategyNumber ->
  not_wider dri (fst (open_add_value strategy ty (dri, added) datum)).
Proof.
  intros Hne. pose proof (not_wider_refl dri) as [RU RL].
  unfold open_add_value. strategy_cases; simpl; try (split; assumption);
    try contradiction; split; try assumption;
    unfold upper_not_raised, lower_not_lowered, set_upper, set_lower; simpl;
    unfold BTLessEqualStrategyNumber, BTLessStrategyNumber,
      BTGreaterEqualStrategyNumber, BTGreaterStrategyNumber,
      InvalidStrategy in *;
    lia.
Qed.

(** An equality clause leaves the bounds of its last value. *)
Lemma open_add_value_equal ty st datum :
  open_add_value BTEqualStrategyNumber ty st datum
  = ({| open_dimension := open_dimension (fst st);
        lower_bound := time_value_to_internal datum ty false;
        lower_strategy := BTGreaterEqualStrategyNumber;
        upper_bound := time_value_to_internal datum ty false;
        upper_strategy := BTLessEqualStrategyNumber |}, true).
Proof. destruct st as [dri added]. reflexivity. Qed.

Lemma open_add_values_equal ty st (vals : list Datum) (datum : Datum) :
  fold_left (open_add_value BTEqualStrategyNumber ty) (vals ++ [datum]) st
  = ({| open_dimension := open_dimension (fst st);
        lower_bound := time_value_to_internal datum ty false;
        lower_strategy := BTGreaterEqualStrategyNumber;
        upper_bound := time_value_to_internal datum ty false;
        upper_strategy := BTLessEqualStrategyNumber |}, true).
Proof.
  rewrite fold_left_app. simpl. rewrite open_add_value_equal. f_equal.
  f_equal. clear datum.
  revert st. induction vals as [|v vals IH]; intros st; simpl; [reflexivity|].
  rewrite IH, open_add_value_equal. reflexivity.
Qed.

Lemma open_add_values_not_wider strategy ty (vals : list Datum) :
  strategy <> BTEqualStrategyNumber ->
  forall dri added,
    not_wider dri (fst (fold_left (open_add_value strategy ty) vals (dri, added))).
Proof.
  intros Hne. induction vals as [|v vals IH]; intros dri added;
    cbn [fold_left].
  - apply not_wider_refl.
  - destruct (open_add_value strategy ty (dri, added) v) as [dri' added'] eqn:E.
    apply not_wider_trans with dri'; [|apply IH].
    change dri' with (fst (dri', added')). rewrite <- E.
    now apply open_add_value_not_wider.
Qed.

(** A call does not widen the interval exactly when it is within
    bounds: the bounds an equality clause leaves are those of its last
    value, and every other call narrows or changes nothing. *)
Lemma open_add_not_wider dri strategy dimValues :
  add_in_bounds dri (strategy, dimValues)
  <-> not_wider dri
        (fst (dimension_restrict_info_open_add dri strategy dimValues)).
Proof.
  unfold add_in_bounds, dimension_restrict_info_open_add. cbn [fst snd].
  destruct (use_or dimValues && (list_length (values dimValues) >? 1)).
  { split; [intros _; apply not_wider_refl | intros _ _ H; discriminate H]. }
  destruct (Z.eq_dec strategy BTEqualStrategyNumber) as [-> | Hne].
  2: { split; [intros _; now apply open_add_values_not_wider
              | intros _ H; contradiction]. }
  destruct (values dimValues) as [|v vals _] using rev_ind.
  { split; [intros _; apply not_wider_refl|].
    intros _ _ _ vals datum H. now destruct vals. }
  rewrite open_add_values_equal. cbn [fst].
  assert (within_bounds dri
            (time_value_to_internal v (values_type dimValues) false)
          <-> not_wider dri
                {| open_dimension := open_dimension dri;
                   lower_bound :=
                     time_value_to_internal v (values_type dimValues) false;
                   lower_strategy := BTGreaterEqualStrategyNumber;
                   upper_bound :=
                     time_value_to_internal v (values_type dimValues) false;
                   upper_strategy := BTLessEqualStrategyNumber |}) as W.
  { unfold within_bounds, not_wider, upper_not_raised, lower_not_lowered.
    cbn [upper_bound upper_strategy lower_bound lower_strategy].
    unfold BTLessEqualStrategyNumber, BTGreaterEqualStrategyNumber,
      BTLessStrategyNumber, BTGreaterStrategyNumber, InvalidStrategy.
    lia. }
  rewrite <- W. split.
  - intros H. now apply (H eq_refl eq_refl vals v).
  - intros H _ _ vals' datum E. apply app_inj_tail in E.
    destruct E as [_ <-]. exact H.
Qed.

(** What an interval that is not wider lets through, the one before it
    let through. *)
Lemma not_wider_passes old new (x : Z) :
  open_strategies_valid old ->
  not_wider old new ->
  open_passes new x -> open_passes old x.
Proof.
  unfold open_strategies_valid, not_wider, upper_not_raised,
    lower_not_lowered, open_passes.
  unfold BTLessEqualStrategyNumber, BTGreaterEqualStrategyNumber,
    BTLessStrategyNumber, BTGreaterStrategyNumber, InvalidStrategy.
  intros [VU VL] [NU NL] [PU PL].
  split; [clear VL NL PL | clear VU NU PU]; lia.
Qed.

Lemma open_add_value_valid strategy ty st datum :
  open_strategies_valid (fst st) ->
  open_strategies_valid (fst (open_add_value strategy ty st datum)).
Proof.
  destruct st as [o added]. intros [HU HL]. unfold open_add_value.
  strategy_cases; simpl; try (split; assumption);
    repeat match goal with
      | H : (_ =? _) = true \/ (_ =? _) = true |- _ =>
          destruct H as [H | H]; apply Z.eqb_eq in H
      end;
    subst; split; simpl; auto.
Qed.

Lemma open_add_valid dri strategy dimValues :
  open_strategies_valid dri ->
  open_strategies_valid
    (fst (dimension_restrict_info_open_add dri strategy dimValues)).
Proof.
  intros H. unfold dimension_restrict_info_open_add.
  destruct (use_or dimValues && _); [exact H|].
  change dri with (fst (dri, false)) in H. revert H. generalize (dri, false).
  induction (values dimValues) as [|v vals IH]; intros st H; simpl;
    [exact H|].
  now apply IH, open_add_value_valid.
Qed.

Lemma open_add_all_valid (adds : list (StrategyNumber * DimensionValues)) :
  forall dri,
    open_strategies_valid dri ->
    open_strategies_valid (open_add_all dri adds).
Proof.
  unfold open_add_all.
  induction adds as [|a adds IH]; intros dri H; simpl; [exact H|].
  now apply IH, open_add_valid.
Qed.

Lemma open_add_all_app dri (pre post : list (StrategyNumber * DimensionValues)) :
  open_add_all dri (pre ++ post) = open_add_all (open_add_all dri pre) post.
Proof. apply fold_left_app. Qed.

Lemma adds_in_bounds_app (pre post : list (StrategyNumber * DimensionValues)) :
  forall dri,
    adds_in_bounds dri (pre ++ post)
    <-> adds_in_bounds dri pre
        /\ adds_in_bounds (open_add_all dri pre) post.
Proof.
  induction pre as [|a pre IH]; intros dri; simpl.
  - change (open_add_all dri []) with dri. tauto.
  - rewrite IH. tauto.
Qed.

(** Calls within bounds do not widen the interval. *)
Lemma open_add_all_not_wider (adds : list (StrategyNumber * DimensionValues)) :
  forall dri,
    adds_in_bounds dri adds -> not_wider dri (open_add_all dri adds).
Proof.
  induction adds as [|a adds IH]; intros dri H.
  - apply not_wider_refl.
  - destruct H as [Ha Hrest].
    apply not_wider_trans
      with (fst (dimension_restrict_info_open_add dri (fst a) (snd a))).
    + destruct a as [strategy dimValues]. now apply open_add_not_wider.
    + apply IH, Hrest.
Qed.

End OpenAccumulator.

(** * Properties of the resolution *)

Section Resolution.

Context {ext : Collaborators} {lookup : ChunkLookup}.

(** A loop left through [return NIL] is left the same way whatever
    dimensions follow. *)
Lemma get_chunk_oids_loop_app dris dris' :
  forall i dimension_vecs j,
    get_chunk_oids_loop dris i dimension_vecs = Exit_no_slices j ->
    get_chunk_oids_loop (dris ++ dris') i dimension_vecs = Exit_no_slices j.
Proof.
  induction dris as [|dri dris IH]; intros i dvs j H; simpl in *.
  - discriminate.
  - destruct (num_slices (dimension_restrict_info_slices dri) =? 0);
      [assumption | now apply IH].
Qed.

(** A dimension without candidate slices makes the loop return at it or
    before it. *)
Lemma get_chunk_oids_loop_no_slices pre dri :
  num_slices (dimension_restrict_info_slices dri) = 0 ->
  forall i dimension_vecs,
    exists j, (i <= j <= i + length pre)%nat
              /\ get_chunk_oids_loop (pre ++ [dri]) i dimension_vecs
                 = Exit_no_slices j.
Proof.
  intros Hdri. induction pre as [|d pre IH]; intros i dvs; simpl.
  - rewrite Hdri. simpl. exists i. split; [lia | reflexivity].
  - destruct (num_slices (dimension_restrict_info_slices d) =? 0).
    + exists i. split; [lia | reflexivity].
    + destruct (IH (S i) (lappend dvs (dimension_restrict_info_slices d)))
        as (j & Hj & E).
      exists j. split; [lia | assumption].
Qed.

(** When the dimensions before it all have candidate slices, the loop
    returns exactly at the dimension that has none. *)
Lemma get_chunk_oids_loop_first_empty pre dri post :
  Forall (fun d => num_slices (dimension_restrict_info_slices d) <> 0) pre ->
  num_slices (dimension_restrict_info_slices dri) = 0 ->
  forall i dimension_vecs,
    get_chunk_oids_loop (pre ++ dri :: post) i dimension_vecs
    = Exit_no_slices (i + length pre).
Proof.
  intros Hpre Hdri. induction Hpre as [|d pre Hd Hpre IH]; intros i dvs; simpl.
  - rewrite Hdri. simpl. f_equal. lia.
  - apply Z.eqb_neq in Hd. rewrite Hd, IH. f_equal. lia.
Qed.

Lemma get_chunk_oids_no_slices hri ht lockmode dri :
  In dri (dimension_restriction hri) ->
  num_slices (dimension_restrict_info_slices dri) = 0 ->
  hypertable_restrict_info_get_chunk_oids hri ht lockmode = [].
Proof.
  intros Hin Hdri. apply in_split in Hin. destruct Hin as (pre & post & E).
  unfold hypertable_restrict_info_get_chunk_oids. rewrite E.
  destruct (get_chunk_oids_loop_no_slices pre dri Hdri 0%nat []) as (j & _ & Hj).
  change (pre ++ dri :: post) with (pre ++ [dri] ++ post).
  rewrite app_assoc.
  now rewrite (get_chunk_oids_loop_app _ post _ _ _ Hj).
Qed.

(** One explicitly empty closed dimension empties the chunk set. *)
Lemma get_chunk_oids_empty_dimension hri ht lockmode :
  has_empty_dimension hri ->
  hypertable_restrict_info_get_chunk_oids hri ht lockmode = [].
Proof.
  intros (c & Hin & Hc).
  apply (get_chunk_oids_no_slices hri ht lockmode (DRI_Closed c) Hin).
  simpl. now rewrite closed_slices_explicitly_empty.
Qed.

End Resolution.

Section Ingestion.

Context {ext : Collaborators}.

Lemma find_dimension_restriction_nth dris attno :
  forall i0 i dri,
    find_dimension_restriction dris attno i0 = Some (i, dri) ->
    (i0 <= i)%nat /\ nth_error dris (i - i0) = Some dri.
Proof.
  induction dris as [|d dris IH]; intros i0 i dri H; simpl in H.
  - discriminate.
  - destruct (column_attno (dimension d) =? attno).
    + injection H as <- <-. rewrite Nat.sub_diag. split; [lia | reflexivity].
    + apply IH in H. destruct H as [Hle Hn]. split; [lia|].
      replace (i - i0)%nat with (S (i - S i0)) by lia. exact Hn.
Qed.

Lemma hypertable_restrict_info_get_nth hri attno i dri :
  hypertable_restrict_info_get hri attno = Some (i, dri) ->
  nth_error (dimension_restriction hri) i = Some dri.
Proof.
  intros H. apply find_dimension_restriction_nth in H.
  now rewrite Nat.sub_0_r in H.
Qed.

Lemma store_dimension_restriction_nth dris :
  forall i dri' k,
    nth_error (store_dimension_restriction dris i dri') k
    = if Nat.eqb k i
      then match nth_error dris k with
           | Some _ => Some dri'
           | None => None
           end
      else nth_error dris k.
Proof.
  induction dris as [|d dris IH]; intros i dri' k; simpl.
  - destruct i, k; simpl; try reflexivity. now destruct (Nat.eqb k i).
  - destruct i, k; simpl; try reflexivity. apply IH.
Qed.

(** A restriction on one dimension leaves an explicitly empty dimension
    in place. *)
Lemma restrict_dimension_keeps_empty hri i dri strategy dimValues :
  nth_error (dimension_restriction hri) i = Some dri ->
  has_empty_dimension hri ->
  has_empty_dimension (fst (restrict_dimension hri i dri strategy dimValues)).
Proof.
  intros Hnth (c & Hin & Hc). exists c. split; [|assumption].
  unfold restrict_dimension.
  destruct (dimension_restrict_info_add dri strategy dimValues)
    as [dri' added] eqn:E.
  simpl. apply In_nth_error in Hin. destruct Hin as [k Hk].
  apply nth_error_In with k. rewrite store_dimension_restriction_nth.
  destruct (Nat.eqb k i) eqn:Eki; [|assumption].
  apply Nat.eqb_eq in Eki. subst k. rewrite Hk. f_equal.
  rewrite Hnth in Hk. injection Hk as ->. simpl in E.
  destruct (dimension_restrict_info_closed_add c (strategy mod 65536) dimValues)
    as [c' added'] eqn:Ec.
  injection E as <- _. f_equal.
  change c' with (fst (c', added')). rewrite <- Ec.
  now apply closed_add_explicitly_empty.
Qed.

End Ingestion.

Section Classification.

Context {ext : Collaborators} {pl : Planner}.

Lemma add_expr_on_column_restricted
    hri varno varattno expr op_oid func_get_dim_values use_or r :
  add_expr_on_column hri varno varattno expr op_oid func_get_dim_values use_or
  = Some r ->
  restricted_from hri r.
Proof.
  unfold add_expr_on_column, restricted_from. intros H.
  destruct (hypertable_restrict_info_get hri varattno) as [[i dri]|] eqn:G;
    [|left; congruence].
  destruct (eval_const_expressions expr); try (left; congruence).
  destruct (negb (OidIsValid op_oid) || negb (op_strict op_oid));
    [left; congruence|].
  destruct (negb (op_in_opfamily op_oid _)); [left; congruence|].
  destruct (func_get_dim_values c use_or) as [dimValues|]; [|discriminate].
  injection H as <-. right. eauto 8.
Qed.

(** Whatever the clause, [hypertable_restrict_info_add_expr] restricts at
    most one accumulator. *)
Lemma add_expr_restricted
    hri expr_args op_oid func_get_dim_values use_or r :
  hypertable_restrict_info_add_expr hri expr_args op_oid
    func_get_dim_values use_or = Some r ->
  restricted_from hri r.
Proof.
  unfold hypertable_restrict_info_add_expr. intros H.
  destruct expr_args as [|leftop [|rightop [|? ?]]];
    try (left; congruence).
  destruct (strip_relabel leftop), (strip_relabel rightop);
    try (left; congruence);
    eapply add_expr_on_column_restricted; eassumption.
Qed.

Lemma restricted_from_keeps_empty hri r :
  restricted_from hri r ->
  has_empty_dimension hri -> has_empty_dimension (fst r).
Proof.
  intros [-> | (attno & i & dri & strategy & dimValues & G & ->)] H.
  - exact H.
  - apply restrict_dimension_keeps_empty; [|assumption].
    eapply hypertable_restrict_info_get_nth, G.
Qed.

Lemma add_restrict_info_keeps_empty hri ri hri' :
  hypertable_restrict_info_add_restrict_info hri ri = Some hri' ->
  has_empty_dimension hri -> has_empty_dimension hri'.
Proof.
  unfold hypertable_restrict_info_add_restrict_info. intros H He.
  destruct (contain_mutable_functions (clause ri)); [congruence|].
  match type of H with
  | match ?e with _ => _ end = _ => destruct e as [[hri1 added]|] eqn:E
  end; [|discriminate].
  assert (restricted_from hri (hri1, added)) as R.
  { destruct (clause ri); try (left; congruence);
      eapply add_expr_restricted; eassumption. }
  apply restricted_from_keeps_empty in R; [|assumption]. simpl in R.
  injection H as <-. destruct added; exact R.
Qed.

(** No later clause revives a hypertable with an explicitly empty
    dimension. *)
Lemma hypertable_restrict_info_add_keeps_empty base_restrict_infos :
  forall hri hri',
    hypertable_restrict_info_add hri base_restrict_infos = Some hri' ->
    has_empty_dimension hri -> has_empty_dimension hri'.
Proof.
  induction base_restrict_infos as [|ri rest IH]; intros hri hri' H He;
    simpl in H.
  - now injection H as <-.
  - destruct (hypertable_restrict_info_add_restrict_info hri ri)
      as [hri1|] eqn:E; [|discriminate].
    eapply IH; [eassumption|].
    eapply add_restrict_info_keeps_empty; eassumption.
Qed.

End Classification.

(** * The claims of the specification *)

Section OpenClaims.

Context {ext : Collaborators}.

(** C5, as amended: a sequence of [add] calls on an open accumulator never
    widens the accumulated interval, as long as each equality clause that
    takes effect ends on a value within the bounds accumulated so far;
    clauses of the other strategies are under no condition.  The calls
    are within bounds exactly when no single call widens the interval.
    When they are, the interval after all the calls is not wider than
    after any number of the first of them: where an upper bound was set
    it is still set and has not moved up, where a lower bound was set it
    is still set and has not moved down, a strict bound has not become
    one that is not strict at the same number, and so, from an accumulator
    with the strategies the code sets, every coordinate within the final
    bounds was within the bounds all along. *)
Theorem conjunctive_clauses_never_widen :
  forall (dri : DimensionRestrictInfoOpen)
         (adds : list (StrategyNumber * DimensionValues)),
    (adds_in_bounds dri adds
     <-> forall pre a post,
           adds = pre ++ a :: post ->
           not_wider (open_add_all dri pre) (open_add_all dri (pre ++ [a])))
    /\ (adds_in_bounds dri adds ->
        forall pre post,
          adds = pre ++ post ->
          not_wider (open_add_all dri pre) (open_add_all dri adds)
          /\ (open_strategies_valid dri ->
              forall x : Z,
                open_passes (open_add_all dri adds) x ->
                open_passes (open_add_all dri pre) x)).
Proof.
  intros dri adds. split.
  - revert dri. induction adds as [|a adds IH]; intros dri.
    + split; [|constructor]. intros _ pre a post E. now destruct pre.
    + cbn [adds_in_bounds]. rewrite IH. split.
      * intros [Ha Hrest] [|a0 pre] b post E; injection E as <- E.
        -- apply open_add_not_wider. now destruct a.
        -- now apply (Hrest pre b post).
      * intros H. split.
        -- destruct a as [strategy dimValues]. apply open_add_not_wider.
           apply (H [] (strategy, dimValues) adds eq_refl).
        -- intros pre b post E. apply (H (a :: pre) b post). now rewrite E.
  - intros H pre post ->.
    apply adds_in_bounds_app in H. destruct H as [_ H].
    rewrite open_add_all_app.
    apply open_add_all_not_wider in H. split; [exact H|].
    intros Hv x. apply not_wider_passes; [|exact H].
    now apply open_add_all_valid.
Qed.

(** C6: [add] with the equality strategy and one value [v] sets both
    bounds to [v], the lower strategy to [>=] and the upper strategy to
    [<=], whatever the accumulator held before, and reports that a
    restriction was added. *)
Theorem open_add_equality_sets_both_bounds :
  forall (dri : DimensionRestrictInfoOpen) (datum : Datum) (ty : Oid)
         (combine_as_or : bool),
    dimension_restrict_info_open_add dri BTEqualStrategyNumber
      {| values := [datum]; use_or := combine_as_or; values_type := ty |}
    = ({| open_dimension := open_dimension dri;
          lower_bound := time_value_to_internal datum ty false;
          lower_strategy := BTGreaterEqualStrategyNumber;
          upper_bound := time_value_to_internal datum ty false;
          upper_strategy := BTLessEqualStrategyNumber |}, true).
Proof.
  intros dri datum ty combine_as_or.
  unfold dimension_restrict_info_open_add. simpl.
  rewrite andb_false_r. reflexivity.
Qed.

(** C8: [add] on an open accumulator with [combine_as_or] and more than
    one value reports that nothing was added and leaves the accumulator as
    it was. *)
Theorem open_add_rejects_disjunction :
  forall (dri : DimensionRestrictInfoOpen) (strategy : StrategyNumber)
         (dimValues : DimensionValues),
    use_or dimValues = true ->
    (1 < length (values dimValues))%nat ->
    dimension_restrict_info_open_add dri strategy dimValues = (dri, false).
Proof.
  intros dri strategy dimValues Hor Hlen.
  unfold dimension_restrict_info_open_add. rewrite Hor.
  assert ((list_length (values dimValues) >? 1) = true) as ->.
  { unfold list_length. apply Z.gtb_lt. lia. }
  reflexivity.
Qed.

End OpenClaims.

Section ClosedClaims.

Context {ext : Collaborators}.

(** C4: an explicitly empty closed accumulator -- equality strategy, no
    partition -- is explicitly empty after any further [add] calls, and
    its slice resolver returns no slice. *)
Theorem explicitly_empty_stays_empty :
  forall (dri : DimensionRestrictInfoClosed)
         (adds : list (StrategyNumber * DimensionValues)),
    explicitly_empty dri ->
    explicitly_empty (closed_add_all dri adds)
    /\ dimension_restrict_info_closed_slices (closed_add_all dri adds) = [].
Proof.
  intros dri adds H.
  rewrite closed_add_all_explicitly_empty by assumption.
  split; [assumption | now apply closed_slices_explicitly_empty].
Qed.

(** C7: the partition set and the strategy a closed accumulator ends with
    are the same for every order in which a collection of clauses is added
    to it. *)
Theorem closed_add_order_independent :
  forall (dri : DimensionRestrictInfoClosed)
         (adds adds' : list (StrategyNumber * DimensionValues)),
    Permutation adds adds' ->
    same_partition_set (closed_add_all dri adds) (closed_add_all dri adds').
Proof.
  intros dri adds adds' P.
  enough (forall a b, same_partition_set a b ->
            same_partition_set (closed_add_all a adds) (closed_add_all b adds'))
    as H by apply H, same_partition_set_refl.
  induction P as [|x l l' P IH|x y l|l l' l'' P1 IH1 P2 IH2]; intros a b Hab.
  - exact Hab.
  - rewrite !closed_add_all_cons.
    apply IH. now apply closed_add_same_partition_set.
  - rewrite !closed_add_all_cons.
    apply same_partition_set_trans
      with (closed_add_all
              (fst (dimension_restrict_info_closed_add
                      (fst (dimension_restrict_info_closed_add
                              a (fst x) (snd x))) (fst y) (snd y))) l).
    + apply closed_add_all_same_partition_set, closed_add_commute.
    + apply closed_add_all_same_partition_set.
      now do 2 apply closed_add_same_partition_set.
  - apply same_partition_set_trans with (closed_add_all a l').
    + apply IH1, same_partition_set_refl.
    + now apply IH2.
Qed.

(** C9: [add] on a closed accumulator with a strategy other than equality
    reports that nothing was added and leaves the accumulator, partitions
    and strategy, as it was. *)
Theorem closed_add_rejects_other_strategies :
  forall (dri : DimensionRestrictInfoClosed) (strategy : StrategyNumber)
         (dimValues : DimensionValues),
    strategy <> BTEqualStrategyNumber ->
    dimension_restrict_info_closed_add dri strategy dimValues = (dri, false).
Proof.
  intros dri strategy dimValues H.
  unfold dimension_restrict_info_closed_add.
  destruct (strategy =? BTEqualStrategyNumber) eqn:E; [|reflexivity].
  apply Z.eqb_eq in E. contradiction.
Qed.

End ClosedClaims.

Section QueryClaims.

Context {ext : Collaborators} {pl : Planner} {lookup : ChunkLookup}.

(** C2: when the slice resolver of a dimension returns no slice,
    [hypertable_restrict_info_get_chunk_oids] returns no chunk; its loop
    is left at that dimension or before it, at the same place whatever
    accumulators follow, and exactly at that dimension when all the
    dimensions before it have slices. *)
Theorem get_chunk_oids_short_circuit :
  forall (hri : HypertableRestrictInfo) (ht : Hypertable)
         (lockmode : LOCKMODE)
         (pre : list DimensionRestrictInfo) (dri : DimensionRestrictInfo)
         (post : list DimensionRestrictInfo),
    dimension_restriction hri = pre ++ dri :: post ->
    num_slices (dimension_restrict_info_slices dri) = 0 ->
    hypertable_restrict_info_get_chunk_oids hri ht lockmode = []
    /\ (exists i, (i <= length pre)%nat
                  /\ forall post',
                       get_chunk_oids_loop (pre ++ dri :: post') 0 []
                       = Exit_no_slices i)
    /\ (Forall (fun d => num_slices (dimension_restrict_info_slices d) <> 0)
               pre ->
        get_chunk_oids_loop (pre ++ dri :: post) 0 []
        = Exit_no_slices (length pre)).
Proof.
  intros hri ht lockmode pre dri post E Hdri. split; [|split].
  - apply get_chunk_oids_no_slices with dri; [|assumption].
    rewrite E. apply in_elt.
  - destruct (get_chunk_oids_loop_no_slices pre dri Hdri 0%nat [])
      as (j & Hj & Hloop).
    exists j. split; [lia|]. intros post'.
    change (pre ++ dri :: post') with (pre ++ [dri] ++ post').
    rewrite app_assoc. now apply get_chunk_oids_loop_app.
  - intros Hpre.
    now rewrite (get_chunk_oids_loop_first_empty pre dri post Hpre Hdri).
Qed.

(** C3: in any state of a closed accumulator, [add] with the equality
    strategy, [combine_as_or] false and values falling into more than one
    partition leaves the accumulator explicitly empty and reports that a
    restriction was added; a hypertable holding this accumulator resolves
    to no chunk, whatever its other dimensions hold and whatever clauses
    are added afterwards. *)
Theorem conjunctive_equality_contradiction :
  forall (dri : DimensionRestrictInfoClosed) (dimValues : DimensionValues)
         (v1 v2 : Datum),
    use_or dimValues = false ->
    In v1 (values dimValues) ->
    In v2 (values dimValues) ->
    partitioning_func_apply (partitioning (closed_dimension dri)) v1
    <> partitioning_func_apply (partitioning (closed_dimension dri)) v2 ->
    dimension_restrict_info_closed_add dri BTEqualStrategyNumber dimValues
    = ({| closed_dimension := closed_dimension dri;
          partitions := [];
          closed_strategy := BTEqualStrategyNumber |}, true)
    /\ forall (hri : HypertableRestrictInfo) (rest : list RestrictInfo)
              (hri' : HypertableRestrictInfo) (ht : Hypertable)
              (lockmode : LOCKMODE),
         In (DRI_Closed
               (fst (dimension_restrict_info_closed_add
                       dri BTEqualStrategyNumber dimValues)))
            (dimension_restriction hri) ->
         hypertable_restrict_info_add hri rest = Some hri' ->
         hypertable_restrict_info_get_chunk_oids hri' ht lockmode = [].
Proof.
  intros dri dimValues v1 v2 Hor H1 H2 Hne.
  pose proof (get_partitions_two dri _ v1 v2 H1 H2 Hne) as Hlen.
  pose proof (closed_add_contradiction dri dimValues Hor Hlen) as E.
  split; [exact E|].
  intros hri rest hri' ht lockmode Hin Hadd.
  apply get_chunk_oids_empty_dimension.
  apply (hypertable_restrict_info_add_keeps_empty rest hri hri' Hadd).
  eexists. split; [exact Hin|]. rewrite E. split; reflexivity.
Qed.

(** C10: a first equality clause without values -- an array constant
    that is empty or holds only NULL elements, which the value extraction
    drops -- makes an unset closed accumulator adopt the empty partition
    set with the equality strategy and reports that a restriction was
    added: the accumulator is in the very state a contradiction leaves
    behind, and a hypertable holding it resolves to no chunk. *)
Theorem first_equality_clause_without_values :
  forall (dri : DimensionRestrictInfoClosed) (dimValues : DimensionValues),
    closed_strategy dri = InvalidStrategy ->
    values dimValues = [] ->
    dimension_restrict_info_closed_add dri BTEqualStrategyNumber dimValues
    = ({| closed_dimension := closed_dimension dri;
          partitions := [];
          closed_strategy := BTEqualStrategyNumber |}, true)
    /\ dimension_restrict_info_closed_slices
         (fst (dimension_restrict_info_closed_add
                 dri BTEqualStrategyNumber dimValues)) = []
    /\ (forall (hri : HypertableRestrictInfo) (rest : list RestrictInfo)
               (hri' : HypertableRestrictInfo) (ht : Hypertable)
               (lockmode : LOCKMODE),
          In (DRI_Closed
                (fst (dimension_restrict_info_closed_add
                        dri BTEqualStrategyNumber dimValues)))
             (dimension_restriction hri) ->
          hypertable_restrict_info_add hri rest = Some hri' ->
          hypertable_restrict_info_get_chunk_oids hri' ht lockmode = [])
    /\ (forall (c : Const) (user_or : bool),
          Forall (fun elem => elem = None) (array_elements (constvalue c)) ->
          get_element_type (consttype c) <> InvalidOid ->
          dimension_values_create_from_array c user_or
          = Some {| values := [];
                    use_or := user_or;
                    values_type := get_element_type (consttype c) |}).
Proof.
  intros dri dimValues Hs Hv.
  assert (dimension_restrict_info_closed_add dri BTEqualStrategyNumber dimValues
          = ({| closed_dimension := closed_dimension dri;
                partitions := [];
                closed_strategy := BTEqualStrategyNumber |}, true)) as E.
  { unfold dimension_restrict_info_closed_add. rewrite Hv, Hs. reflexivity. }
  split; [exact E|]. rewrite E. simpl fst.
  split; [now apply closed_slices_explicitly_empty|]. split.
  - intros hri rest hri' ht lockmode Hin Hadd.
    apply get_chunk_oids_empty_dimension.
    apply (hypertable_restrict_info_add_keeps_empty rest hri hri' Hadd).
    eexists. split; [exact Hin|]. split; reflexivity.
  - intros c user_or Hnull Hty.
    unfold dimension_values_create_from_array.
    apply Z.eqb_neq in Hty. rewrite Hty. f_equal.
    unfold dimension_values_create. f_equal.
    induction Hnull as [|elem elems -> _ IH]; [reflexivity | exact IH].
Qed.

End QueryClaims.

(** * Soundness of the resolved chunk set *)

(** C1 fails on the code.  On the readings table the filter
    [device = ALL ('{}')] holds of every row, an ALL over no element, yet
    the device accumulator takes the empty list of values for its
    partition set and the resolved chunk set is empty: chunk 101, which
    holds the reading of device 1 at time 10, is dropped.  Without the
    clause all four chunks are resolved. *)
Theorem empty_all_array_drops_matching_chunks :
  hypertable_restrict_info_create (fun _ => (0, 0)) Readings.ht
  = Some (Readings.restrictions 0 (Readings.open_at 0 0 0 0)
            (Readings.closed_at [] InvalidStrategy))
  /\ hypertable_restrict_info_get_chunk_oids (lookup := Readings.lookup)
       (Readings.restrictions 0 (Readings.open_at 0 0 0 0)
          (Readings.closed_at [] InvalidStrategy))
       Readings.ht 0
     = [101; 102; 103; 104]
  /\ dimension_values_create_from_array (pl := Readings.planner)
       (Readings.array_const []) false
     = Some (Readings.ints false [])
  /\ (forall row : @Row Readings.ext Readings.rows,
        restriction_holds row 2 BTEqualStrategyNumber (Readings.ints false []))
  /\ hypertable_restrict_info_add (pl := Readings.planner)
       (Readings.restrictions 0 (Readings.open_at 0 0 0 0)
          (Readings.closed_at [] InvalidStrategy))
       [Readings.compare_array 2 3 false []]
     = Some (Readings.restrictions 1 (Readings.open_at 0 0 0 0)
               (Readings.closed_at [] BTEqualStrategyNumber))
  /\ In Readings.chunk_101 Readings.chunks
  /\ chunk_holds (rows := Readings.rows) (space Readings.ht)
       Readings.chunk_101 (10, 1)
  /\ hypertable_restrict_info_get_chunk_oids (lookup := Readings.lookup)
       (Readings.restrictions 1 (Readings.open_at 0 0 0 0)
          (Readings.closed_at [] BTEqualStrategyNumber))
       Readings.ht 0
     = [].
Proof.
  split; [reflexivity|]. split; [reflexivity|]. split; [reflexivity|].
  split; [intros row; constructor|].
  split; [reflexivity|]. split; [left; reflexivity|].
  split; [|reflexivity].
  repeat constructor; vm_compute; congruence.
Qed.

Section PassingRows.

Context {ext : Collaborators}.

Lemma strategy_test_less x v :
  strategy_test BTLessStrategyNumber x v = true <-> x < v.
Proof. apply Z.ltb_lt. Qed.

Lemma strategy_test_less_equal x v :
  strategy_test BTLessEqualStrategyNumber x v = true <-> x <= v.
Proof. apply Z.leb_le. Qed.

Lemma strategy_test_equal x v :
  strategy_test BTEqualStrategyNumber x v = true <-> x = v.
Proof. apply Z.eqb_eq. Qed.

Lemma strategy_test_greater_equal x v :
  strategy_test BTGreaterEqualStrategyNumber x v = true <-> v <= x.
Proof. unfold strategy_test. simpl. rewrite Z.geb_le. tauto. Qed.

Lemma strategy_test_greater x v :
  strategy_test BTGreaterStrategyNumber x v = true <-> v < x.
Proof. unfold strategy_test. simpl. rewrite Z.gtb_ltb. apply Z.ltb_lt. Qed.

(** One value of a clause that holds of [x] leaves bounds that let [x]
    through. *)
Lemma open_add_value_passes strategy ty o added datum x :
  strategy_test strategy x (time_value_to_internal datum ty false) = true ->
  open_passes o x ->
  open_passes (fst (open_add_value strategy ty (o, added) datum)) x.
Proof.
  intros Hc [HU HL]. unfold open_add_value.
  strategy_cases; simpl; try (split; assumption);
    repeat match goal with
      | H : (_ =? _) = true \/ (_ =? _) = true |- _ =>
          destruct H as [H | H]; apply Z.eqb_eq in H
      end;
    subst; split; try assumption; simpl.
  - right; right. split; [reflexivity|].
    now apply strategy_test_less_equal.
  - right; left. split; [reflexivity|]. now apply strategy_test_less.
  - right; right. split; [reflexivity|].
    now apply strategy_test_greater_equal.
  - right; left. split; [reflexivity|]. now apply strategy_test_greater.
  - right; right. split; [reflexivity|].
    apply strategy_test_equal in Hc. lia.
  - right; right. split; [reflexivity|].
    apply strategy_test_equal in Hc. lia.
Qed.

Lemma open_add_values_passes strategy ty (vals : list Datum) x :
  Forall (fun v =>
            strategy_test strategy x (time_value_to_internal v ty false) = true)
         vals ->
  forall o added,
    open_passes o x ->
    open_passes (fst (fold_left (open_add_value strategy ty) vals (o, added))) x.
Proof.
  induction 1 as [|v vals Hv _ IH]; intros o added Ho; cbn [fold_left].
  - exact Ho.
  - destruct (open_add_value strategy ty (o, added) v) as [o' added'] eqn:E.
    apply IH. change o' with (fst (o', added')). rewrite <- E.
    now apply open_add_value_passes.
Qed.

(** A clause that holds of [x] leaves bounds that let [x] through. *)
Lemma open_add_passes o strategy dimValues x :
  (if use_or dimValues
   then Exists (fun v =>
                  strategy_test strategy x
                    (time_value_to_internal v (values_type dimValues) false)
                  = true) (values dimValues)
   else Forall (fun v =>
                  strategy_test strategy x
                    (time_value_to_internal v (values_type dimValues) false)
                  = true) (values dimValues)) ->
  open_passes o x ->
  open_passes (fst (dimension_restrict_info_open_add o strategy dimValues)) x.
Proof.
  intros H Ho. unfold dimension_restrict_info_open_add.
  destruct (use_or dimValues); simpl andb.
  - destruct (list_length (values dimValues) >? 1) eqn:L; [exact Ho|].
    apply open_add_values_passes; [|exact Ho].
    destruct (values dimValues) as [|v [|w vals]].
    + constructor.
    + apply Exists_cons in H. destruct H as [H | H];
        [now constructor | inversion H].
    + unfold list_length in L. simpl length in L.
      rewrite Z.gtb_ltb in L. apply Z.ltb_ge in L. lia.
  - now apply open_add_values_passes.
Qed.

Lemma open_add_value_dimension strategy ty st datum :
  open_dimension (fst (open_add_value strategy ty st datum))
  = open_dimension (fst st).
Proof.
  destruct st as [o added]. unfold open_add_value.
  repeat match goal with |- context [if ?b then _ else _] => destruct b end;
    reflexivity.
Qed.

Lemma open_add_dimension o strategy dimValues :
  open_dimension (fst (dimension_restrict_info_open_add o strategy dimValues))
  = open_dimension o.
Proof.
  unfold dimension_restrict_info_open_add.
  destruct (_ && _); [reflexivity|].
  change o with (fst (o, false)) at 2. generalize (o, false).
  induction (values dimValues) as [|v vals IH]; intros st; simpl;
    [reflexivity|].
  now rewrite IH, open_add_value_dimension.
Qed.

Lemma NoDup_all_equal (l : list Z) (x : Z) :
  NoDup l -> (forall y, In y l -> y = x) -> (length l <= 1)%nat.
Proof.
  intros Hnd Hall. destruct l as [|a [|b l]]; simpl; try lia.
  exfalso. apply NoDup_cons_iff in Hnd. destruct Hnd as [Hnd _].
  apply Hnd. left.
  rewrite (Hall a), (Hall b); simpl; auto.
Qed.

(** An equality clause that holds of partition [p] leaves a partition
    set that lets [p] through, unless it is a conjunction over no value. *)
Lemma closed_add_passes c strategy dimValues p :
  (strategy = BTEqualStrategyNumber ->
   if use_or dimValues
   then Exists (fun v =>
                  p = partitioning_func_apply
                        (partitioning (closed_dimension c)) v)
               (values dimValues)
   else Forall (fun v =>
                  p = partitioning_func_apply
                        (partitioning (closed_dimension c)) v)
               (values dimValues)) ->
  (strategy = BTEqualStrategyNumber ->
   use_or dimValues = false -> values dimValues <> []) ->
  closed_passes c p ->
  closed_passes (fst (dimension_restrict_info_closed_add c strategy dimValues)) p.
Proof.
  intros Hholds Hguard Hc.
  destruct (Z.eq_dec strategy BTEqualStrategyNumber) as [-> | Hne].
  2: now rewrite closed_add_other_strategy.
  specialize (Hholds eq_refl). specialize (Hguard eq_refl).
  assert (In p (dimension_restrict_info_get_partitions c (values dimValues)))
    as Hin.
  { apply get_partitions_In. destruct (use_or dimValues).
    - apply Exists_exists in Hholds. exact Hholds.
    - destruct (values dimValues) as [|v vals]; [now contradiction Hguard|].
      exists v. split; [now left | now apply Forall_inv in Hholds]. }
  assert (contradicts c dimValues = false) as Hcontra.
  { unfold contradicts. destruct (use_or dimValues); [apply andb_false_r|].
    rewrite andb_true_r. unfold list_length.
    rewrite Z.gtb_ltb. apply Z.ltb_ge.
    enough (length (dimension_restrict_info_get_partitions c (values dimValues))
            <= 1)%nat by lia.
    apply NoDup_all_equal with p; [apply get_partitions_NoDup|].
    intros y Hy. apply get_partitions_In in Hy. destruct Hy as (v & Hv & ->).
    rewrite Forall_forall in Hholds. symmetry. now apply Hholds. }
  unfold closed_passes. rewrite closed_add_equal_strategy, closed_add_equal_In.
  rewrite Hcontra.
  destruct (closed_strategy c =? InvalidStrategy); [intros _; exact Hin|].
  intros Hs. split; [now apply Hc | exact Hin].
Qed.

End PassingRows.

Section SoundIngestion.

Context {ext : Collaborators} {rows : Rows}.

Lemma dimension_restrict_info_add_dimension dri strategy dimValues :
  dimension (fst (dimension_restrict_info_add dri strategy dimValues))
  = dimension dri.
Proof.
  destruct dri as [o | c]; simpl.
  - pose proof (open_add_dimension o (strategy mod 65536) dimValues) as H.
    now destruct (dimension_restrict_info_open_add _ _ _).
  - pose proof (closed_add_dimension c (strategy mod 65536) dimValues) as H.
    now destruct (dimension_restrict_info_closed_add _ _ _).
Qed.

Lemma dimension_restrict_info_add_kind dri strategy dimValues :
  kind_matches dri ->
  kind_matches (fst (dimension_restrict_info_add dri strategy dimValues)).
Proof.
  destruct dri as [o | c]; simpl; intros H.
  - pose proof (open_add_dimension o (strategy mod 65536) dimValues) as D.
    destruct (dimension_restrict_info_open_add _ _ _). simpl in *. congruence.
  - pose proof (closed_add_dimension c (strategy mod 65536) dimValues) as D.
    destruct (dimension_restrict_info_closed_add _ _ _). simpl in *.
    congruence.
Qed.

(** A clause that holds of the row leaves an accumulator that lets the
    row through, unless it is an equality conjunction over no value on a
    closed dimension. *)
Lemma dimension_restrict_info_add_passes dri strategy dimValues row :
  kind_matches dri ->
  partitioned_by (dimension dri) ->
  restriction_holds row (column_attno (dimension dri)) (strategy mod 65536)
    dimValues ->
  (type (dimension dri) = DIMENSION_TYPE_CLOSED ->
   strategy mod 65536 = BTEqualStrategyNumber ->
   use_or dimValues = false -> values dimValues <> []) ->
  passes dri row ->
  passes (fst (dimension_restrict_info_add dri strategy dimValues)) row.
Proof.
  unfold partitioned_by, restriction_holds.
  destruct dri as [o | c]; simpl; intros Hk Hp Hholds Hguard Ha; rewrite Hk in Hp.
  - pose proof (open_add_dimension o (strategy mod 65536) dimValues) as D.
    pose proof (open_add_passes o (strategy mod 65536) dimValues
                  (coordinate (open_dimension o) row)) as H.
    destruct (dimension_restrict_info_open_add _ _ _) as [o' added].
    simpl in *. rewrite D. apply H; [|exact Ha].
    destruct (use_or dimValues);
      [eapply Exists_impl | eapply Forall_impl]; try exact Hholds;
      intros v Hv; now apply Hp.
  - pose proof (closed_add_dimension c (strategy mod 65536) dimValues) as D.
    pose proof (closed_add_passes c (strategy mod 65536) dimValues
                  (coordinate (closed_dimension c) row)) as H.
    destruct (dimension_restrict_info_closed_add _ _ _) as [c' added].
    simpl in *. rewrite D. apply H; [| |exact Ha].
    + intros Hs. rewrite Hs in Hholds.
      destruct (use_or dimValues);
        [eapply Exists_impl | eapply Forall_impl]; try exact Hholds;
        intros v Hv; eapply Hp; exact Hv.
    + now apply Hguard.
Qed.

Lemma find_dimension_restriction_attno dris attno :
  forall i0 i dri,
    find_dimension_restriction dris attno i0 = Some (i, dri) ->
    column_attno (dimension dri) = attno.
Proof.
  induction dris as [|d dris IH]; intros i0 i dri H; simpl in H.
  - discriminate.
  - destruct (column_attno (dimension d) =? attno) eqn:E.
    + injection H as _ <-. now apply Z.eqb_eq.
    + eapply IH, H.
Qed.

Lemma store_dimension_restriction_Forall (P : DimensionRestrictInfo -> Prop)
    dris i dri' :
  Forall P dris -> P dri' -> Forall P (store_dimension_restriction dris i dri').
Proof.
  intros H Hd. revert i.
  induction H as [|d dris Hd0 H IH]; intros i; simpl.
  - destruct i; constructor.
  - destruct i; constructor; auto.
Qed.

Lemma store_dimension_restriction_dimensions dris :
  forall i dri dri',
    nth_error dris i = Some dri ->
    dimension dri' = dimension dri ->
    map dimension (store_dimension_restriction dris i dri')
    = map dimension dris.
Proof.
  induction dris as [|d dris IH]; intros i dri dri' Hn Hd; simpl.
  - now destruct i.
  - destruct i; simpl in *.
    + injection Hn as ->. now rewrite Hd.
    + f_equal. eapply IH; eassumption.
Qed.

(** The invariant of ingestion: a clause that holds of the row leaves
    restrictions that let the row through. *)
Lemma add_restriction_keeps_row ht hri r row :
  Forall partitioned_by (dimensions (space ht)) ->
  holds row r ->
  ~ empty_conjunction_on_closed (space ht) r ->
  keeps_row ht hri row ->
  keeps_row ht (add_restriction hri r) row.
Proof.
  intros Hp Hholds Hguard [Hdims Hall]. unfold add_restriction.
  destruct (hypertable_restrict_info_get hri (on_column r)) as [[i dri]|] eqn:G;
    [|split; assumption].
  pose proof (hypertable_restrict_info_get_nth _ _ _ _ G) as Hnth.
  pose proof (find_dimension_restriction_attno _ _ _ _ _ G) as Hattno.
  assert (In dri (dimension_restriction hri)) as Hin
    by (eapply nth_error_In, Hnth).
  assert (In (dimension dri) (dimensions (space ht))) as Hd
    by (rewrite <- Hdims; now apply in_map).
  rewrite Forall_forall in Hall, Hp.
  destruct (Hall dri Hin) as [Hk Ha].
  unfold restrict_dimension.
  pose proof (dimension_restrict_info_add_dimension dri (by_strategy r)
                (with_values r)) as D.
  pose proof (dimension_restrict_info_add_kind dri (by_strategy r)
                (with_values r) Hk) as K.
  pose proof (dimension_restrict_info_add_passes dri (by_strategy r)
                (with_values r) row Hk (Hp _ Hd)) as A.
  destruct (dimension_restrict_info_add dri (by_strategy r) (with_values r))
    as [dri' added].
  simpl in D, K, A.
  assert (keeps_row ht
            {| num_base_restrictions := num_base_restrictions hri;
               dimension_restriction :=
                 store_dimension_restriction
                   (dimension_restriction hri) i dri' |} row) as R.
  { split; simpl.
    - rewrite <- Hdims. eapply store_dimension_restriction_dimensions;
        eassumption.
    - apply store_dimension_restriction_Forall;
        [now apply Forall_forall|].
      split; [exact K|]. apply A; [| |exact Ha].
      + unfold holds in Hholds. now rewrite Hattno.
      + intros Hc Hs Hor Hv. apply Hguard. unfold empty_conjunction_on_closed.
        split; [exists (dimension dri); auto|]. auto. }
  destruct added; exact R.
Qed.

Lemma add_restrictions_keep_row ht row restrictions :
  Forall partitioned_by (dimensions (space ht)) ->
  Forall (holds row) restrictions ->
  Forall (fun r => ~ empty_conjunction_on_closed (space ht) r) restrictions ->
  forall hri,
    keeps_row ht hri row ->
    keeps_row ht (fold_left add_restriction restrictions hri) row.
Proof.
  intros Hp Hholds. induction Hholds as [|r rs Hr _ IH]; intros Hguard hri H.
  - exact H.
  - simpl. apply IH; [now apply Forall_inv_tail in Hguard|].
    apply add_restriction_keeps_row; try assumption.
    now apply Forall_inv in Hguard.
Qed.

Lemma create_dimension_restrictions_keep_row uninit row ds :
  forall i dris,
    create_dimension_restrictions uninit i ds = Some dris ->
    map dimension dris = ds
    /\ Forall (fun dri => kind_matches dri /\ passes dri row) dris.
Proof.
  induction ds as [|d ds IH]; intros i dris H; simpl in H.
  - injection H as <-. split; constructor.
  - destruct (dimension_restrict_info_create d _ _) as [dri|] eqn:E;
      [|discriminate].
    destruct (create_dimension_restrictions uninit (S i) ds) as [rest|] eqn:Er;
      [|discriminate].
    injection H as <-. destruct (IH _ _ Er) as [Hm Hf].
    unfold dimension_restrict_info_create in E.
    destruct (type d) eqn:T; try discriminate; injection E as <-; simpl.
    + split; [now rewrite Hm|]. constructor; [|exact Hf].
      split; [exact T|]. split; now left.
    + split; [now rewrite Hm|]. constructor; [|exact Hf].
      split; [exact T|]. intros Hs. discriminate Hs.
Qed.

(** Fresh restrictions let every row through. *)
Lemma hypertable_restrict_info_create_keeps_row uninit ht hri row :
  hypertable_restrict_info_create uninit ht = Some hri ->
  keeps_row ht hri row.
Proof.
  unfold hypertable_restrict_info_create. intros H.
  destruct (create_dimension_restrictions uninit 0 (dimensions (space ht)))
    as [dris|] eqn:E; [|discriminate].
  injection H as <-. unfold keeps_row. simpl.
  eapply create_dimension_restrictions_keep_row, E.
Qed.

End SoundIngestion.

Section SliceVectors.

Lemma slice_in_vec_In dv s : In s dv -> slice_in_vec dv s = true.
Proof.
  intros H. unfold slice_in_vec. apply existsb_exists.
  exists s. split; [assumption | apply Z.eqb_refl].
Qed.

Lemma slice_in_vec_app dv dv' s :
  slice_in_vec (dv ++ dv') s = slice_in_vec dv s || slice_in_vec dv' s.
Proof. unfold slice_in_vec. apply existsb_app. Qed.

Lemma add_unique_slice_keeps vec t s :
  slice_in_vec vec s = true ->
  slice_in_vec (dimension_vec_add_unique_slice vec t) s = true.
Proof.
  intros H. unfold dimension_vec_add_unique_slice.
  destruct (existsb _ vec); [assumption|].
  rewrite slice_in_vec_app, H. reflexivity.
Qed.

Lemma add_unique_slice_adds vec s :
  slice_in_vec (dimension_vec_add_unique_slice vec s) s = true.
Proof.
  unfold dimension_vec_add_unique_slice.
  destruct (existsb _ vec) eqn:E; [exact E|].
  rewrite slice_in_vec_app. simpl. rewrite Z.eqb_refl. apply orb_true_r.
Qed.

Lemma add_unique_slices_keep tmp s :
  forall vec,
    slice_in_vec vec s = true ->
    slice_in_vec (fold_left dimension_vec_add_unique_slice tmp vec) s = true.
Proof.
  induction tmp as [|t tmp IH]; intros vec H; simpl; [assumption|].
  now apply IH, add_unique_slice_keeps.
Qed.

Lemma add_unique_slices_add tmp s :
  In s tmp ->
  forall vec,
    slice_in_vec (fold_left dimension_vec_add_unique_slice tmp vec) s = true.
Proof.
  induction tmp as [|t tmp IH]; intros Hin vec; simpl; [contradiction|].
  destruct Hin as [-> | Hin].
  - apply add_unique_slices_keep, add_unique_slice_adds.
  - now apply IH.
Qed.

Lemma slice_in_vec_num_slices dv s :
  slice_in_vec dv s = true -> num_slices dv <> 0.
Proof.
  destruct dv; [discriminate|]. intros _. unfold num_slices. simpl. lia.
Qed.

End SliceVectors.

Section SoundResolution.

Context {ext : Collaborators} {lookup : ChunkLookup} {rows : Rows}.

Variable stored : list DimensionSlice.
Variable chunks : list Chunk.

(** The catalog functions answer from the stored slices and chunks. *)
Hypothesis scan_stored :
  forall id s1 v1 s2 v2 limit,
    dimension_slice_scan_range_limit id s1 v1 s2 v2 limit
    = scan_slices stored id s1 v1 s2 v2 limit.

Hypothesis find_stored :
  forall hs dimension_vecs lockmode,
    chunk_find_all_oids hs dimension_vecs lockmode
    = find_chunks chunks hs dimension_vecs lockmode.

Lemma scan_slices_In id s1 v1 s2 v2 limit s :
  In s (scan_slices stored id s1 v1 s2 v2 limit)
  <-> In s stored
      /\ slice_dimension_id s = id
      /\ strategy_test s1 (range_start s) v1 = true
      /\ strategy_test s2 (range_end s) v2 = true.
Proof.
  unfold scan_slices. rewrite filter_In, !andb_true_iff, Z.eqb_eq. tauto.
Qed.

(** The range lookup of an open dimension finds the slice that takes a
    row the bounds let through. *)
Lemma open_slices_keep o row s :
  In s stored ->
  slice_holds (open_dimension o) row s ->
  open_passes o (coordinate (open_dimension o) row) ->
  In s (dimension_restrict_info_open_slices o).
Proof.
  intros Hs [Hid Hrange] [HU HL].
  unfold dimension_restrict_info_open_slices.
  rewrite scan_stored, scan_slices_In.
  split; [assumption|]. split; [assumption|]. split.
  - destruct HU as [-> | [[-> H] | [-> H]]].
    + reflexivity.
    + apply strategy_test_less. lia.
    + apply strategy_test_less_equal. lia.
  - destruct HL as [-> | [[-> H] | [-> H]]].
    + reflexivity.
    + apply strategy_test_greater. lia.
    + apply strategy_test_greater_equal. lia.
Qed.

Lemma closed_slices_fold_keep id (ps : list Z) s :
  forall vec,
    slice_in_vec vec s = true ->
    slice_in_vec
      (fold_left
         (fun dim_vec partition =>
            fold_left dimension_vec_add_unique_slice
              (dimension_slice_scan_range_limit id
                 BTLessEqualStrategyNumber partition
                 BTGreaterEqualStrategyNumber partition 0)
              dim_vec)
         ps vec) s = true.
Proof.
  induction ps as [|p ps IH]; intros vec H; simpl; [assumption|].
  now apply IH, add_unique_slices_keep.
Qed.

(** The per-partition lookups of a closed dimension find the slice that
    takes a row the partition set lets through. *)
Lemma closed_slices_keep c row s :
  In s stored ->
  slice_holds (closed_dimension c) row s ->
  closed_passes c (coordinate (closed_dimension c) row) ->
  slice_in_vec (dimension_restrict_info_closed_slices c) s = true.
Proof.
  intros Hs [Hid Hrange] Hc.
  unfold dimension_restrict_info_closed_slices.
  destruct (closed_strategy c =? BTEqualStrategyNumber) eqn:E.
  - apply Z.eqb_eq in E. specialize (Hc E).
    generalize (dimension_vec_create DIMENSION_VEC_DEFAULT_SIZE).
    induction (partitions c) as [|p ps IH]; intros vec; [contradiction|].
    simpl. destruct Hc as [-> | Hc].
    + apply closed_slices_fold_keep, add_unique_slices_add.
      rewrite scan_stored, scan_slices_In.
      split; [assumption|]. split; [assumption|]. split.
      * apply strategy_test_less_equal. lia.
      * apply strategy_test_greater_equal. lia.
    + now apply IH.
  - apply slice_in_vec_In. rewrite scan_stored, scan_slices_In. tauto.
Qed.

Lemma slices_keep dri row s :
  In s stored ->
  slice_holds (dimension dri) row s ->
  passes dri row ->
  slice_in_vec (dimension_restrict_info_slices dri) s = true.
Proof.
  destruct dri as [o | c]; simpl; intros Hs Hh Ha.
  - now apply slice_in_vec_In, (open_slices_keep o row s).
  - now apply (closed_slices_keep c row s).
Qed.

Lemma get_chunk_oids_loop_all dris slices :
  Forall2 (fun dri s =>
             slice_in_vec (dimension_restrict_info_slices dri) s = true)
          dris slices ->
  forall i dimension_vecs,
    get_chunk_oids_loop dris i dimension_vecs
    = Exit_all_dimensions
        (dimension_vecs ++ map dimension_restrict_info_slices dris).
Proof.
  induction 1 as [|dri s dris slices H _ IH]; intros i dvs; simpl.
  - now rewrite app_nil_r.
  - apply slice_in_vec_num_slices, Z.eqb_neq in H. rewrite H, IH.
    unfold lappend. now rewrite <- app_assoc.
Qed.

Lemma slices_in_vecs_all dris slices :
  Forall2 (fun dri s =>
             slice_in_vec (dimension_restrict_info_slices dri) s = true)
          dris slices ->
  slices_in_vecs slices (map dimension_restrict_info_slices dris) = true.
Proof.
  induction 1 as [|dri s dris slices H _ IH]; simpl; [reflexivity|].
  now rewrite H, IH.
Qed.

(** Restrictions that let a row through resolve to a chunk set with the
    chunk that holds the row. *)
Lemma get_chunk_oids_keeps_row ht hri row c lockmode :
  keeps_row ht hri row ->
  In c chunks ->
  Forall (fun s => In s stored) (chunk_slices c) ->
  chunk_holds (space ht) c row ->
  In (table_id c) (hypertable_restrict_info_get_chunk_oids hri ht lockmode).
Proof.
  intros [Hdims Hall] Hc Hstored Hholds.
  unfold chunk_holds in Hholds. rewrite <- Hdims in Hholds.
  assert (Forall2 (fun dri s =>
                     slice_in_vec (dimension_restrict_info_slices dri) s = true)
                  (dimension_restriction hri) (chunk_slices c)) as H.
  { clear Hdims Hc. revert Hall Hstored Hholds.
    generalize (chunk_slices c).
    induction (dimension_restriction hri) as [|dri dris IH];
      intros slices Hall Hstored Hholds; simpl in Hholds;
      inversion Hholds; subst; constructor.
    - apply (slices_keep dri row); [now apply Forall_inv in Hstored | assumption|].
      now apply Forall_inv in Hall.
    - apply IH; [now apply Forall_inv_tail in Hall
                | now apply Forall_inv_tail in Hstored | assumption]. }
  unfold hypertable_restrict_info_get_chunk_oids.
  rewrite (get_chunk_oids_loop_all _ _ H). simpl app.
  rewrite find_stored. unfold find_chunks.
  apply in_map, filter_In. split; [assumption|].
  now apply slices_in_vecs_all.
Qed.

End SoundResolution.

Section ClassifiedClauses.

Context {ext : Collaborators} {pl : Planner}.

(** A clause either leaves the restrictions as they are or acts as one
    classified restriction. *)
Lemma add_restrict_info_classified hri ri hri' :
  hypertable_restrict_info_add_restrict_info hri ri = Some hri' ->
  hri' = hri \/ exists r, hri' = add_restriction hri r.
Proof.
  unfold hypertable_restrict_info_add_restrict_info. intros H.
  destruct (contain_mutable_functions (clause ri));
    [left; congruence|].
  match type of H with
  | match ?e with _ => _ end = _ => destruct e as [[hri1 added]|] eqn:E
  end; [|discriminate].
  assert (restricted_from hri (hri1, added)) as R.
  { destruct (clause ri); try (left; congruence);
      eapply add_expr_restricted; eassumption. }
  injection H as <-.
  destruct R as [R | (attno & i & dri & strategy & dimValues & G & R)].
  - injection R as -> ->. now left.
  - right.
    exists {| on_column := attno; by_strategy := strategy;
              with_values := dimValues |}.
    unfold add_restriction. simpl. rewrite G, <- R. reflexivity.
Qed.

(** The clauses of a query act as a list of classified restrictions. *)
Lemma hypertable_restrict_info_add_classified base_restrict_infos :
  forall hri hri',
    hypertable_restrict_info_add hri base_restrict_infos = Some hri' ->
    exists restrictions,
      (length restrictions <= length base_restrict_infos)%nat
      /\ hri' = fold_left add_restriction restrictions hri.
Proof.
  induction base_restrict_infos as [|ri rest IH]; intros hri hri' H;
    simpl in H.
  - injection H as <-. exists []. split; [simpl; lia | reflexivity].
  - destruct (hypertable_restrict_info_add_restrict_info hri ri)
      as [hri1|] eqn:E; [|discriminate].
    destruct (IH _ _ H) as (rs & Hlen & ->).
    destruct (add_restrict_info_classified _ _ _ E) as [-> | [r ->]].
    + exists rs. split; [simpl; lia | reflexivity].
    + exists (r :: rs). split; [simpl; lia | reflexivity].
Qed.

End ClassifiedClauses.

Section GuardedSoundness.

Context {ext : Collaborators} {lookup : ChunkLookup} {rows : Rows}.

(** X24: soundness of pruning, short of the conjunction over no value: let the
    catalog functions answer from stored slices and chunks, and let the
    dimensions file the rows as their columns compare.  Then, for
    restrictions added to fresh accumulators, none of them an equality
    conjunction over no value on a closed dimension, the resolved chunk
    set has every stored chunk that holds a row of which all the
    restrictions hold. *)
Theorem pruning_keeps_matching_chunks :
  forall (stored : list DimensionSlice) (chunks : list Chunk)
         (uninit : nat -> Z * Z) (ht : Hypertable)
         (hri : HypertableRestrictInfo) (restrictions : list Restriction)
         (row : Row) (c : Chunk) (lockmode : LOCKMODE),
    (forall id s1 v1 s2 v2 limit,
        dimension_slice_scan_range_limit id s1 v1 s2 v2 limit
        = scan_slices stored id s1 v1 s2 v2 limit) ->
    (forall hs dimension_vecs lockmode,
        chunk_find_all_oids hs dimension_vecs lockmode
        = find_chunks chunks hs dimension_vecs lockmode) ->
    Forall partitioned_by (dimensions (space ht)) ->
    hypertable_restrict_info_create uninit ht = Some hri ->
    Forall (holds row) restrictions ->
    Forall (fun r => ~ empty_conjunction_on_closed (space ht) r)
           restrictions ->
    In c chunks ->
    Forall (fun s => In s stored) (chunk_slices c) ->
    chunk_holds (space ht) c row ->
    In (table_id c)
       (hypertable_restrict_info_get_chunk_oids
          (fold_left add_restriction restrictions hri) ht lockmode).
Proof.
  intros stored chunks uninit ht hri restrictions row c lockmode
         Hscan Hfind Hp Hcreate Hholds Hguard Hc Hstored Hrow.
  apply (get_chunk_oids_keeps_row stored chunks Hscan Hfind ht _ row);
    try assumption.
  apply add_restrictions_keep_row; try assumption.
  eapply hypertable_restrict_info_create_keeps_row, Hcreate.
Qed.

End GuardedSoundness.

(** * The claims on the readings table *)

(** On an accumulator that holds [0 <= time < 300]: [time >= 100],
    [time < 200], [time IN (1000, 2000)], which is turned down, and
    [time = ALL (500, 150)], which leaves the bounds of 150.  The interval
    ends as [150 <= time <= 150], within [0 <= time < 300]. *)
Lemma conjunctive_clauses_never_widen_readings :
  adds_in_bounds
    (Readings.open_at 0 BTGreaterEqualStrategyNumber 300 BTLessStrategyNumber)
    [ (BTGreaterEqualStrategyNumber, Readings.ints false [100]);
      (BTLessStrategyNumber, Readings.ints false [200]);
      (BTEqualStrategyNumber, Readings.ints true [1000; 2000]);
      (BTEqualStrategyNumber, Readings.ints false [500; 150]) ]
  /\ open_add_all
       (Readings.open_at 0 BTGreaterEqualStrategyNumber
          300 BTLessStrategyNumber)
       [ (BTGreaterEqualStrategyNumber, Readings.ints false [100]);
         (BTLessStrategyNumber, Readings.ints false [200]);
         (BTEqualStrategyNumber, Readings.ints true [1000; 2000]);
         (BTEqualStrategyNumber, Readings.ints false [500; 150]) ]
     = Readings.open_at 150 BTGreaterEqualStrategyNumber
         150 BTLessEqualStrategyNumber
  /\ not_wider
       (Readings.open_at 0 BTGreaterEqualStrategyNumber
          300 BTLessStrategyNumber)
       (open_add_all
          (Readings.open_at 0 BTGreaterEqualStrategyNumber
             300 BTLessStrategyNumber)
          [ (BTGreaterEqualStrategyNumber, Readings.ints false [100]);
            (BTLessStrategyNumber, Readings.ints false [200]);
            (BTEqualStrategyNumber, Readings.ints true [1000; 2000]);
            (BTEqualStrategyNumber, Readings.ints false [500; 150]) ])
  /\ forall x : Z,
       open_passes
         (open_add_all
            (Readings.open_at 0 BTGreaterEqualStrategyNumber
               300 BTLessStrategyNumber)
            [ (BTGreaterEqualStrategyNumber, Readings.ints false [100]);
              (BTLessStrategyNumber, Readings.ints false [200]);
              (BTEqualStrategyNumber, Readings.ints true [1000; 2000]);
              (BTEqualStrategyNumber, Readings.ints false [500; 150]) ]) x ->
       open_passes
         (Readings.open_at 0 BTGreaterEqualStrategyNumber
            300 BTLessStrategyNumber) x.
Proof.
  assert (adds_in_bounds
            (Readings.open_at 0 BTGreaterEqualStrategyNumber
               300 BTLessStrategyNumber)
            [ (BTGreaterEqualStrategyNumber, Readings.ints false [100]);
              (BTLessStrategyNumber, Readings.ints false [200]);
              (BTEqualStrategyNumber, Readings.ints true [1000; 2000]);
              (BTEqualStrategyNumber, Readings.ints false [500; 150]) ]) as H.
  { refine (conj _ (conj _ (conj _ (conj _ I))));
      intros Hs Hr vals datum Hv;
      try discriminate Hs; try discriminate Hr.
    change ([Readings.Int 500] ++ [Readings.Int 150] = vals ++ [datum])
      in Hv.
    apply app_inj_tail in Hv. destruct Hv as [_ <-].
    split; right; left; reflexivity. }
  assert (open_strategies_valid
            (Readings.open_at 0 BTGreaterEqualStrategyNumber
               300 BTLessStrategyNumber)) as V.
  { split; right; [left | right]; reflexivity. }
  pose proof
    (proj2 (conjunctive_clauses_never_widen _ _) H [] _ eq_refl)
    as [N P].
  exact (conj H (conj eq_refl (conj N (P V)))).
Defined.

(** C5 as stated fails: on a fresh accumulator [time < 3] sets the upper
    bound to 3, and the next clause, [time = 5], moves it up to 5, so that
    time 5 is let through where it was not. *)
Lemma equality_clause_raises_upper_bound :
  upper_bound
    (open_add_all (dimension_restrict_info_open_create Readings.time 0 0)
       [ (BTLessStrategyNumber, Readings.ints false [3]) ]) = 3
  /\ upper_bound
       (open_add_all (dimension_restrict_info_open_create Readings.time 0 0)
          [ (BTLessStrategyNumber, Readings.ints false [3]);
            (BTEqualStrategyNumber, Readings.ints false [5]) ]) = 5
  /\ upper_strategy
       (open_add_all (dimension_restrict_info_open_create Readings.time 0 0)
          [ (BTLessStrategyNumber, Readings.ints false [3]) ])
     = BTLessStrategyNumber
  /\ upper_strategy
       (open_add_all (dimension_restrict_info_open_create Readings.time 0 0)
          [ (BTLessStrategyNumber, Readings.ints false [3]);
            (BTEqualStrategyNumber, Readings.ints false [5]) ])
     = BTLessEqualStrategyNumber
  /\ ~ not_wider
         (open_add_all (dimension_restrict_info_open_create Readings.time 0 0)
            [ (BTLessStrategyNumber, Readings.ints false [3]) ])
         (open_add_all (dimension_restrict_info_open_create Readings.time 0 0)
            [ (BTLessStrategyNumber, Readings.ints false [3]);
              (BTEqualStrategyNumber, Readings.ints false [5]) ])
  /\ ~ open_passes
         (open_add_all (dimension_restrict_info_open_create Readings.time 0 0)
            [ (BTLessStrategyNumber, Readings.ints false [3]) ]) 5
  /\ open_passes
       (open_add_all (dimension_restrict_info_open_create Readings.time 0 0)
          [ (BTLessStrategyNumber, Readings.ints false [3]);
            (BTEqualStrategyNumber, Readings.ints false [5]) ]) 5.
Proof.
  split; [reflexivity|]. split; [reflexivity|].
  split; [reflexivity|]. split; [reflexivity|].
  split; [|split].
  - intros [[U | [_ [U | [U _]]]] _].
    + discriminate U.
    + simpl in U. lia.
    + discriminate U.
  - intros [[U | [[_ U] | [U _]]] _].
    + discriminate U.
    + simpl in U. lia.
    + discriminate U.
  - split; right; right; (split; [reflexivity | simpl; lia]).
Qed.

(** [time IN (1, 2)] is turned down. *)
Lemma open_add_rejects_disjunction_readings :
  use_or (Readings.ints true [1; 2]) = true
  /\ (1 < length (values (Readings.ints true [1; 2]%Z)))%nat
  /\ dimension_restrict_info_open_add (Readings.open_at 0 0 0 0)
       BTEqualStrategyNumber (Readings.ints true [1; 2])
     = (Readings.open_at 0 0 0 0, false).
Proof.
  split; [reflexivity|]. split; [simpl; lia|].
  apply open_add_rejects_disjunction; [reflexivity | simpl; lia].
Defined.

(** An explicitly empty device accumulator through [device IN (1, 2)] and
    [device = 3]. *)
Lemma explicitly_empty_stays_empty_readings :
  explicitly_empty (Readings.closed_at [] BTEqualStrategyNumber)
  /\ explicitly_empty
       (closed_add_all (Readings.closed_at [] BTEqualStrategyNumber)
          [ (BTEqualStrategyNumber, Readings.ints true [1; 2]);
            (BTEqualStrategyNumber, Readings.ints false [3]) ])
  /\ dimension_restrict_info_closed_slices
       (closed_add_all (Readings.closed_at [] BTEqualStrategyNumber)
          [ (BTEqualStrategyNumber, Readings.ints true [1; 2]);
            (BTEqualStrategyNumber, Readings.ints false [3]) ]) = [].
Proof.
  split; [split; reflexivity|].
  apply explicitly_empty_stays_empty. split; reflexivity.
Defined.

(** [device IN (2, 3)] and [device = 2], in both orders. *)
Lemma closed_add_order_independent_readings :
  Permutation
    [ (BTEqualStrategyNumber, Readings.ints true [2; 3]);
      (BTEqualStrategyNumber, Readings.ints false [2]) ]
    [ (BTEqualStrategyNumber, Readings.ints false [2]);
      (BTEqualStrategyNumber, Readings.ints true [2; 3]) ]
  /\ same_partition_set
       (closed_add_all (Readings.closed_at [] InvalidStrategy)
          [ (BTEqualStrategyNumber, Readings.ints true [2; 3]);
            (BTEqualStrategyNumber, Readings.ints false [2]) ])
       (closed_add_all (Readings.closed_at [] InvalidStrategy)
          [ (BTEqualStrategyNumber, Readings.ints false [2]);
            (BTEqualStrategyNumber, Readings.ints true [2; 3]) ]).
Proof.
  split; [apply perm_swap|].
  apply closed_add_order_independent, perm_swap.
Defined.

(** [device < 3] tells nothing about the partition. *)
Lemma closed_add_rejects_other_strategies_readings :
  BTLessStrategyNumber <> BTEqualStrategyNumber
  /\ dimension_restrict_info_closed_add (Readings.closed_at [2] BTEqualStrategyNumber)
       BTLessStrategyNumber (Readings.ints false [3])
     = (Readings.closed_at [2] BTEqualStrategyNumber, false).
Proof.
  split; [discriminate|].
  apply closed_add_rejects_other_strategies. discriminate.
Defined.

(** [time >= 500] finds no slice, so the device dimension is not asked. *)
Lemma get_chunk_oids_short_circuit_readings :
  dimension_restriction
    {| num_base_restrictions := 1;
       dimension_restriction :=
         [ DRI_Open (Readings.open_at 500 BTGreaterEqualStrategyNumber 0 0);
           DRI_Closed (Readings.closed_at [] InvalidStrategy) ] |}
  = [] ++ DRI_Open (Readings.open_at 500 BTGreaterEqualStrategyNumber 0 0)
          :: [DRI_Closed (Readings.closed_at [] InvalidStrategy)]
  /\ num_slices
       (dimension_restrict_info_slices
          (DRI_Open (Readings.open_at 500 BTGreaterEqualStrategyNumber 0 0)))
     = 0
  /\ hypertable_restrict_info_get_chunk_oids (lookup := Readings.lookup)
       {| num_base_restrictions := 1;
          dimension_restriction :=
            [ DRI_Open (Readings.open_at 500 BTGreaterEqualStrategyNumber 0 0);
              DRI_Closed (Readings.closed_at [] InvalidStrategy) ] |}
       Readings.ht 0
     = [].
Proof.
  split; [reflexivity|]. split; [reflexivity|].
  apply (get_chunk_oids_short_circuit (lookup := Readings.lookup)
           _ Readings.ht 0 []
           (DRI_Open (Readings.open_at 500 BTGreaterEqualStrategyNumber 0 0))
           [DRI_Closed (Readings.closed_at [] InvalidStrategy)]);
    reflexivity.
Defined.

(** [device = ALL (2, 3)] on a device accumulator that held partition 2,
    followed by [time < 50]. *)
Lemma conjunctive_equality_contradiction_readings :
  use_or (Readings.ints false [2; 3]) = false
  /\ In (Readings.Int 2) (values (Readings.ints false [2; 3]))
  /\ In (Readings.Int 3) (values (Readings.ints false [2; 3]))
  /\ partitioning_func_apply
       (partitioning
          (closed_dimension (Readings.closed_at [2] BTEqualStrategyNumber)))
       (Readings.Int 2)
     <> partitioning_func_apply
          (partitioning
             (closed_dimension (Readings.closed_at [2] BTEqualStrategyNumber)))
          (Readings.Int 3)
  /\ dimension_restrict_info_closed_add
       (Readings.closed_at [2] BTEqualStrategyNumber)
       BTEqualStrategyNumber (Readings.ints false [2; 3])
     = (Readings.closed_at [] BTEqualStrategyNumber, true)
  /\ hypertable_restrict_info_add (pl := Readings.planner)
       (Readings.restrictions 2 (Readings.open_at 0 0 0 0)
          (Readings.closed_at [] BTEqualStrategyNumber))
       [Readings.compare 1 1 50]
     = Some (Readings.restrictions 3
               (Readings.open_at 0 0 50 BTLessStrategyNumber)
               (Readings.closed_at [] BTEqualStrategyNumber))
  /\ hypertable_restrict_info_get_chunk_oids (lookup := Readings.lookup)
       (Readings.restrictions 3
          (Readings.open_at 0 0 50 BTLessStrategyNumber)
          (Readings.closed_at [] BTEqualStrategyNumber))
       Readings.ht 0
     = [].
Proof.
  assert (partitioning_func_apply
            (partitioning
               (closed_dimension (Readings.closed_at [2] BTEqualStrategyNumber)))
            (Readings.Int 2)
          <> partitioning_func_apply
               (partitioning
                  (closed_dimension
                     (Readings.closed_at [2] BTEqualStrategyNumber)))
               (Readings.Int 3)) as Hne by (intros H; discriminate H).
  pose proof
    (conjunctive_equality_contradiction
       (pl := Readings.planner) (lookup := Readings.lookup)
       (Readings.closed_at [2] BTEqualStrategyNumber)
       (Readings.ints false [2; 3]) (Readings.Int 2) (Readings.Int 3)
       eq_refl (or_introl eq_refl) (or_intror (or_introl eq_refl)) Hne)
    as [Hadd Hquery].
  refine (conj eq_refl (conj _ (conj _ (conj Hne (conj Hadd (conj eq_refl _)))))).
  - left. reflexivity.
  - right. left. reflexivity.
  - apply (Hquery
             (Readings.restrictions 2 (Readings.open_at 0 0 0 0)
                (Readings.closed_at [] BTEqualStrategyNumber))
             [Readings.compare 1 1 50]).
    + right. left. reflexivity.
    + reflexivity.
Defined.

(** [device = ANY ('{NULL}')] as the first clause on the device column. *)
Lemma first_equality_clause_without_values_readings :
  closed_strategy (Readings.closed_at [] InvalidStrategy) = InvalidStrategy
  /\ values (Readings.ints true []) = []
  /\ dimension_restrict_info_closed_add
       (Readings.closed_at [] InvalidStrategy)
       BTEqualStrategyNumber (Readings.ints true [])
     = (Readings.closed_at [] BTEqualStrategyNumber, true)
  /\ hypertable_restrict_info_add (pl := Readings.planner)
       (Readings.restrictions 0 (Readings.open_at 0 0 0 0)
          (Readings.closed_at [] InvalidStrategy))
       [Readings.compare_array 2 3 true [None]]
     = Some (Readings.restrictions 1 (Readings.open_at 0 0 0 0)
               (Readings.closed_at [] BTEqualStrategyNumber))
  /\ hypertable_restrict_info_get_chunk_oids (lookup := Readings.lookup)
       (Readings.restrictions 1 (Readings.open_at 0 0 0 0)
          (Readings.closed_at [] BTEqualStrategyNumber))
       Readings.ht 0
     = [].
Proof.
  pose proof
    (first_equality_clause_without_values
       (pl := Readings.planner) (lookup := Readings.lookup)
       (Readings.closed_at [] InvalidStrategy) (Readings.ints true [])
       eq_refl eq_refl)
    as (Hadd & _ & Hquery & _).
  refine (conj eq_refl (conj eq_refl (conj Hadd (conj eq_refl _)))).
  apply (Hquery
           (Readings.restrictions 1 (Readings.open_at 0 0 0 0)
              (Readings.closed_at [] BTEqualStrategyNumber)) []).
  - right. left. reflexivity.
  - reflexivity.
Defined.

(** The readings table files its rows as the columns compare. *)
Lemma readings_partitioned :
  Forall (partitioned_by (rows := Readings.rows))
         (dimensions (space Readings.ht)).
Proof.
  repeat constructor.
  - intros row strategy v ty (z & -> & H). exact H.
  - intros row v ty (z & -> & H). apply Z.eqb_eq in H.
    simpl in *. now rewrite H.
Defined.

(** [time >= 0 AND time < 50 AND device IN (1, 5)] keeps chunk 101, which
    holds the reading of device 1 at time 10. *)
Lemma pruning_keeps_matching_chunks_readings :
  Forall (holds (rows := Readings.rows) (10, 1)) Readings.query
  /\ Forall (fun r => ~ empty_conjunction_on_closed (space Readings.ht) r)
            Readings.query
  /\ chunk_holds (rows := Readings.rows) (space Readings.ht)
       Readings.chunk_101 (10, 1)
  /\ In (table_id Readings.chunk_101)
        (hypertable_restrict_info_get_chunk_oids (lookup := Readings.lookup)
           (fold_left add_restriction Readings.query
              (Readings.restrictions 0 (Readings.open_at 0 0 0 0)
                 (Readings.closed_at [] InvalidStrategy)))
           Readings.ht 0).
Proof.
  assert (Forall (holds (rows := Readings.rows) (10, 1)) Readings.query) as Hh.
  { apply Forall_cons; [|apply Forall_cons; [|apply Forall_cons; [|constructor]]].
    - apply Forall_cons; [|constructor]. exists 0. split; reflexivity.
    - apply Forall_cons; [|constructor]. exists 50. split; reflexivity.
    - apply Exists_cons_hd. exists 1. split; reflexivity. }
  assert (Forall (fun r => ~ empty_conjunction_on_closed (space Readings.ht) r)
                 Readings.query) as Hg.
  { repeat constructor; intros (_ & _ & _ & H); discriminate H. }
  assert (chunk_holds (rows := Readings.rows) (space Readings.ht)
            Readings.chunk_101 (10, 1)) as Hc.
  { repeat constructor; vm_compute; congruence. }
  refine (conj Hh (conj Hg (conj Hc _))).
  apply (pruning_keeps_matching_chunks
           (lookup := Readings.lookup) (rows := Readings.rows)
           (Readings.time_slices ++ Readings.device_slices) Readings.chunks
           (fun _ => (0, 0)) Readings.ht _ Readings.query (10, 1)
           Readings.chunk_101 0
           (fun _ _ _ _ _ _ => eq_refl) (fun _ _ _ => eq_refl)
           readings_partitioned eq_refl Hh Hg).
  - left. reflexivity.
  - repeat constructor; simpl; tauto.
  - exact Hc.
Defined.

(** * Further properties of the accumulators *)

Section OpenAddProperties.

Context {ext : Collaborators}.

Implicit Types (dri : DimensionRestrictInfoOpen) (dimValues : DimensionValues).

Lemma open_add_value_flag strategy ty st datum :
  open_add_value strategy ty st datum = st
  \/ snd (open_add_value strategy ty st datum) = true.
Proof.
  destruct st as [dri added]. unfold open_add_value.
  repeat match goal with |- context [if ?b then _ else _] => destruct b end;
    auto.
Qed.

Lemma open_add_values_flag_kept strategy ty (vals : list Datum) :
  forall st, snd st = true ->
    snd (fold_left (open_add_value strategy ty) vals st) = true.
Proof.
  induction vals as [|v vals IH]; intros st H; simpl; [exact H|].
  apply IH. destruct (open_add_value_flag strategy ty st v) as [-> | E];
    assumption.
Qed.

Lemma open_add_values_flag strategy ty (vals : list Datum) :
  forall st,
    fold_left (open_add_value strategy ty) vals st = st
    \/ snd (fold_left (open_add_value strategy ty) vals st) = true.
Proof.
  induction vals as [|v vals IH]; intros st; simpl; [now left|].
  destruct (open_add_value_flag strategy ty st v) as [E | E].
  - rewrite E. apply IH.
  - right. now apply open_add_values_flag_kept.
Qed.

(** X1: [dimension_restrict_info_open_add] never changes the accumulator
    behind the caller's back: either it reports that a restriction was
    added, or it returns false and the accumulator is as it was. *)
Theorem open_add_reports_every_change :
  forall dri (strategy : StrategyNumber) dimValues,
    dimension_restrict_info_open_add dri strategy dimValues = (dri, false)
    \/ snd (dimension_restrict_info_open_add dri strategy dimValues) = true.
Proof.
  intros dri strategy dimValues.
  unfold dimension_restrict_info_open_add.
  destruct (use_or dimValues && _); [now left|].
  apply open_add_values_flag.
Qed.

(** X2: a strategy that is none of the five B-tree strategies falls
    through the [default] case for every value: the call returns false and
    leaves the accumulator as it was. *)
Theorem open_add_ignores_other_strategies :
  forall dri (strategy : StrategyNumber) dimValues,
    strategy <> BTLessStrategyNumber ->
    strategy <> BTLessEqualStrategyNumber ->
    strategy <> BTEqualStrategyNumber ->
    strategy <> BTGreaterEqualStrategyNumber ->
    strategy <> BTGreaterStrategyNumber ->
    dimension_restrict_info_open_add dri strategy dimValues = (dri, false).
Proof.
  intros dri strategy dimValues H1 H2 H3 H4 H5.
  unfold dimension_restrict_info_open_add.
  destruct (use_or dimValues && _); [reflexivity|].
  assert (forall st datum,
            open_add_value strategy (values_type dimValues) st datum = st) as S.
  { intros [o added] datum. unfold open_add_value.
    apply Z.eqb_neq in H1, H2, H3, H4, H5.
    now rewrite H1, H2, H3, H4, H5. }
  generalize (dri, false).
  induction (values dimValues) as [|v vals IH]; intros st; simpl;
    [reflexivity|].
  now rewrite S.
Qed.

Lemma open_add_value_frame strategy ty st datum :
  open_dimension (fst (open_add_value strategy ty st datum))
  = open_dimension (fst st)
  /\ (strategy = BTLessStrategyNumber \/ strategy = BTLessEqualStrategyNumber ->
      lower_bound (fst (open_add_value strategy ty st datum))
      = lower_bound (fst st)
      /\ lower_strategy (fst (open_add_value strategy ty st datum))
         = lower_strategy (fst st))
  /\ (strategy = BTGreaterStrategyNumber
      \/ strategy = BTGreaterEqualStrategyNumber ->
      upper_bound (fst (open_add_value strategy ty st datum))
      = upper_bound (fst st)
      /\ upper_strategy (fst (open_add_value strategy ty st datum))
         = upper_strategy (fst st)).
Proof.
  destruct st as [o added]. unfold open_add_value.
  split; [|split]; intros;
    repeat match goal with
      | H : _ \/ _ |- _ => destruct H; subst
      end;
    simpl;
    repeat match goal with |- context [if ?b then _ else _] => destruct b end;
    simpl; auto.
Qed.

Lemma open_add_values_frame strategy ty (vals : list Datum) :
  forall st,
    open_dimension (fst (fold_left (open_add_value strategy ty) vals st))
    = open_dimension (fst st)
    /\ (strategy = BTLessStrategyNumber
        \/ strategy = BTLessEqualStrategyNumber ->
        lower_bound (fst (fold_left (open_add_value strategy ty) vals st))
        = lower_bound (fst st)
        /\ lower_strategy (fst (fold_left (open_add_value strategy ty) vals st))
           = lower_strategy (fst st))
    /\ (strategy = BTGreaterStrategyNumber
        \/ strategy = BTGreaterEqualStrategyNumber ->
        upper_bound (fst (fold_left (open_add_value strategy ty) vals st))
        = upper_bound (fst st)
        /\ upper_strategy (fst (fold_left (open_add_value strategy ty) vals st))
           = upper_strategy (fst st)).
Proof.
  induction vals as [|v vals IH]; intros st; cbn [fold_left]; [tauto|].
  destruct (IH (open_add_value strategy ty st v)) as (D & L & U).
  destruct (open_add_value_frame strategy ty st v) as (D' & L' & U').
  split; [congruence|]. split; intros H.
  - destruct (L H), (L' H). split; congruence.
  - destruct (U H), (U' H). split; congruence.
Qed.

(** X3: a clause touches one side of the interval only.  With [<] or [<=]
    the lower bound and its strategy stay as they were, with [>] or [>=]
    the upper bound and its strategy do, and the dimension of the
    accumulator is never changed. *)
Theorem open_add_touches_one_side :
  forall dri (strategy : StrategyNumber) dimValues,
    open_dimension (fst (dimension_restrict_info_open_add dri strategy dimValues))
    = open_dimension dri
    /\ (strategy = BTLessStrategyNumber
        \/ strategy = BTLessEqualStrategyNumber ->
        lower_bound
          (fst (dimension_restrict_info_open_add dri strategy dimValues))
        = lower_bound dri
        /\ lower_strategy
             (fst (dimension_restrict_info_open_add dri strategy dimValues))
           = lower_strategy dri)
    /\ (strategy = BTGreaterStrategyNumber
        \/ strategy = BTGreaterEqualStrategyNumber ->
        upper_bound
          (fst (dimension_restrict_info_open_add dri strategy dimValues))
        = upper_bound dri
        /\ upper_strategy
             (fst (dimension_restrict_info_open_add dri strategy dimValues))
           = upper_strategy dri).
Proof.
  intros dri strategy dimValues.
  unfold dimension_restrict_info_open_add.
  destruct (use_or dimValues && _); [simpl; tauto|].
  apply (open_add_values_frame strategy (values_type dimValues)
           (values dimValues) (dri, false)).
Qed.

(** X4: whatever clauses are added to a fresh open accumulator, its upper
    strategy is unset, [<] or [<=] and its lower strategy is unset, [>] or
    [>=]: the resolver never hands the slice scan an upper bound with a
    lower-bound operator or the other way round. *)
Theorem open_accumulator_strategies_stay_valid :
  forall (d : Dimension) (uninit_lower uninit_upper : Z)
         (adds : list (StrategyNumber * DimensionValues)),
    open_strategies_valid
      (open_add_all
         (dimension_restrict_info_open_create d uninit_lower uninit_upper)
         adds).
Proof.
  intros d u1 u2 adds. unfold open_add_all.
  assert (open_strategies_valid
            (dimension_restrict_info_open_create d u1 u2)) as H
    by (split; now left).
  revert H. generalize (dimension_restrict_info_open_create d u1 u2).
  induction adds as [|a adds IH]; intros o H; simpl; [exact H|].
  now apply IH, open_add_valid.
Qed.

(** The upper side of the loop, for a bound that is set. *)
Lemma open_add_values_upper_least strategy ty (vals : list Datum) :
  strategy = BTLessStrategyNumber \/ strategy = BTLessEqualStrategyNumber ->
  forall st,
    upper_strategy (fst st) <> InvalidStrategy ->
    upper_strategy (fst (fold_left (open_add_value strategy ty) vals st))
    <> InvalidStrategy
    /\ least
         (upper_bound (fst st)
          :: map (fun datum => time_value_to_internal datum ty false) vals)
         (upper_bound (fst (fold_left (open_add_value strategy ty) vals st))).
Proof.
  intros Hs. induction vals as [|v vals IH]; intros [o added] Ho;
    cbn [fold_left map].
  - split; [exact Ho|]. split; [now left|]. constructor; [lia | constructor].
  - simpl in Ho.
    assert (upper_strategy
              (fst (open_add_value strategy ty (o, added) v))
            <> InvalidStrategy
            /\ upper_bound (fst (open_add_value strategy ty (o, added) v))
               = Z.min (upper_bound o) (time_value_to_internal v ty false))
      as [Hu Hb].
    { unfold open_add_value.
      destruct Hs as [-> | ->]; simpl;
        apply Z.eqb_neq in Ho; rewrite Ho; simpl;
        destruct (_ <? _) eqn:E; simpl;
        (apply Z.ltb_lt in E || apply Z.ltb_ge in E);
        (split; [try discriminate; now apply Z.eqb_neq | lia]). }
    destruct (IH _ Hu) as (Hu' & Hin & Hall). rewrite Hb in Hin, Hall.
    split; [exact Hu'|]. apply in_inv in Hin. apply Forall_cons_iff in Hall.
    destruct Hall as [Hmin Hall]. cbv beta in Hmin. split.
    + cbn [fst]. destruct Hin as [Hin | Hin]; [|right; now right].
      rewrite <- Hin.
      destruct (Z.min_spec (upper_bound o) (time_value_to_internal v ty false))
        as [[_ ->] | [_ ->]]; [now left | right; now left].
    + cbn [fst]. constructor; [lia|]. constructor; [lia | exact Hall].
Qed.

Lemma open_add_values_upper_strategy strategy ty (vals : list Datum) :
  strategy = BTLessStrategyNumber \/ strategy = BTLessEqualStrategyNumber ->
  forall st,
    upper_strategy (fst st) = strategy ->
    upper_strategy (fst (fold_left (open_add_value strategy ty) vals st))
    = strategy.
Proof.
  intros Hs. induction vals as [|v vals IH]; intros [o added] H;
    cbn [fold_left]; [exact H|].
  apply IH. simpl in H. unfold open_add_value.
  destruct Hs as [-> | ->]; simpl; destruct (_ || _); simpl; auto.
Qed.

(** X5: a conjunctive clause with [<] or [<=] leaves the least upper
    bound on offer.  When an upper bound was set, the new one is the least
    of the old bound and the values of the clause; when none was set and
    the clause has a value, it is the least of the values, and the clause
    gives its strategy. *)
Theorem open_add_keeps_least_upper_bound :
  forall dri (strategy : StrategyNumber) dimValues,
    strategy = BTLessStrategyNumber \/ strategy = BTLessEqualStrategyNumber ->
    conjunctive dimValues ->
    (upper_strategy dri <> InvalidStrategy ->
     least (upper_bound dri :: internal_values dimValues)
           (upper_bound
              (fst (dimension_restrict_info_open_add dri strategy dimValues))))
    /\ (upper_strategy dri = InvalidStrategy ->
        values dimValues <> [] ->
        least (internal_values dimValues)
              (upper_bound
                 (fst (dimension_restrict_info_open_add
                         dri strategy dimValues)))
        /\ upper_strategy
             (fst (dimension_restrict_info_open_add dri strategy dimValues))
           = strategy).
Proof.
  intros dri strategy dimValues Hs Hc.
  unfold dimension_restrict_info_open_add, internal_values.
  assert (use_or dimValues && (list_length (values dimValues) >? 1) = false)
    as ->.
  { destruct Hc as [-> | Hc]; [reflexivity|].
    apply andb_false_iff. right. unfold list_length.
    rewrite Z.gtb_ltb. apply Z.ltb_ge. lia. }
  split.
  - intros Ho.
    apply (open_add_values_upper_least strategy (values_type dimValues)
             (values dimValues) Hs (dri, false) Ho).
  - intros Ho Hv. destruct (values dimValues) as [|v vals]; [congruence|].
    cbn [fold_left map].
    assert (open_add_value strategy (values_type dimValues) (dri, false) v
            = (set_upper dri strategy
                 (time_value_to_internal v (values_type dimValues) false),
               true)) as ->.
    { unfold open_add_value. rewrite Ho. simpl.
      destruct Hs as [-> | ->]; reflexivity. }
    assert (strategy <> InvalidStrategy) as Hne
      by (destruct Hs as [-> | ->]; discriminate).
    split.
    + apply (open_add_values_upper_least strategy (values_type dimValues)
               vals Hs
               (set_upper dri strategy
                  (time_value_to_internal v (values_type dimValues) false),
                true) Hne).
    + now apply open_add_values_upper_strategy.
Qed.

(** The lower side of the loop, for a bound that is set. *)
Lemma open_add_values_lower_greatest strategy ty (vals : list Datum) :
  strategy = BTGreaterStrategyNumber
  \/ strategy = BTGreaterEqualStrategyNumber ->
  forall st,
    lower_strategy (fst st) <> InvalidStrategy ->
    lower_strategy (fst (fold_left (open_add_value strategy ty) vals st))
    <> InvalidStrategy
    /\ greatest
         (lower_bound (fst st)
          :: map (fun datum => time_value_to_internal datum ty false) vals)
         (lower_bound (fst (fold_left (open_add_value strategy ty) vals st))).
Proof.
  intros Hs. induction vals as [|v vals IH]; intros [o added] Ho;
    cbn [fold_left map].
  - split; [exact Ho|]. split; [now left|]. constructor; [lia | constructor].
  - simpl in Ho.
    assert (lower_strategy
              (fst (open_add_value strategy ty (o, added) v))
            <> InvalidStrategy
            /\ lower_bound (fst (open_add_value strategy ty (o, added) v))
               = Z.max (lower_bound o) (time_value_to_internal v ty false))
      as [Hu Hb].
    { unfold open_add_value.
      destruct Hs as [-> | ->]; simpl;
        apply Z.eqb_neq in Ho; rewrite Ho; simpl;
        destruct (_ >? _) eqn:E; simpl;
        rewrite Z.gtb_ltb in E;
        (apply Z.ltb_lt in E || apply Z.ltb_ge in E);
        (split; [try discriminate; now apply Z.eqb_neq | lia]). }
    destruct (IH _ Hu) as (Hu' & Hin & Hall). rewrite Hb in Hin, Hall.
    split; [exact Hu'|]. apply in_inv in Hin. apply Forall_cons_iff in Hall.
    destruct Hall as [Hmax Hall]. cbv beta in Hmax. split.
    + cbn [fst]. destruct Hin as [Hin | Hin]; [|right; now right].
      rewrite <- Hin.
      destruct (Z.max_spec (lower_bound o) (time_value_to_internal v ty false))
        as [[_ ->] | [_ ->]]; [right; now left | now left].
    + cbn [fst]. constructor; [lia|]. constructor; [lia | exact Hall].
Qed.

Lemma open_add_values_lower_strategy strategy ty (vals : list Datum) :
  strategy = BTGreaterStrategyNumber
  \/ strategy = BTGreaterEqualStrategyNumber ->
  forall st,
    lower_strategy (fst st) = strategy ->
    lower_strategy (fst (fold_left (open_add_value strategy ty) vals st))
    = strategy.
Proof.
  intros Hs. induction vals as [|v vals IH]; intros [o added] H;
    cbn [fold_left]; [exact H|].
  apply IH. simpl in H. unfold open_add_value.
  destruct Hs as [-> | ->]; simpl; destruct (_ || _); simpl; auto.
Qed.

(** X6: a conjunctive clause with [>] or [>=] leaves the greatest lower
    bound on offer.  When a lower bound was set, the new one is the
    greatest of the old bound and the values of the clause; when none was
    set and the clause has a value, it is the greatest of the values, and
    the clause gives its strategy. *)
Theorem open_add_keeps_greatest_lower_bound :
  forall dri (strategy : StrategyNumber) dimValues,
    strategy = BTGreaterStrategyNumber
    \/ strategy = BTGreaterEqualStrategyNumber ->
    conjunctive dimValues ->
    (lower_strategy dri <> InvalidStrategy ->
     greatest (lower_bound dri :: internal_values dimValues)
              (lower_bound
                 (fst (dimension_restrict_info_open_add
                         dri strategy dimValues))))
    /\ (lower_strategy dri = InvalidStrategy ->
        values dimValues <> [] ->
        greatest (internal_values dimValues)
                 (lower_bound
                    (fst (dimension_restrict_info_open_add
                            dri strategy dimValues)))
        /\ lower_strategy
             (fst (dimension_restrict_info_open_add dri strategy dimValues))
           = strategy).
Proof.
  intros dri strategy dimValues Hs Hc.
  unfold dimension_restrict_info_open_add, internal_values.
  assert (use_or dimValues && (list_length (values dimValues) >? 1) = false)
    as ->.
  { destruct Hc as [-> | Hc]; [reflexivity|].
    apply andb_false_iff. right. unfold list_length.
    rewrite Z.gtb_ltb. apply Z.ltb_ge. lia. }
  split.
  - intros Ho.
    apply (open_add_values_lower_greatest strategy (values_type dimValues)
             (values dimValues) Hs (dri, false) Ho).
  - intros Ho Hv. destruct (values dimValues) as [|v vals]; [congruence|].
    cbn [fold_left map].
    assert (open_add_value strategy (values_type dimValues) (dri, false) v
            = (set_lower dri strategy
                 (time_value_to_internal v (values_type dimValues) false),
               true)) as ->.
    { unfold open_add_value. rewrite Ho. simpl.
      destruct Hs as [-> | ->]; reflexivity. }
    assert (strategy <> InvalidStrategy) as Hne
      by (destruct Hs as [-> | ->]; discriminate).
    split.
    + apply (open_add_values_lower_greatest strategy (values_type dimValues)
               vals Hs
               (set_lower dri strategy
                  (time_value_to_internal v (values_type dimValues) false),
                true) Hne).
    + now apply open_add_values_lower_strategy.
Qed.

(** X7: [dimension_restrict_info_open_add] never shuts out a value the
    clause holds of.  If [x] is within the bounds of the accumulator and
    the comparison of the clause is true of [x] -- for one of the values
    with combine_as_or, for each of them without -- then [x] is within
    the bounds the call leaves. *)
Theorem open_add_keeps_satisfying_values :
  forall dri (strategy : StrategyNumber) dimValues (x : Z),
    (if use_or dimValues
     then Exists (fun v => strategy_test strategy x v = true)
                 (internal_values dimValues)
     else Forall (fun v => strategy_test strategy x v = true)
                 (internal_values dimValues)) ->
    open_passes dri x ->
    open_passes
      (fst (dimension_restrict_info_open_add dri strategy dimValues)) x.
Proof.
  intros dri strategy dimValues x H Ho.
  apply open_add_passes; [|exact Ho].
  unfold internal_values in H.
  destruct (use_or dimValues);
    [rewrite Exists_map in H | rewrite Forall_map in H]; exact H.
Qed.

End OpenAddProperties.

Section ClosedAddProperties.

Context {ext : Collaborators}.

Implicit Types (dri : DimensionRestrictInfoClosed) (dimValues : DimensionValues).

(** X8: [dimension_restrict_info_closed_add] reports a restriction for
    every equality clause and for no other: with the equality strategy it
    returns true in each of its branches -- also when the intersection
    changes nothing or the accumulator was already empty -- and with any
    other strategy it returns false. *)
Theorem closed_add_counts_equality_clauses :
  forall dri (strategy : StrategyNumber) dimValues,
    snd (dimension_restrict_info_closed_add dri strategy dimValues)
    = (strategy =? BTEqualStrategyNumber).
Proof.
  intros dri strategy dimValues. unfold dimension_restrict_info_closed_add.
  destruct (strategy =? BTEqualStrategyNumber); simpl; [|reflexivity].
  repeat match goal with |- context [if ?b then _ else _] => destruct b end;
    reflexivity.
Qed.

Lemma closed_add_all_strategy adds :
  forall dri,
    closed_strategy dri = InvalidStrategy
    \/ closed_strategy dri = BTEqualStrategyNumber ->
    closed_strategy (closed_add_all dri adds)
    = if existsb (fun a => fst a =? BTEqualStrategyNumber) adds
      then BTEqualStrategyNumber
      else closed_strategy dri.
Proof.
  induction adds as [|[s v] adds IH]; intros dri H; [reflexivity|].
  rewrite closed_add_all_cons. cbn [existsb fst snd].
  destruct (s =? BTEqualStrategyNumber) eqn:E; cbn [orb].
  - apply Z.eqb_eq in E. subst s.
    assert (closed_strategy
              (fst (dimension_restrict_info_closed_add
                      dri BTEqualStrategyNumber v))
            = BTEqualStrategyNumber) as K.
    { rewrite closed_add_equal_strategy.
      destruct (contradicts dri v); [reflexivity|].
      destruct H as [-> | ->]; reflexivity. }
    rewrite IH by (now right). rewrite K.
    match goal with |- (if ?b then _ else _) = _ => now destruct b end.
  - apply Z.eqb_neq in E. rewrite closed_add_other_strategy by assumption.
    now apply IH.
Qed.

(** X9: the strategy of a closed accumulator is "either Invalid or
    equal", as the comment on the field says: after any clauses on a
    fresh accumulator it is the equality strategy if one of the clauses
    was an equality clause, and unset otherwise. *)
Theorem closed_accumulator_strategy :
  forall (d : Dimension) (adds : list (StrategyNumber * DimensionValues)),
    closed_strategy
      (closed_add_all (dimension_restrict_info_closed_create d) adds)
    = if existsb (fun a => fst a =? BTEqualStrategyNumber) adds
      then BTEqualStrategyNumber
      else InvalidStrategy.
Proof.
  intros d adds. rewrite closed_add_all_strategy; [reflexivity | now left].
Qed.

(** X10: [dimension_restrict_info_get_partitions] returns the partition
    numbers of the values without repetition: every number in the list is
    the partition of one of the values, the partition of every value is in
    the list, no number occurs twice, and the list is no longer than the
    list of values. *)
Theorem get_partitions_are_distinct_partitions :
  forall dri (vals : list Datum),
    NoDup (dimension_restrict_info_get_partitions dri vals)
    /\ (forall p,
          In p (dimension_restrict_info_get_partitions dri vals)
          <-> exists v, In v vals
                        /\ p = partitioning_func_apply
                                 (partitioning (closed_dimension dri)) v)
    /\ (length (dimension_restrict_info_get_partitions dri vals)
        <= length vals)%nat.
Proof.
  intros dri vals. split; [apply get_partitions_NoDup|].
  split; [intros p; apply get_partitions_In|].
  unfold dimension_restrict_info_get_partitions.
  enough (forall acc,
            (length
               (fold_left
                  (fun partitions datum =>
                     list_append_unique_int partitions
                       (partitioning_func_apply
                          (partitioning (closed_dimension dri)) datum))
                  vals acc)
             <= length acc + length vals)%nat) as H by apply (H []).
  induction vals as [|v vals IH]; intros acc; simpl; [lia|].
  eapply Nat.le_trans; [apply IH|].
  unfold list_append_unique_int, lappend.
  destruct (list_member_int acc _); [lia|].
  rewrite length_app. simpl. lia.
Qed.

Lemma closed_add_strategy_set dri strategy dimValues :
  closed_strategy dri <> InvalidStrategy ->
  closed_strategy (fst (dimension_restrict_info_closed_add dri strategy dimValues))
  <> InvalidStrategy.
Proof.
  intros H.
  destruct (Z.eq_dec strategy BTEqualStrategyNumber) as [-> | Hne].
  - rewrite closed_add_equal_strategy.
    destruct (contradicts dri dimValues); [discriminate|].
    apply Z.eqb_neq in H. now rewrite H, <- Z.eqb_neq.
  - now rewrite closed_add_other_strategy.
Qed.

(** The partition set of a set accumulator after a sequence of clauses. *)
Lemma closed_add_all_partitions :
  forall dri (adds : list (StrategyNumber * DimensionValues)) (p : Z),
    closed_strategy dri <> InvalidStrategy ->
    (In p (partitions (closed_add_all dri adds))
     <-> In p (partitions dri)
         /\ Forall
              (fun a =>
                 fst a = BTEqualStrategyNumber ->
                 contradicts dri (snd a) = false
                 /\ In p (dimension_restrict_info_get_partitions
                            dri (values (snd a))))
              adds).
Proof.
  intros dri adds p. revert dri.
  induction adds as [|[s v] adds IH]; intros dri Hs.
  - simpl. split; [intros H; split; [exact H | constructor] | tauto].
  - rewrite closed_add_all_cons. cbn [fst snd].
    pose proof (closed_add_dimension dri s v) as D.
    rewrite (IH _ (closed_add_strategy_set dri s v Hs)).
    rewrite Forall_cons_iff. cbn [fst snd].
    assert (Forall
              (fun a =>
                 fst a = BTEqualStrategyNumber ->
                 contradicts
                   (fst (dimension_restrict_info_closed_add dri s v)) (snd a)
                 = false
                 /\ In p (dimension_restrict_info_get_partitions
                            (fst (dimension_restrict_info_closed_add dri s v))
                            (values (snd a))))
              adds
            <-> Forall
                  (fun a =>
                     fst a = BTEqualStrategyNumber ->
                     contradicts dri (snd a) = false
                     /\ In p (dimension_restrict_info_get_partitions
                                dri (values (snd a))))
                  adds) as ->.
    { rewrite !Forall_forall. split; intros H a Ha Ea;
        specialize (H a Ha Ea);
        rewrite (contradicts_dimension _ dri (snd a) D) in *;
        rewrite (get_partitions_dimension _ dri (values (snd a)) D) in *;
        exact H. }
    destruct (Z.eq_dec s BTEqualStrategyNumber) as [-> | Hne].
    + rewrite closed_add_equal_In.
      apply Z.eqb_neq in Hs. rewrite Hs.
      destruct (contradicts dri v).
      * split; [tauto|]. intros (_ & H & _). now destruct (H eq_refl).
      * split.
        -- intros ((H1 & H2) & H3). auto.
        -- intros (H1 & H2 & H3). destruct (H2 eq_refl). auto.
    + rewrite closed_add_other_strategy by assumption. simpl.
      split; [|tauto].
      intros (H1 & H2). split; [exact H1|]. split; [|exact H2].
      intros E. contradiction.
Qed.

(** X11: once a closed accumulator is set, a sequence of clauses leaves
    the intersection of its partition set with those of the equality
    clauses: a partition number is in the final list exactly when it was
    in the list before, no equality clause of the sequence was a
    contradiction, and each of them has a value in that partition.  In
    particular the set never grows. *)
Theorem closed_add_all_intersects :
  forall dri (adds : list (StrategyNumber * DimensionValues)) (p : Z),
    closed_strategy dri <> InvalidStrategy ->
    (In p (partitions (closed_add_all dri adds))
     <-> In p (partitions dri)
         /\ Forall
              (fun a =>
                 fst a = BTEqualStrategyNumber ->
                 contradicts dri (snd a) = false
                 /\ In p (dimension_restrict_info_get_partitions
                            dri (values (snd a))))
              adds).
Proof.
  intros dri adds p Hs. now apply closed_add_all_partitions.
Qed.

(** X12: on a fresh closed accumulator a sequence of clauses leaves the
    intersection of the partition sets of its equality clauses: a
    partition number is in the final list exactly when the sequence has
    an equality clause, none of its equality clauses was a contradiction,
    and each of them has a value in that partition. *)
Theorem closed_accumulator_intersects_clauses :
  forall (d : Dimension) (adds : list (StrategyNumber * DimensionValues))
         (p : Z),
    In p (partitions
            (closed_add_all (dimension_restrict_info_closed_create d) adds))
    <-> Exists (fun a => fst a = BTEqualStrategyNumber) adds
        /\ Forall
             (fun a =>
                fst a = BTEqualStrategyNumber ->
                contradicts (dimension_restrict_info_closed_create d) (snd a)
                = false
                /\ In p (dimension_restrict_info_get_partitions
                           (dimension_restrict_info_closed_create d)
                           (values (snd a))))
             adds.
Proof.
  intros d adds p. set (dri := dimension_restrict_info_closed_create d).
  induction adds as [|[s v] adds IH].
  - simpl. split; [contradiction | intros [H _]; inversion H].
  - rewrite closed_add_all_cons, Exists_cons, Forall_cons_iff. cbn [fst snd].
    destruct (Z.eq_dec s BTEqualStrategyNumber) as [-> | Hne].
    + pose proof (closed_add_dimension dri BTEqualStrategyNumber v) as D.
      assert (closed_strategy
                (fst (dimension_restrict_info_closed_add
                        dri BTEqualStrategyNumber v))
              <> InvalidStrategy) as Hs.
      { rewrite closed_add_equal_strategy.
        destruct (contradicts dri v); discriminate. }
      rewrite (closed_add_all_partitions _ adds p Hs).
      rewrite closed_add_equal_In. change (closed_strategy dri =? InvalidStrategy)
        with true. cbv iota.
      assert (Forall
                (fun a =>
                   fst a = BTEqualStrategyNumber ->
                   contradicts
                     (fst (dimension_restrict_info_closed_add
                             dri BTEqualStrategyNumber v)) (snd a)
                   = false
                   /\ In p (dimension_restrict_info_get_partitions
                              (fst (dimension_restrict_info_closed_add
                                      dri BTEqualStrategyNumber v))
                              (values (snd a))))
                adds
              <-> Forall
                    (fun a =>
                       fst a = BTEqualStrategyNumber ->
                       contradicts dri (snd a) = false
                       /\ In p (dimension_restrict_info_get_partitions
                                  dri (values (snd a))))
                    adds) as ->.
      { rewrite !Forall_forall. split; intros H a Ha Ea;
          specialize (H a Ha Ea);
          rewrite (contradicts_dimension _ dri (snd a) D) in *;
          rewrite (get_partitions_dimension _ dri (values (snd a)) D) in *;
          exact H. }
      destruct (contradicts dri v).
      * split; [tauto|]. intros (_ & H & _). now destruct (H eq_refl).
      * split.
        -- intros (H1 & H2). auto.
        -- intros (_ & H2 & H3). destruct (H2 eq_refl). auto.
    + rewrite closed_add_other_strategy by assumption. cbn [fst].
      rewrite IH. split.
      * intros (H1 & H2). split; [now right|]. split; [tauto | exact H2].
      * intros ([H1 | H1] & _ & H3); [contradiction | auto].
Qed.

(** X13: [dimension_restrict_info_closed_add] never shuts out a partition
    the clause holds of, the conjunction over no value apart.  If the
    accumulator lets partition [p] through and an equality clause has a
    value in partition [p] -- one of its values with combine_as_or, each
    of them without, and then at least one -- the accumulator lets [p]
    through after the call. *)
Theorem closed_add_keeps_satisfying_partitions :
  forall dri (strategy : StrategyNumber) dimValues (p : Z),
    (strategy = BTEqualStrategyNumber ->
     if use_or dimValues
     then Exists (fun v =>
                    p = partitioning_func_apply
                          (partitioning (closed_dimension dri)) v)
                 (values dimValues)
     else values dimValues <> []
          /\ Forall (fun v =>
                       p = partitioning_func_apply
                             (partitioning (closed_dimension dri)) v)
                    (values dimValues)) ->
    closed_passes dri p ->
    closed_passes
      (fst (dimension_restrict_info_closed_add dri strategy dimValues)) p.
Proof.
  intros dri strategy dimValues p H Hp.
  apply closed_add_passes; [| |exact Hp].
  - intros Hs. specialize (H Hs). destruct (use_or dimValues); tauto.
  - intros Hs Hor. specialize (H Hs). rewrite Hor in H. tauto.
Qed.

Lemma filter_member_idempotent (l1 l2 : list Z) :
  filter (list_member_int l2) (filter (list_member_int l2) l1)
  = filter (list_member_int l2) l1.
Proof.
  induction l1 as [|a l1 IH]; simpl; [reflexivity|].
  destruct (list_member_int l2 a) eqn:E; simpl; [|exact IH].
  now rewrite E, IH.
Qed.

Lemma list_intersection_int_idempotent (l1 l2 : list Z) :
  list_intersection_int (list_intersection_int l1 l2) l2
  = list_intersection_int l1 l2.
Proof.
  unfold list_intersection_int at 2 3.
  destruct l1 as [|a l1]; [reflexivity|].
  destruct l2 as [|b l2]; [reflexivity|].
  unfold list_intersection_int.
  destruct (filter (list_member_int (b :: l2)) (a :: l1)) as [|c l] eqn:E;
    [reflexivity|].
  rewrite <- E. apply filter_member_idempotent.
Qed.

Lemma list_intersection_int_self (l : list Z) :
  list_intersection_int l l = l.
Proof.
  unfold list_intersection_int. destruct l as [|a l]; [reflexivity|].
  apply forallb_filter_id. apply forallb_forall.
  intros x Hx. now apply list_member_int_In.
Qed.

Lemma closed_add_equal_cases dri dimValues :
  dimension_restrict_info_closed_add dri BTEqualStrategyNumber dimValues
  = if contradicts dri dimValues then
      ({| closed_dimension := closed_dimension dri;
          partitions := [];
          closed_strategy := BTEqualStrategyNumber |}, true)
    else if closed_strategy dri =? InvalidStrategy then
      ({| closed_dimension := closed_dimension dri;
          partitions :=
            dimension_restrict_info_get_partitions dri (values dimValues);
          closed_strategy := BTEqualStrategyNumber |}, true)
    else if is_NIL (partitions dri) then (dri, true)
    else
      ({| closed_dimension := closed_dimension dri;
          partitions :=
            list_intersection_int (partitions dri)
              (dimension_restrict_info_get_partitions dri (values dimValues));
          closed_strategy := closed_strategy dri |}, true).
Proof. reflexivity. Qed.

(** X14: adding a clause a second time changes nothing: the accumulator
    after [add] twice with the same strategy and values is the accumulator
    after the first call. *)
Theorem closed_add_twice :
  forall dri (strategy : StrategyNumber) dimValues,
    fst (dimension_restrict_info_closed_add
           (fst (dimension_restrict_info_closed_add dri strategy dimValues))
           strategy dimValues)
    = fst (dimension_restrict_info_closed_add dri strategy dimValues).
Proof.
  intros dri strategy dimValues.
  destruct (Z.eq_dec strategy BTEqualStrategyNumber) as [-> | Hne].
  2: now rewrite !closed_add_other_strategy.
  pose proof (closed_add_dimension dri BTEqualStrategyNumber dimValues) as D.
  rewrite (closed_add_equal_cases
             (fst (dimension_restrict_info_closed_add
                     dri BTEqualStrategyNumber dimValues))).
  rewrite (contradicts_dimension _ dri dimValues D).
  rewrite (get_partitions_dimension _ dri (values dimValues) D).
  rewrite D. rewrite (closed_add_equal_cases dri dimValues).
  destruct (contradicts dri dimValues); [reflexivity|].
  destruct (closed_strategy dri =? InvalidStrategy) eqn:S.
  - cbn [fst closed_strategy partitions closed_dimension].
    change (BTEqualStrategyNumber =? InvalidStrategy) with false. cbv iota.
    destruct (dimension_restrict_info_get_partitions dri (values dimValues))
      as [|a l] eqn:P; [reflexivity|].
    cbn [is_NIL fst]. now rewrite list_intersection_int_self.
  - destruct (is_NIL (partitions dri)) eqn:N.
    + cbn [fst]. now rewrite S, N.
    + cbn [fst closed_strategy partitions closed_dimension]. rewrite S.
      destruct (is_NIL (list_intersection_int _ _)) eqn:N'; [reflexivity|].
      cbn [fst]. now rewrite list_intersection_int_idempotent.
Qed.

End ClosedAddProperties.

Section OpenAddTwice.

Context {ext : Collaborators}.

Implicit Types (dri : DimensionRestrictInfoOpen) (dimValues : DimensionValues).

(** Values that do not undercut the upper bound leave the accumulator as
    it is. *)
Lemma open_add_values_upper_fixed strategy ty (vals : list Datum) :
  strategy = BTLessStrategyNumber \/ strategy = BTLessEqualStrategyNumber ->
  forall st,
    upper_strategy (fst st) <> InvalidStrategy ->
    Forall (fun v => upper_bound (fst st) <= v)
           (map (fun datum => time_value_to_internal datum ty false) vals) ->
    fst (fold_left (open_add_value strategy ty) vals st) = fst st.
Proof.
  intros Hs. induction vals as [|v vals IH]; intros [o added] Ho Hall;
    cbn [fold_left map] in *; [reflexivity|].
  apply Forall_cons_iff in Hall. destruct Hall as [Hv Hall].
  simpl in Ho, Hv.
  assert (open_add_value strategy ty (o, added) v = (o, added)) as ->.
  { unfold open_add_value. apply Z.eqb_neq in Ho.
    assert ((time_value_to_internal v ty false <? upper_bound o) = false)
      as E by (apply Z.ltb_ge; lia).
    destruct Hs as [-> | ->]; simpl; now rewrite Ho, E. }
  now apply IH.
Qed.

Lemma open_add_values_lower_fixed strategy ty (vals : list Datum) :
  strategy = BTGreaterStrategyNumber
  \/ strategy = BTGreaterEqualStrategyNumber ->
  forall st,
    lower_strategy (fst st) <> InvalidStrategy ->
    Forall (fun v => v <= lower_bound (fst st))
           (map (fun datum => time_value_to_internal datum ty false) vals) ->
    fst (fold_left (open_add_value strategy ty) vals st) = fst st.
Proof.
  intros Hs. induction vals as [|v vals IH]; intros [o added] Ho Hall;
    cbn [fold_left map] in *; [reflexivity|].
  apply Forall_cons_iff in Hall. destruct Hall as [Hv Hall].
  simpl in Ho, Hv.
  assert (open_add_value strategy ty (o, added) v = (o, added)) as ->.
  { unfold open_add_value. apply Z.eqb_neq in Ho.
    assert ((time_value_to_internal v ty false >? lower_bound o) = false)
      as E by (rewrite Z.gtb_ltb; apply Z.ltb_ge; lia).
    destruct Hs as [-> | ->]; simpl; now rewrite Ho, E. }
  now apply IH.
Qed.

Lemma open_add_values_twice_upper strategy ty (vals : list Datum) dri :
  strategy = BTLessStrategyNumber \/ strategy = BTLessEqualStrategyNumber ->
  fst (fold_left (open_add_value strategy ty) vals
         (fst (fold_left (open_add_value strategy ty) vals (dri, false)),
          false))
  = fst (fold_left (open_add_value strategy ty) vals (dri, false)).
Proof.
  intros Hs. destruct vals as [|w ws]; [reflexivity|].
  set (r := fst (fold_left (open_add_value strategy ty) (w :: ws) (dri, false))).
  assert (upper_strategy r <> InvalidStrategy
          /\ Forall (fun z => upper_bound r <= z)
               (map (fun datum => time_value_to_internal datum ty false)
                    (w :: ws))) as [Hu Hall].
  { destruct (Z.eq_dec (upper_strategy dri) InvalidStrategy) as [Ho | Ho].
    - unfold r. cbn [fold_left].
      assert (open_add_value strategy ty (dri, false) w
              = (set_upper dri strategy (time_value_to_internal w ty false),
                 true)) as ->.
      { unfold open_add_value. rewrite Ho. simpl.
        destruct Hs as [-> | ->]; reflexivity. }
      assert (strategy <> InvalidStrategy) as Hne
        by (destruct Hs as [-> | ->]; discriminate).
      destruct (open_add_values_upper_least strategy ty ws Hs
                  (set_upper dri strategy (time_value_to_internal w ty false),
                   true) Hne) as (Hu & _ & Hall).
      split; [exact Hu | exact Hall].
    - destruct (open_add_values_upper_least strategy ty (w :: ws) Hs
                  (dri, false) Ho) as (Hu & _ & Hall).
      apply Forall_cons_iff in Hall. split; [exact Hu | apply Hall]. }
  apply (open_add_values_upper_fixed strategy ty (w :: ws) Hs (r, false)
           Hu Hall).
Qed.

Lemma open_add_values_twice_lower strategy ty (vals : list Datum) dri :
  strategy = BTGreaterStrategyNumber
  \/ strategy = BTGreaterEqualStrategyNumber ->
  fst (fold_left (open_add_value strategy ty) vals
         (fst (fold_left (open_add_value strategy ty) vals (dri, false)),
          false))
  = fst (fold_left (open_add_value strategy ty) vals (dri, false)).
Proof.
  intros Hs. destruct vals as [|w ws]; [reflexivity|].
  set (r := fst (fold_left (open_add_value strategy ty) (w :: ws) (dri, false))).
  assert (lower_strategy r <> InvalidStrategy
          /\ Forall (fun z => z <= lower_bound r)
               (map (fun datum => time_value_to_internal datum ty false)
                    (w :: ws))) as [Hu Hall].
  { destruct (Z.eq_dec (lower_strategy dri) InvalidStrategy) as [Ho | Ho].
    - unfold r. cbn [fold_left].
      assert (open_add_value strategy ty (dri, false) w
              = (set_lower dri strategy (time_value_to_internal w ty false),
                 true)) as ->.
      { unfold open_add_value. rewrite Ho. simpl.
        destruct Hs as [-> | ->]; reflexivity. }
      assert (strategy <> InvalidStrategy) as Hne
        by (destruct Hs as [-> | ->]; discriminate).
      destruct (open_add_values_lower_greatest strategy ty ws Hs
                  (set_lower dri strategy (time_value_to_internal w ty false),
                   true) Hne) as (Hu & _ & Hall).
      split; [exact Hu | exact Hall].
    - destruct (open_add_values_lower_greatest strategy ty (w :: ws) Hs
                  (dri, false) Ho) as (Hu & _ & Hall).
      apply Forall_cons_iff in Hall. split; [exact Hu | apply Hall]. }
  apply (open_add_values_lower_fixed strategy ty (w :: ws) Hs (r, false)
           Hu Hall).
Qed.

(** X15: adding a clause a second time changes nothing on an open
    accumulator either: the bounds and strategies after [add] twice with
    the same strategy and values are those after the first call. *)
Theorem open_add_twice :
  forall dri (strategy : StrategyNumber) dimValues,
    fst (dimension_restrict_info_open_add
           (fst (dimension_restrict_info_open_add dri strategy dimValues))
           strategy dimValues)
    = fst (dimension_restrict_info_open_add dri strategy dimValues).
Proof.
  intros dri strategy dimValues.
  unfold dimension_restrict_info_open_add.
  destruct (use_or dimValues && _) eqn:G; [reflexivity|].
  set (ty := values_type dimValues).
  destruct (Z.eq_dec strategy BTEqualStrategyNumber) as [-> | Hne].
  { destruct (values dimValues) as [|v vals _] using rev_ind; [reflexivity|].
    rewrite !open_add_values_equal. reflexivity. }
  destruct (Z.eq_dec strategy BTLessStrategyNumber) as [E1 | N1];
    [apply open_add_values_twice_upper; now left|].
  destruct (Z.eq_dec strategy BTLessEqualStrategyNumber) as [E2 | N2];
    [apply open_add_values_twice_upper; now right|].
  destruct (Z.eq_dec strategy BTGreaterStrategyNumber) as [E4 | N4];
    [apply open_add_values_twice_lower; now left|].
  destruct (Z.eq_dec strategy BTGreaterEqualStrategyNumber) as [E5 | N5];
    [apply open_add_values_twice_lower; now right|].
  assert (forall st datum, open_add_value strategy ty st datum = st) as S.
  { intros [o added] datum. unfold open_add_value.
    apply Z.eqb_neq in Hne, N1, N2, N4, N5.
    now rewrite Hne, N1, N2, N4, N5. }
  assert (forall l st, fold_left (open_add_value strategy ty) l st = st) as F.
  { induction l as [|w l IH]; intros st; simpl; [reflexivity|].
    now rewrite S. }
  now rewrite !F.
Qed.

End OpenAddTwice.

(** * Further properties of the restrictions of a hypertable *)

Section RestrictionSet.

Context {ext : Collaborators}.

Lemma create_dimension_restrictions_error uninit ds :
  forall i,
    create_dimension_restrictions uninit i ds = None
    <-> Exists (fun d => type d = DIMENSION_TYPE_ANY) ds.
Proof.
  induction ds as [|d ds IH]; intros i; simpl.
  - split; [discriminate | intros H; inversion H].
  - rewrite Exists_cons, <- (IH (S i)).
    unfold dimension_restrict_info_create.
    destruct (type d); destruct (create_dimension_restrictions uninit (S i) ds);
      split; try discriminate; try tauto;
      intros [H | H]; discriminate.
Qed.

Lemma create_dimension_restrictions_fresh uninit ds :
  forall i dris,
    create_dimension_restrictions uninit i ds = Some dris ->
    map dimension dris = ds
    /\ Forall (fun dri => kind_matches dri /\ unset dri) dris.
Proof.
  induction ds as [|d ds IH]; intros i dris H; simpl in H.
  - injection H as <-. split; constructor.
  - destruct (dimension_restrict_info_create d _ _) as [dri|] eqn:E;
      [|discriminate].
    destruct (create_dimension_restrictions uninit (S i) ds) as [rest|] eqn:Er;
      [|discriminate].
    injection H as <-. destruct (IH _ _ Er) as [Hm Hf].
    unfold dimension_restrict_info_create in E.
    destruct (type d) eqn:T; try discriminate; injection E as <-; simpl;
      (split; [now rewrite Hm|]); constructor; try exact Hf;
      repeat split; assumption.
Qed.

(** X16: [hypertable_restrict_info_create] raises its error exactly when
    the hypertable has a dimension that is neither open nor closed.
    Otherwise it returns one accumulator per dimension, in the order of
    the dimensions, each of the kind of its dimension and unset, with the
    count of restrictions at zero. *)
Theorem hypertable_restrict_info_create_fresh :
  forall (uninit : nat -> Z * Z) (ht : Hypertable),
    (hypertable_restrict_info_create uninit ht = None
     <-> Exists (fun d => type d = DIMENSION_TYPE_ANY) (dimensions (space ht)))
    /\ forall hri,
         hypertable_restrict_info_create uninit ht = Some hri ->
         map dimension (dimension_restriction hri) = dimensions (space ht)
         /\ Forall (fun dri => kind_matches dri /\ unset dri)
                   (dimension_restriction hri)
         /\ num_base_restrictions hri = 0
         /\ hypertable_restrict_info_has_restrictions hri = false.
Proof.
  intros uninit ht. unfold hypertable_restrict_info_create. split.
  - rewrite <- (create_dimension_restrictions_error uninit _ 0%nat).
    destruct (create_dimension_restrictions uninit 0 (dimensions (space ht)));
      split; congruence.
  - intros hri H.
    destruct (create_dimension_restrictions uninit 0 (dimensions (space ht)))
      as [dris|] eqn:E; [|discriminate].
    injection H as <-. simpl.
    destruct (create_dimension_restrictions_fresh _ _ _ _ E) as [Hm Hf].
    auto.
Qed.

Lemma find_dimension_restriction_first dris attno :
  forall i0 i dri,
    find_dimension_restriction dris attno i0 = Some (i, dri)
    <-> (i0 <= i)%nat
        /\ nth_error dris (i - i0) = Some dri
        /\ column_attno (dimension dri) = attno
        /\ Forall (fun d => column_attno (dimension d) <> attno)
                  (firstn (i - i0) dris).
Proof.
  induction dris as [|d dris IH]; intros i0 i dri; simpl.
  - split; [discriminate|]. intros (_ & H & _). now destruct (i - i0)%nat.
  - destruct (column_attno (dimension d) =? attno) eqn:E.
    + apply Z.eqb_eq in E. split.
      * intros H. injection H as <- <-. rewrite Nat.sub_diag. simpl.
        repeat split; auto.
      * intros (Hle & Hn & Ha & Hf).
        destruct (i - i0)%nat as [|k] eqn:K.
        -- simpl in Hn. injection Hn as <-. f_equal. f_equal. lia.
        -- simpl in Hf. apply Forall_inv in Hf. contradiction.
    + apply Z.eqb_neq in E. rewrite IH. split.
      * intros (Hle & Hn & Ha & Hf).
        replace (i - i0)%nat with (S (i - S i0)) by lia. simpl.
        repeat split; auto; lia.
      * intros (Hle & Hn & Ha & Hf).
        destruct (i - i0)%nat as [|k] eqn:K.
        -- simpl in Hn. injection Hn as <-. contradiction.
        -- replace (i - S i0)%nat with k by lia. simpl in Hn, Hf.
           apply Forall_inv_tail in Hf. repeat split; auto; lia.
Qed.

Lemma find_dimension_restriction_none dris attno :
  forall i0,
    find_dimension_restriction dris attno i0 = None
    <-> Forall (fun d => column_attno (dimension d) <> attno) dris.
Proof.
  induction dris as [|d dris IH]; intros i0; simpl.
  - split; [constructor | reflexivity].
  - rewrite Forall_cons_iff.
    destruct (column_attno (dimension d) =? attno) eqn:E.
    + apply Z.eqb_eq in E. split; [discriminate | tauto].
    + apply Z.eqb_neq in E. rewrite IH. tauto.
Qed.

(** X17: [hypertable_restrict_info_get] returns the first accumulator on
    the column and no other: it returns [NULL] exactly when no accumulator
    is on the column, and the accumulator at index [i] exactly when that
    one is on the column and none before it is. *)
Theorem hypertable_restrict_info_get_first :
  forall (hri : HypertableRestrictInfo) (attno : AttrNumber),
    (hypertable_restrict_info_get hri attno = None
     <-> Forall (fun d => column_attno (dimension d) <> attno)
                (dimension_restriction hri))
    /\ forall i dri,
         hypertable_restrict_info_get hri attno = Some (i, dri)
         <-> nth_error (dimension_restriction hri) i = Some dri
             /\ column_attno (dimension dri) = attno
             /\ Forall (fun d => column_attno (dimension d) <> attno)
                       (firstn i (dimension_restriction hri)).
Proof.
  intros hri attno. unfold hypertable_restrict_info_get. split.
  - apply find_dimension_restriction_none.
  - intros i dri. rewrite find_dimension_restriction_first.
    rewrite Nat.sub_0_r. split; [tauto|]. intros H. split; [lia | exact H].
Qed.

Lemma dimension_restrict_info_add_unreported dri strategy dimValues dri' :
  dimension_restrict_info_add dri strategy dimValues = (dri', false) ->
  dri' = dri.
Proof.
  destruct dri as [o | c]; simpl.
  - unfold dimension_restrict_info_open_add.
    destruct (use_or dimValues && _); [congruence|].
    destruct (open_add_values_flag (strategy mod 65536)
                (values_type dimValues) (values dimValues) (o, false))
      as [-> | E]; [congruence|].
    destruct (fold_left _ _ _) as [o' added]. simpl in E. subst. congruence.
  - destruct (Z.eq_dec (strategy mod 65536) BTEqualStrategyNumber) as [E | E].
    + rewrite E, closed_add_equal_cases.
      repeat match goal with |- context [if ?b then _ else _] => destruct b end;
        discriminate.
    + rewrite closed_add_other_strategy by assumption. congruence.
Qed.

Lemma store_dimension_restriction_same dris :
  forall i dri,
    nth_error dris i = Some dri ->
    store_dimension_restriction dris i dri = dris.
Proof.
  induction dris as [|d dris IH]; intros i dri H; [now destruct i|].
  destruct i; simpl in *.
  - now injection H as ->.
  - f_equal. now apply IH.
Qed.

Lemma restrict_dimension_unreported hri i dri strategy dimValues hri' :
  nth_error (dimension_restriction hri) i = Some dri ->
  restrict_dimension hri i dri strategy dimValues = (hri', false) ->
  hri' = hri.
Proof.
  unfold restrict_dimension. intros Hn H.
  destruct (dimension_restrict_info_add dri strategy dimValues)
    as [dri' added] eqn:E.
  injection H as <- ->.
  apply dimension_restrict_info_add_unreported in E. subst dri'.
  rewrite store_dimension_restriction_same by assumption.
  now destruct hri.
Qed.

End RestrictionSet.

Section ClauseIngestion.

Context {ext : Collaborators} {pl : Planner}.

Lemma int_wrap_in_range z :
  INT_MIN <= z <= INT_MAX -> int_wrap z = z.
Proof.
  unfold int_wrap, INT_MIN, INT_MAX. intros H.
  rewrite Z.mod_small; lia.
Qed.

Lemma int_wrap_range z : INT_MIN <= int_wrap z <= INT_MAX.
Proof.
  unfold int_wrap, INT_MIN, INT_MAX.
  pose proof (Z.mod_pos_bound (z + 2 ^ 31) (2 ^ 32) ltac:(lia)). lia.
Qed.

Lemma int_wrap_add a b : int_wrap (int_wrap a + b) = int_wrap (a + b).
Proof.
  unfold int_wrap. f_equal.
  replace ((a + 2 ^ 31) mod 2 ^ 32 - 2 ^ 31 + b + 2 ^ 31)
    with ((a + 2 ^ 31) mod 2 ^ 32 + b) by lia.
  rewrite Zplus_mod_idemp_l. f_equal. lia.
Qed.

(** X18: a clause either is counted or leaves no trace: after
    [hypertable_restrict_info_add_restrict_info] the restrictions are
    exactly as they were -- every accumulator and the count -- or the
    [int] count of restrictions has been incremented: it has gone up by
    one, or from [INT_MAX] around to [INT_MIN]. *)
Theorem add_restrict_info_counts_every_change :
  forall (hri : HypertableRestrictInfo) (ri : RestrictInfo)
         (hri' : HypertableRestrictInfo),
    hypertable_restrict_info_add_restrict_info hri ri = Some hri' ->
    hri' = hri
    \/ (num_base_restrictions hri'
        = int_wrap (num_base_restrictions hri + 1)
        /\ (INT_MIN <= num_base_restrictions hri < INT_MAX ->
            num_base_restrictions hri' = num_base_restrictions hri + 1)
        /\ (num_base_restrictions hri = INT_MAX ->
            num_base_restrictions hri' = INT_MIN)).
Proof.
  intros hri ri hri'.
  unfold hypertable_restrict_info_add_restrict_info. intros H.
  destruct (contain_mutable_functions (clause ri)); [left; congruence|].
  match type of H with
  | match ?e with _ => _ end = _ => destruct e as [[hri1 added]|] eqn:E
  end; [|discriminate].
  assert (restricted_from hri (hri1, added)) as R.
  { destruct (clause ri); try (left; congruence);
      eapply add_expr_restricted; eassumption. }
  injection H as <-.
  destruct R as [R | (attno & i & dri & strategy & dimValues & G & R)].
  - injection R as -> ->. now left.
  - destruct added.
    + right. simpl. unfold restrict_dimension in R.
      destruct (dimension_restrict_info_add dri strategy dimValues).
      injection R as -> _. cbn [num_base_restrictions].
      split; [reflexivity|]. split.
      * intros Hr. apply int_wrap_in_range. unfold INT_MIN, INT_MAX in *. lia.
      * intros ->. reflexivity.
    + left. symmetry in R.
      eapply restrict_dimension_unreported; [|exact R].
      eapply hypertable_restrict_info_get_nth, G.
Qed.

Lemma restricted_from_frame hri r :
  restricted_from hri r ->
  map dimension (dimension_restriction (fst r))
  = map dimension (dimension_restriction hri)
  /\ num_base_restrictions (fst r) = num_base_restrictions hri
  /\ exists i,
       forall k, k <> i ->
         nth_error (dimension_restriction (fst r)) k
         = nth_error (dimension_restriction hri) k.
Proof.
  intros [-> | (attno & i & dri & strategy & dimValues & G & ->)].
  - simpl. repeat split. exists 0%nat. reflexivity.
  - pose proof (hypertable_restrict_info_get_nth _ _ _ _ G) as Hn.
    unfold restrict_dimension.
    pose proof (dimension_restrict_info_add_dimension dri strategy dimValues)
      as D.
    destruct (dimension_restrict_info_add dri strategy dimValues)
      as [dri' added].
    simpl in *. split; [|split; [reflexivity|]].
    + eapply store_dimension_restriction_dimensions; eassumption.
    + exists i. intros k Hk. rewrite store_dimension_restriction_nth.
      apply Nat.eqb_neq in Hk. now rewrite Hk.
Qed.

(** X19: a clause restricts one accumulator at most and moves none:
    after [hypertable_restrict_info_add_restrict_info] the accumulators
    are on the same dimensions, in the same order, and all of them but one
    at most are as they were. *)
Theorem add_restrict_info_touches_one_accumulator :
  forall (hri : HypertableRestrictInfo) (ri : RestrictInfo)
         (hri' : HypertableRestrictInfo),
    hypertable_restrict_info_add_restrict_info hri ri = Some hri' ->
    map dimension (dimension_restriction hri')
    = map dimension (dimension_restriction hri)
    /\ exists i,
         forall k, k <> i ->
           nth_error (dimension_restriction hri') k
           = nth_error (dimension_restriction hri) k.
Proof.
  intros hri ri hri'.
  unfold hypertable_restrict_info_add_restrict_info. intros H.
  destruct (contain_mutable_functions (clause ri)).
  { injection H as <-. split; [reflexivity|]. now exists 0%nat. }
  match type of H with
  | match ?e with _ => _ end = _ => destruct e as [[hri1 added]|] eqn:E
  end; [|discriminate].
  assert (restricted_from hri (hri1, added)) as R.
  { destruct (clause ri); try (left; congruence);
      eapply add_expr_restricted; eassumption. }
  apply restricted_from_frame in R. simpl in R.
  destruct R as (Hm & _ & Hk).
  injection H as <-. destruct added; simpl; auto.
Qed.

Lemma add_restrict_info_count hri ri hri' :
  hypertable_restrict_info_add_restrict_info hri ri = Some hri' ->
  map dimension (dimension_restriction hri')
  = map dimension (dimension_restriction hri)
  /\ (num_base_restrictions hri' = num_base_restrictions hri
      \/ num_base_restrictions hri'
         = int_wrap (num_base_restrictions hri + 1)).
Proof.
  unfold hypertable_restrict_info_add_restrict_info. intros H.
  destruct (contain_mutable_functions (clause ri)).
  { injection H as <-. split; [reflexivity | now left]. }
  match type of H with
  | match ?e with _ => _ end = _ => destruct e as [[hri1 added]|] eqn:E
  end; [|discriminate].
  assert (restricted_from hri (hri1, added)) as R.
  { destruct (clause ri); try (left; congruence);
      eapply add_expr_restricted; eassumption. }
  apply restricted_from_frame in R. simpl in R.
  destruct R as (Hm & Hc & _).
  injection H as <-. destruct added; simpl; split; auto.
  right. now rewrite Hc.
Qed.

Lemma hypertable_restrict_info_add_count base_restrict_infos :
  forall hri hri',
    INT_MIN <= num_base_restrictions hri <= INT_MAX ->
    hypertable_restrict_info_add hri base_restrict_infos = Some hri' ->
    map dimension (dimension_restriction hri')
    = map dimension (dimension_restriction hri)
    /\ exists counted,
         0 <= counted <= Z.of_nat (length base_restrict_infos)
         /\ num_base_restrictions hri'
            = int_wrap (num_base_restrictions hri + counted).
Proof.
  induction base_restrict_infos as [|ri rest IH]; intros hri hri' Hr H;
    simpl in H.
  - injection H as <-. split; [reflexivity|]. exists 0.
    split; [simpl; lia|]. rewrite Z.add_0_r. symmetry.
    now apply int_wrap_in_range.
  - destruct (hypertable_restrict_info_add_restrict_info hri ri)
      as [hri1|] eqn:E; [|discriminate].
    destruct (add_restrict_info_count _ _ _ E) as (Hm1 & Hc1).
    assert (INT_MIN <= num_base_restrictions hri1 <= INT_MAX) as Hr1.
    { destruct Hc1 as [-> | ->]; [exact Hr | apply int_wrap_range]. }
    destruct (IH _ _ Hr1 H) as (Hm & counted & Hk & Hc).
    split; [congruence|].
    destruct Hc1 as [E1 | E1]; rewrite E1 in Hc.
    + exists counted. split; [simpl length; lia | exact Hc].
    + exists (1 + counted). split; [simpl length; lia|].
      rewrite int_wrap_add in Hc. rewrite Hc. f_equal. lia.
Qed.

(** X20: [hypertable_restrict_info_add] counts at most one restriction
    per clause: the accumulators stay on the dimensions they were on, and
    the [int] count of restrictions has been incremented once for each
    counted clause, no more often than there are clauses.  Short of
    [INT_MAX] the count therefore never goes down and a hypertable that
    had restrictions still has them; past it the count wraps around. *)
Theorem hypertable_restrict_info_add_counts :
  forall (base_restrict_infos : list RestrictInfo)
         (hri hri' : HypertableRestrictInfo),
    INT_MIN <= num_base_restrictions hri <= INT_MAX ->
    hypertable_restrict_info_add hri base_restrict_infos = Some hri' ->
    map dimension (dimension_restriction hri')
    = map dimension (dimension_restriction hri)
    /\ INT_MIN <= num_base_restrictions hri' <= INT_MAX
    /\ (exists counted,
          0 <= counted <= Z.of_nat (length base_restrict_infos)
          /\ num_base_restrictions hri'
             = int_wrap (num_base_restrictions hri + counted))
    /\ (num_base_restrictions hri + Z.of_nat (length base_restrict_infos)
        <= INT_MAX ->
        num_base_restrictions hri <= num_base_restrictions hri'
        <= num_base_restrictions hri + Z.of_nat (length base_restrict_infos)
        /\ (hypertable_restrict_info_has_restrictions hri = true ->
            hypertable_restrict_info_has_restrictions hri' = true)).
Proof.
  intros ris hri hri' Hr H.
  destruct (hypertable_restrict_info_add_count ris hri hri' Hr H)
    as (Hm & counted & Hk & Hc).
  split; [exact Hm|]. split; [rewrite Hc; apply int_wrap_range|].
  split; [now exists counted|].
  intros Hmax.
  rewrite int_wrap_in_range in Hc by lia.
  split; [lia|].
  unfold hypertable_restrict_info_has_restrictions.
  rewrite !Z.gtb_ltb, !Z.ltb_lt. lia.
Qed.

End ClauseIngestion.

Section ArrayValues.

Context {ext : Collaborators} {pl : Planner}.

Lemma collect_non_null {A} (elems : list (option A)) :
  forall vals,
    fold_left
      (fun vals elem =>
         match elem with
         | Some e => lappend vals e
         | None => vals
         end)
      elems vals
    = vals ++ non_null_elements elems.
Proof.
  induction elems as [|elem elems IH]; intros vals; simpl.
  - now rewrite app_nil_r.
  - rewrite IH. destruct elem; simpl; [|reflexivity].
    unfold lappend. now rewrite <- app_assoc.
Qed.

(** X21: [dimension_values_create_from_array] raises its error exactly
    when the constant's type has no element type.  Otherwise the values
    are the elements of the array that are not NULL, in the order of the
    array, under the element type and the [IN]/[ALL] flag of the clause:
    NULL elements are dropped without a trace. *)
Theorem dimension_values_create_from_array_skips_nulls :
  forall (c : Const) (user_or : bool),
    (dimension_values_create_from_array c user_or = None
     <-> get_element_type (consttype c) = InvalidOid)
    /\ forall dimValues,
         dimension_values_create_from_array c user_or = Some dimValues ->
         values dimValues = non_null_elements (array_elements (constvalue c))
         /\ values_type dimValues = get_element_type (consttype c)
         /\ use_or dimValues = user_or
         /\ (length (values dimValues)
             <= length (array_elements (constvalue c)))%nat.
Proof.
  intros c user_or. unfold dimension_values_create_from_array.
  rewrite collect_non_null.
  destruct (get_element_type (consttype c) =? InvalidOid) eqn:E.
  - apply Z.eqb_eq in E. split; [tauto | discriminate].
  - apply Z.eqb_neq in E. split; [split; [discriminate | contradiction]|].
    intros dimValues H. injection H as <-. simpl.
    repeat split.
    induction (array_elements (constvalue c)) as [|[e|] elems IH]; simpl; lia.
Qed.

(** X22: a column on the right of the operator is handled as the same
    column on the left of the operator's commutator: when the left operand
    is not a column, [hypertable_restrict_info_add_expr] does with
    [expr op column] what it does with [column commutator(op) expr]. *)
Theorem add_expr_commutes_operands :
  forall (hri : HypertableRestrictInfo) (other : Expr)
         (varno : Z) (varattno : AttrNumber) (op_oid : Oid)
         (func_get_dim_values : get_dimension_values) (use_or : bool),
    (forall n a, strip_relabel other <> T_Var n a) ->
    hypertable_restrict_info_add_expr hri [other; T_Var varno varattno]
      op_oid func_get_dim_values use_or
    = hypertable_restrict_info_add_expr hri [T_Var varno varattno; other]
        (get_commutator op_oid) func_get_dim_values use_or.
Proof.
  intros hri other varno varattno op_oid f use_or Hother.
  unfold hypertable_restrict_info_add_expr.
  change (strip_relabel (T_Var varno varattno)) with (T_Var varno varattno).
  destruct (strip_relabel other) as [n a| | | | |] eqn:E;
    try reflexivity.
  now destruct (Hother n a).
Qed.

End ArrayValues.

Section ResolutionOfAllDimensions.

Context {ext : Collaborators} {lookup : ChunkLookup}.

Lemma get_chunk_oids_loop_exit dris :
  forall i dimension_vecs,
    match get_chunk_oids_loop dris i dimension_vecs with
    | Exit_all_dimensions dvs =>
        forallb (fun dri =>
                   negb (num_slices (dimension_restrict_info_slices dri) =? 0))
                dris = true
        /\ dvs = dimension_vecs ++ map dimension_restrict_info_slices dris
    | Exit_no_slices _ =>
        forallb (fun dri =>
                   negb (num_slices (dimension_restrict_info_slices dri) =? 0))
                dris = false
    end.
Proof.
  induction dris as [|dri dris IH]; intros i dvs; simpl.
  - now rewrite app_nil_r.
  - destruct (num_slices (dimension_restrict_info_slices dri) =? 0);
      simpl; [reflexivity|].
    specialize (IH (S i) (lappend dvs (dimension_restrict_info_slices dri))).
    destruct (get_chunk_oids_loop dris (S i) _); [assumption|].
    destruct IH as [-> ->]. unfold lappend.
    now rewrite <- app_assoc.
Qed.

(** X23: [hypertable_restrict_info_get_chunk_oids] looks chunks up
    exactly when every dimension has a candidate slice, and then with the
    slice vector of every dimension, in the order of the dimensions; in
    every other case it returns [NIL] without a lookup. *)
Theorem get_chunk_oids_resolves_all_dimensions :
  forall (hri : HypertableRestrictInfo) (ht : Hypertable)
         (lockmode : LOCKMODE),
    hypertable_restrict_info_get_chunk_oids hri ht lockmode
    = if forallb
           (fun dri =>
              negb (num_slices (dimension_restrict_info_slices dri) =? 0))
           (dimension_restriction hri)
      then chunk_find_all_oids (space ht)
             (map dimension_restrict_info_slices (dimension_restriction hri))
             lockmode
      else [].
Proof.
  intros hri ht lockmode. unfold hypertable_restrict_info_get_chunk_oids.
  pose proof (get_chunk_oids_loop_exit (dimension_restriction hri) 0%nat [])
    as H.
  destruct (get_chunk_oids_loop (dimension_restriction hri) 0 []).
  - now rewrite H.
  - destruct H as [-> ->]. reflexivity.
Qed.

End ResolutionOfAllDimensions.

(** * The further properties on the readings table *)

(** Strategy 6 is no B-tree strategy. *)
Lemma open_add_ignores_other_strategies_readings :
  dimension_restrict_info_open_add (Readings.open_at 0 0 0 0)
    6 (Readings.ints false [5])
  = (Readings.open_at 0 0 0 0, false).
Proof.
  apply open_add_ignores_other_strategies; intros H; discriminate H.
Defined.

(** [time < ALL (5, 7)] on an accumulator that holds [time < 10]. *)
Lemma open_add_keeps_least_upper_bound_readings :
  conjunctive (Readings.ints false [5; 7])
  /\ least (10 :: internal_values (Readings.ints false [5; 7]))
       (upper_bound
          (fst (dimension_restrict_info_open_add
                  (Readings.open_at 0 0 10 BTLessStrategyNumber)
                  BTLessStrategyNumber (Readings.ints false [5; 7])))).
Proof.
  assert (conjunctive (Readings.ints false [5; 7])) as C
    by (left; reflexivity).
  split; [exact C|].
  apply (open_add_keeps_least_upper_bound
           (Readings.open_at 0 0 10 BTLessStrategyNumber)
           BTLessStrategyNumber (Readings.ints false [5; 7])
           (or_introl eq_refl) C).
  intros H; discriminate H.
Defined.

(** [time > ALL (5, 7)] on an accumulator that holds [time > 0]. *)
Lemma open_add_keeps_greatest_lower_bound_readings :
  conjunctive (Readings.ints false [5; 7])
  /\ greatest (0 :: internal_values (Readings.ints false [5; 7]))
       (lower_bound
          (fst (dimension_restrict_info_open_add
                  (Readings.open_at 0 BTGreaterStrategyNumber 0 0)
                  BTGreaterStrategyNumber (Readings.ints false [5; 7])))).
Proof.
  assert (conjunctive (Readings.ints false [5; 7])) as C
    by (left; reflexivity).
  split; [exact C|].
  apply (open_add_keeps_greatest_lower_bound
           (Readings.open_at 0 BTGreaterStrategyNumber 0 0)
           BTGreaterStrategyNumber (Readings.ints false [5; 7])
           (or_introl eq_refl) C).
  intros H; discriminate H.
Defined.

(** Time 20 passes [time < 50]. *)
Lemma open_add_keeps_satisfying_values_readings :
  open_passes (Readings.open_at 0 0 0 0) 20
  /\ open_passes
       (fst (dimension_restrict_info_open_add (Readings.open_at 0 0 0 0)
               BTLessStrategyNumber (Readings.ints false [50])))
       20.
Proof.
  assert (open_passes (Readings.open_at 0 0 0 0) 20) as P
    by (split; left; reflexivity).
  split; [exact P|].
  apply (open_add_keeps_satisfying_values (Readings.open_at 0 0 0 0)
           BTLessStrategyNumber (Readings.ints false [50]) 20);
    [|exact P].
  constructor; [reflexivity | constructor].
Defined.

(** [device IN (1, 5)] on an accumulator that holds partitions 1 and 3. *)
Lemma closed_add_all_intersects_readings :
  closed_strategy (Readings.closed_at [1; 3] BTEqualStrategyNumber)
  <> InvalidStrategy
  /\ (In 1 (partitions
              (closed_add_all
                 (Readings.closed_at [1; 3] BTEqualStrategyNumber)
                 [(BTEqualStrategyNumber, Readings.ints true [1; 5])]))
      <-> In 1 (partitions (Readings.closed_at [1; 3] BTEqualStrategyNumber))
          /\ Forall
               (fun a =>
                  fst a = BTEqualStrategyNumber ->
                  contradicts
                    (Readings.closed_at [1; 3] BTEqualStrategyNumber) (snd a)
                  = false
                  /\ In 1 (dimension_restrict_info_get_partitions
                             (Readings.closed_at [1; 3] BTEqualStrategyNumber)
                             (values (snd a))))
               [(BTEqualStrategyNumber, Readings.ints true [1; 5])]).
Proof.
  assert (closed_strategy (Readings.closed_at [1; 3] BTEqualStrategyNumber)
          <> InvalidStrategy) as S by (intros H; discriminate H).
  split; [exact S|].
  exact (closed_add_all_intersects
           (Readings.closed_at [1; 3] BTEqualStrategyNumber)
           [(BTEqualStrategyNumber, Readings.ints true [1; 5])] 1 S).
Defined.

(** Partition 1, that of device 1, passes [device IN (1, 6)]. *)
Lemma closed_add_keeps_satisfying_partitions_readings :
  closed_passes (Readings.closed_at [] InvalidStrategy) 1
  /\ closed_passes
       (fst (dimension_restrict_info_closed_add
               (Readings.closed_at [] InvalidStrategy)
               BTEqualStrategyNumber (Readings.ints true [1; 6])))
       1.
Proof.
  assert (closed_passes (Readings.closed_at [] InvalidStrategy) 1) as P
    by (intros H; discriminate H).
  split; [exact P|].
  apply (closed_add_keeps_satisfying_partitions
           (Readings.closed_at [] InvalidStrategy)
           BTEqualStrategyNumber (Readings.ints true [1; 6]) 1);
    [|exact P].
  intros _. left. reflexivity.
Defined.

(** [time < 50] is counted; it restricts the time accumulator and leaves
    the device accumulator alone. *)
Lemma add_restrict_info_counts_every_change_readings :
  hypertable_restrict_info_add_restrict_info (pl := Readings.planner)
    (Readings.restrictions 0 (Readings.open_at 0 0 0 0)
       (Readings.closed_at [] InvalidStrategy))
    (Readings.compare 1 1 50)
  = Some (Readings.restrictions 1
            (Readings.open_at 0 0 50 BTLessStrategyNumber)
            (Readings.closed_at [] InvalidStrategy))
  /\ (Readings.restrictions 1
        (Readings.open_at 0 0 50 BTLessStrategyNumber)
        (Readings.closed_at [] InvalidStrategy)
      = Readings.restrictions 0 (Readings.open_at 0 0 0 0)
          (Readings.closed_at [] InvalidStrategy)
      \/ (num_base_restrictions
            (Readings.restrictions 1
               (Readings.open_at 0 0 50 BTLessStrategyNumber)
               (Readings.closed_at [] InvalidStrategy))
          = int_wrap
              (num_base_restrictions
                 (Readings.restrictions 0 (Readings.open_at 0 0 0 0)
                    (Readings.closed_at [] InvalidStrategy)) + 1)
          /\ (INT_MIN
              <= num_base_restrictions
                   (Readings.restrictions 0 (Readings.open_at 0 0 0 0)
                      (Readings.closed_at [] InvalidStrategy))
              < INT_MAX ->
              num_base_restrictions
                (Readings.restrictions 1
                   (Readings.open_at 0 0 50 BTLessStrategyNumber)
                   (Readings.closed_at [] InvalidStrategy))
              = num_base_restrictions
                  (Readings.restrictions 0 (Readings.open_at 0 0 0 0)
                     (Readings.closed_at [] InvalidStrategy)) + 1)
          /\ (num_base_restrictions
                (Readings.restrictions 0 (Readings.open_at 0 0 0 0)
                   (Readings.closed_at [] InvalidStrategy))
              = INT_MAX ->
              num_base_restrictions
                (Readings.restrictions 1
                   (Readings.open_at 0 0 50 BTLessStrategyNumber)
                   (Readings.closed_at [] InvalidStrategy))
              = INT_MIN))).
Proof.
  refine (conj eq_refl _).
  exact (add_restrict_info_counts_every_change (pl := Readings.planner)
           (Readings.restrictions 0 (Readings.open_at 0 0 0 0)
              (Readings.closed_at [] InvalidStrategy))
           (Readings.compare 1 1 50)
           (Readings.restrictions 1
              (Readings.open_at 0 0 50 BTLessStrategyNumber)
              (Readings.closed_at [] InvalidStrategy))
           eq_refl).
Defined.

(** [device IN (1, 5)] restricts the device accumulator and leaves the
    time accumulator alone. *)
Lemma add_restrict_info_touches_one_accumulator_readings :
  hypertable_restrict_info_add_restrict_info (pl := Readings.planner)
    (Readings.restrictions 0 (Readings.open_at 0 0 0 0)
       (Readings.closed_at [] InvalidStrategy))
    (Readings.compare_array 2 3 true [Some 1; Some 5])
  = Some (Readings.restrictions 1 (Readings.open_at 0 0 0 0)
            (Readings.closed_at [1] BTEqualStrategyNumber))
  /\ map dimension
       (dimension_restriction
          (Readings.restrictions 1 (Readings.open_at 0 0 0 0)
             (Readings.closed_at [1] BTEqualStrategyNumber)))
     = map dimension
         (dimension_restriction
            (Readings.restrictions 0 (Readings.open_at 0 0 0 0)
               (Readings.closed_at [] InvalidStrategy)))
  /\ exists i,
       forall k, k <> i ->
         nth_error
           (dimension_restriction
              (Readings.restrictions 1 (Readings.open_at 0 0 0 0)
                 (Readings.closed_at [1] BTEqualStrategyNumber))) k
         = nth_error
             (dimension_restriction
                (Readings.restrictions 0 (Readings.open_at 0 0 0 0)
                   (Readings.closed_at [] InvalidStrategy))) k.
Proof.
  refine (conj eq_refl _).
  exact (add_restrict_info_touches_one_accumulator (pl := Readings.planner)
           (Readings.restrictions 0 (Readings.open_at 0 0 0 0)
              (Readings.closed_at [] InvalidStrategy))
           (Readings.compare_array 2 3 true [Some 1; Some 5]) _ eq_refl).
Defined.

(** [time < 50 AND device IN (1, 5)]: two clauses, two restrictions. *)
Lemma hypertable_restrict_info_add_counts_readings :
  INT_MIN
  <= num_base_restrictions
       (Readings.restrictions 0 (Readings.open_at 0 0 0 0)
          (Readings.closed_at [] InvalidStrategy))
  <= INT_MAX
  /\ hypertable_restrict_info_add (pl := Readings.planner)
       (Readings.restrictions 0 (Readings.open_at 0 0 0 0)
          (Readings.closed_at [] InvalidStrategy))
       [ Readings.compare 1 1 50;
         Readings.compare_array 2 3 true [Some 1; Some 5] ]
     = Some (Readings.restrictions 2
               (Readings.open_at 0 0 50 BTLessStrategyNumber)
               (Readings.closed_at [1] BTEqualStrategyNumber))
  /\ exists counted,
       0 <= counted
       <= Z.of_nat
            (length
               [ Readings.compare 1 1 50;
                 Readings.compare_array 2 3 true [Some 1; Some 5] ])
       /\ num_base_restrictions
            (Readings.restrictions 2
               (Readings.open_at 0 0 50 BTLessStrategyNumber)
               (Readings.closed_at [1] BTEqualStrategyNumber))
          = int_wrap
              (num_base_restrictions
                 (Readings.restrictions 0 (Readings.open_at 0 0 0 0)
                    (Readings.closed_at [] InvalidStrategy)) + counted).
Proof.
  assert (INT_MIN
          <= num_base_restrictions
               (Readings.restrictions 0 (Readings.open_at 0 0 0 0)
                  (Readings.closed_at [] InvalidStrategy))
          <= INT_MAX) as R
    by (split; intros H; discriminate H).
  refine (conj R (conj eq_refl _)).
  exact (proj1 (proj2 (proj2
           (hypertable_restrict_info_add_counts (pl := Readings.planner)
              [ Readings.compare 1 1 50;
                Readings.compare_array 2 3 true [Some 1; Some 5] ]
              (Readings.restrictions 0 (Readings.open_at 0 0 0 0)
                 (Readings.closed_at [] InvalidStrategy))
              (Readings.restrictions 2
                 (Readings.open_at 0 0 50 BTLessStrategyNumber)
                 (Readings.closed_at [1] BTEqualStrategyNumber))
              R eq_refl)))).
Defined.

(** [50 > time] is handled as [time < 50]: the commutator of operator 5
    is operator 1. *)
Lemma add_expr_commutes_operands_readings :
  (forall n a,
      strip_relabel (T_Const (Readings.int_const 50)) <> T_Var n a)
  /\ hypertable_restrict_info_add_expr (pl := Readings.planner)
       (Readings.restrictions 0 (Readings.open_at 0 0 0 0)
          (Readings.closed_at [] InvalidStrategy))
       [T_Const (Readings.int_const 50); T_Var 1 1] 5
       dimension_values_create_from_single_element false
     = Some (Readings.restrictions 0
               (Readings.open_at 0 0 50 BTLessStrategyNumber)
               (Readings.closed_at [] InvalidStrategy), true)
  /\ hypertable_restrict_info_add_expr (pl := Readings.planner)
       (Readings.restrictions 0 (Readings.open_at 0 0 0 0)
          (Readings.closed_at [] InvalidStrategy))
       [T_Const (Readings.int_const 50); T_Var 1 1] 5
       dimension_values_create_from_single_element false
     = hypertable_restrict_info_add_expr (pl := Readings.planner)
         (Readings.restrictions 0 (Readings.open_at 0 0 0 0)
            (Readings.closed_at [] InvalidStrategy))
         [T_Var 1 1; T_Const (Readings.int_const 50)]
         (get_commutator (Planner := Readings.planner) 5)
         dimension_values_create_from_single_element false.
Proof.
  assert (forall n a,
             strip_relabel (T_Const (Readings.int_const 50)) <> T_Var n a)
    as N by (intros n a H; discriminate H).
  refine (conj N (conj eq_refl _)).
  exact (add_expr_commutes_operands (pl := Readings.planner)
           (Readings.restrictions 0 (Readings.open_at 0 0 0 0)
              (Readings.closed_at [] InvalidStrategy))
           (T_Const (Readings.int_const 50)) 1 1 5
           dimension_values_create_from_single_element false N).
Defined.
